(** * Cobblestone: the Minecraft 1.19 play-state protocol layer

    A shallow embedding of
      - [server/deno/networking/minecraft/playPackets.ts]
        (serverbound packet handlers, [ModernConnectionHandler], the
        clientbound packet catalog), and
      - [core/server.ts] ([Server.connectPlayer] and the methods around
        it), with the connection class it works on
        ([core/networking/connection.ts]) modelled from the
        specification,
    followed by the properties of the protocol specification that are
    checked against them.

    Conventions of the model.
      - A JavaScript number that holds an integer (block coordinates, ids,
        timestamps, world sizes) is a [Z]; the quotients the code forms from
        them ([w / 16], [w / 32]) are exact rationals [Q]; the doubles of the
        movement packets (positions, yaw, pitch) are binary64 [float]s.
      - [undefined] / [null] is [None].
      - Everything a session does to the outside is appended to its
        [trace]: packets handed to [handler.send], and calls into the player
        collaborator ([core/player.ts], an external collaborator of this
        layer).  The collaborator's own effects are behind its call event. *)

From Stdlib Require Import ZArith QArith Qround List String Ascii Lia Bool.
From Stdlib Require Import PrimFloat SpecFloat FloatOps.
From stdpp Require Import gmap strings list pretty.

Local Open Scope Z_scope.

(* ===================================================================== *)
(** * JavaScript arithmetic *)
(* ===================================================================== *)

(** [x % y] on doubles: the remainder of the truncating division, exact,
    with the sign of the dividend (ECMAScript [Number::remainder]). *)
Definition js_rem (x y : float) : float :=
  match Prim2SF x, Prim2SF y with
  | S754_nan, _ | _, S754_nan => nan
  | S754_infinity _, _ => nan
  | _, S754_zero _ => nan
  | S754_zero _, _ => x
  | S754_finite _ _ _, S754_infinity _ => x
  | S754_finite sx mx ex, S754_finite _ my ey =>
      let e := Z.min ex ey in
      let X := Z.pos mx * 2 ^ (ex - e) in
      let Y := Z.pos my * 2 ^ (ey - e) in
      let r := Z.rem X Y in
      SF2Prim (binary_normalize prec emax (if sx then - r else r) e sx)
  end.

(** [a < b] on exact quotients of integers. *)
Definition js_lt (a b : Q) : bool := negb (Qle_bool b a).

(** [Math.ceil(Math.max(w, d) / 32 + 2)], the view distance sent at join. *)
Definition viewDistance (w d : Z) : Z :=
  Qceiling (inject_Z (Z.max w d) / 32 + 2).

(** JavaScript arrays with holes: [None] is a hole (reads as [undefined]). *)
Definition js_array_get {A} (l : list (option A)) (i : Z) : option A :=
  if i <? 0 then None else mjoin (l !! Z.to_nat i).

(** [l[i] = v] for an index [0 <= i]: in range it overwrites, beyond the end
    the array is extended and the gap is left as holes. *)
Definition js_array_set {A} (l : list (option A)) (i : Z) (v : A)
  : list (option A) :=
  if (Z.to_nat i <? length l)%nat then <[Z.to_nat i := Some v]> l
  else l ++ replicate (Z.to_nat i - length l)%nat None ++ [Some v].

(** [toLocaleLowerCase] on ASCII text, where it changes the letters A-Z
    and nothing else. *)
Definition ascii_lower (c : ascii) : ascii :=
  let n := nat_of_ascii c in
  if ((65 <=? n) && (n <=? 90))%nat then ascii_of_nat (n + 32) else c.

Fixpoint toLowerCase (s : string) : string :=
  match s with
  | EmptyString => EmptyString
  | String c r => String (ascii_lower c) (toLowerCase r)
  end.

Definition ascii_upper (c : ascii) : ascii :=
  let n := nat_of_ascii c in
  if ((97 <=? n) && (n <=? 122))%nat then ascii_of_nat (n - 32) else c.

Fixpoint toUpperCase (s : string) : string :=
  match s with
  | EmptyString => EmptyString
  | String c r => String (ascii_upper c) (toUpperCase r)
  end.

(** What a match is replaced by ([GetSubstitution] for a string pattern,
    which has no captures): in the replacement text [$$] stands for a
    dollar sign, [$&] for the matched text, [$`] for the text [before] the
    match and [$'] for the text [after] it; every other character,
    a dollar sign before anything else included, stands for itself. *)
Fixpoint getSubstitution (matched before after template : string) : string :=
  match template with
  | EmptyString => EmptyString
  | String c r =>
      if Ascii.eqb c "$"%char then
        match r with
        | EmptyString => String c EmptyString
        | String d r' =>
            if Ascii.eqb d "$"%char then
              String "$"%char (getSubstitution matched before after r')
            else if Ascii.eqb d "&"%char then
              matched ++ getSubstitution matched before after r'
            else if Ascii.eqb d "`"%char then
              before ++ getSubstitution matched before after r'
            else if Ascii.eqb d "'"%char then
              after ++ getSubstitution matched before after r'
            else String c (getSubstitution matched before after r)
        end
      else String c (getSubstitution matched before after r)
  end.

(** [n] characters dropped from the front of [s]. *)
Fixpoint string_drop (n : nat) (s : string) : string :=
  match n, s with
  | O, _ => s
  | Datatypes.S _, EmptyString => EmptyString
  | Datatypes.S k, String _ r => string_drop k r
  end.

(** [s.replaceAll(pat, rep)] for a non-empty [pat]: matches are taken left
    to right and do not overlap; [skip] counts the characters of a match
    still to be dropped, and [before] is the text already passed. *)
Fixpoint replaceAll_from (pat rep : string) (skip : nat) (before s : string)
  : string :=
  match s with
  | EmptyString => EmptyString
  | String c r =>
      match skip with
      | Datatypes.S k =>
          replaceAll_from pat rep k (before ++ String c EmptyString) r
      | O =>
          if String.prefix pat s
          then getSubstitution pat before (string_drop (String.length pat) s) rep
               ++ replaceAll_from pat rep (String.length pat - 1)
                    (before ++ String c EmptyString) r
          else String c (replaceAll_from pat rep 0
                           (before ++ String c EmptyString) r)
      end
  end.

Definition replaceAll (pat rep s : string) : string :=
  replaceAll_from pat rep 0 EmptyString s.

(** The language's [String.prototype.toLowerCase] and [toUpperCase].  They
    follow the Unicode case mappings, which are not defined here: the
    server code is read with the two functions taken as given. *)
Record CaseMapping := {
  js_toLowerCase : string -> string;
  js_toUpperCase : string -> string;
}.

(** The section sign, two bytes in UTF-8. *)
Definition section_sign : string :=
  String (ascii_of_nat 194) (String (ascii_of_nat 167) EmptyString).

(** [patchText(text)]: the [text] field of the holder it returns. *)
Definition patchText (text : string) : string :=
  replaceAll "&" section_sign text.

(* ===================================================================== *)
(** * The world view and the translation tables *)
(* ===================================================================== *)

Definition XYZ : Type := Z * Z * Z.

(** What a packet reads of a player: [player.numId], [player.username],
    [player.position], [player.yaw], [player.pitch]. *)
Record Entity := {
  numId : Z;
  username : string;
  position : float * float * float;
  yaw : float;
  pitch : float;
}.

Record SpawnPoint := {
  sp_x : float; sp_y : float; sp_z : float; sp_yaw : float; sp_pitch : float;
}.

Record World := {
  getSize : XYZ;
  getBlockId : Z -> Z -> Z -> Z;
  fileName : string;
  spawnPoint : SpawnPoint;
  players : list Entity;
}.

(** Modelled from the spec: [World.isInBounds] of [core/world/world.ts],
    which is not among the sources.  The specification's world view is
    "bounds-checked", and a cell is out of bounds when it "lies outside the
    world's declared bounds": each coordinate ranges over [0, size). *)
Definition isInBounds (w : World) (x y z : Z) : bool :=
  let '(sx, sy, sz) := getSize w in
  (0 <=? x) && (x <? sx) && (0 <=? y) && (y <? sy) && (0 <=? z) && (z <? sz).

(** [translationMap.ts] is not among the sources; its three exports are
    taken as given.  [cBlockToBlockState] and [itemToCBlock] are lookup
    tables ([None] where the table has no entry); an [itemToCBlock] entry is
    a block, of which the handlers read only [numId]. *)
Record TranslationMap := {
  cBlockToBlockState : Z -> option Z;
  barrierId : Z;
  itemToCBlock : Z -> option Z;
}.

(** [cBlockToBlockState[block] ?? 0], as written in
    [ModernConnectionHandler.setBlock] and in the section loop of
    [sendWorld]. *)
Definition blockStateOrZero (tm : TranslationMap) (block : Z) : Z :=
  match cBlockToBlockState tm block with
  | Some st => st
  | None => 0
  end.

Record Player := {
  entity :> Entity;
  uuid : string;
  client : string;
  service : string;
  world : World;
  isConnected : bool;
}.

(** The player collaborator ([core/player.ts]): each action takes the player
    object and returns it as the action leaves it; [_action_block_break]
    also answers whether the block was broken. *)
Record PlayerActions := {
  _action_block_break : Player -> Z -> Z -> Z -> bool * Player;
  _action_block_place : Player -> Z -> Z -> Z -> Z -> Player;
  _action_move : Player -> float -> float -> float -> float -> float -> Player;
  _action_chat_message : Player -> string -> Player;
  player_disconnect : Player -> Player;
}.

(* ===================================================================== *)
(** * Chunk sections *)
(* ===================================================================== *)

Module ChunkSection.

(** Modelled from the spec: [chunk/chunkSection.ts] is not among the
    sources.  A section is "a fixed-size cube (16x16x16) of block-state
    identifiers", one per cell; [setBlock] stores one cell. *)
Record t := { getBlock : Z -> Z -> Z -> Z }.

Definition new : t := {| getBlock := fun _ _ _ => 0 |}.

Definition setBlock (s : t) (x y z state : Z) : t :=
  {| getBlock := fun a b c =>
       if (a =? x) && (b =? y) && (c =? z) then state else getBlock s a b c |}.

End ChunkSection.

(* ===================================================================== *)
(** * The clientbound packet catalog *)
(* ===================================================================== *)

(** A clientbound packet, by builder and arguments.  [PacketWriter]
    ([packet.ts]) is not among the sources, so a packet is kept as the
    builder's name and the values it writes, not as bytes. *)
Module packet.

Inductive t :=
| pluginMessage (channel : string) (payload : string)
| keepAlive (time : Z)
| spawnPlayer (player : Entity)
| removeEntity (id : Z)
| updatePlayerListTexts (header footer : string)
| playerListAdd (player : Entity) (uuidOverride : option string)
| playerListRemove (player : Z)
| abilities (invulnerable flying canFly instaBreak : bool)
            (flyingSpeed fov : float)
| disconnect (text : string)
| updateViewPos (x z : Q)
| setBlock (x y z block : Z)
| acknowledgeBlockChange (id : Z)
| chatMessage (text : string)
| teleport (entityId : Z) (x y z yaw pitch : float) (onGround : bool)
| rotateHead (entityId : Z) (yaw : float)
| respawn (world : string)
| worldEvent (id : Z) (position : XYZ) (data : option Z) (noDistance : bool)
| updateViewDistance (distance : Z)
| updateTickDistance (distance : Z)
| joinGame (entityId : Z) (dimension : string) (height : Z)
           (maxPlayers : Z) (viewDistance : Z)
(** The chunk-data packet [0x1f] that [sendWorld] writes in place:
    column, heightmap bit width (the heightmap itself is never written
    to and stays zero), the sections in array order, and the size of the
    empty light bit sets. *)
| chunkData (cx cz : Z) (heightMapBits : Z)
            (sections : list ChunkSection.t) (lightBits : Z).

End packet.

(* ===================================================================== *)
(** * The session *)
(* ===================================================================== *)

Inductive Event :=
| Sent (p : packet.t)                          (* handler.send(p) *)
| Closed                                       (* handler.close() *)
| BlockBreak (x y z : Z)                       (* player._action_block_break *)
| BlockPlace (x y z block : Z)                 (* player._action_block_place *)
| Move (x y z yaw pitch : float)               (* player._action_move *)
| ChatMessage (text : string)                  (* player._action_chat_message *)
| PlayerDisconnect                             (* player.disconnect() *)
| LogConn (text : string).                     (* server.logger.conn *)

(** [handler.data]: the pending delayed action. *)
Record HandlerData := {
  minePos : option XYZ;
  mineTime : option Z;
}.

(** One connection: the [MCProtocolHandler] and the
    [ModernConnectionHandler] wrapped around it.  [setPlayer] is the only
    place that assigns [this._player] and [this._handler.player], and it
    assigns both the same object; the model keeps that one object in
    [player], read by both names. *)
Record Session := {
  player : option Player;
  data : HandlerData;
  inventory : list (option Z);
  inventorySlot : Z;
  selfUuid : string;
  ip : string;
  port : Z;
  trace : list Event;          (* oldest first *)
}.

Definition set_player (p : option Player) (s : Session) : Session :=
  {| player := p; data := data s; inventory := inventory s;
     inventorySlot := inventorySlot s; selfUuid := selfUuid s;
     ip := ip s; port := port s; trace := trace s |}.

Definition set_data (d : HandlerData) (s : Session) : Session :=
  {| player := player s; data := d; inventory := inventory s;
     inventorySlot := inventorySlot s; selfUuid := selfUuid s;
     ip := ip s; port := port s; trace := trace s |}.

Definition set_inventory (i : list (option Z)) (s : Session) : Session :=
  {| player := player s; data := data s; inventory := i;
     inventorySlot := inventorySlot s; selfUuid := selfUuid s;
     ip := ip s; port := port s; trace := trace s |}.

Definition set_inventorySlot (i : Z) (s : Session) : Session :=
  {| player := player s; data := data s; inventory := inventory s;
     inventorySlot := i; selfUuid := selfUuid s;
     ip := ip s; port := port s; trace := trace s |}.

Definition emit (e : Event) (s : Session) : Session :=
  {| player := player s; data := data s; inventory := inventory s;
     inventorySlot := inventorySlot s; selfUuid := selfUuid s;
     ip := ip s; port := port s; trace := trace s ++ [e] |}.

(** ** A state-and-exception monad for handler bodies *)

Inductive Completion (A : Type) :=
| Normal (a : A)
| Throw (e : string).
Arguments Normal {A} a.
Arguments Throw {A} e.

Definition M (A : Type) : Type := Session -> Completion A * Session.

Definition ret {A} (a : A) : M A := fun s => (Normal a, s).

Definition bind {A B} (m : M A) (k : A -> M B) : M B :=
  fun s => match m s with
           | (Normal a, s') => k a s'
           | (Throw e, s') => (Throw e, s')
           end.

Definition throw {A} (e : string) : M A := fun s => (Throw e, s).
Definition get : M Session := fun s => (Normal s, s).
Definition modify (f : Session -> Session) : M unit := fun s => (Normal tt, f s).

Declare Scope handler_scope.
Delimit Scope handler_scope with handler.
Notation "x <- m ;; k" := (bind m (fun x => k))
  (at level 100, m at next level, right associativity) : handler_scope.
Notation "m ;;; k" := (bind m (fun _ => k))
  (at level 100, right associativity) : handler_scope.
Local Open Scope handler_scope.

(** [handler.send(p)]. *)
Definition send (p : packet.t) : M unit := modify (emit (Sent p)).

(** [handler.player?.f(...)]: nothing is evaluated when no player is set. *)
Definition with_player (f : Player -> M unit) : M unit :=
  s <- get ;;
  match player s with
  | Some p => f p
  | None => ret tt
  end.

(** A call into the player collaborator: the call is recorded and the
    player object is left as the collaborator returns it. *)
Definition call_player (e : Event) (p' : Player) : M unit :=
  modify (fun s => set_player (Some p') (emit e s)).

(* ===================================================================== *)
(** * Loops *)
(* ===================================================================== *)

(** [for (let i = start; cond(i); i++) body(i)] over a state [S].  The
    recursion is on [fuel]; [None] means the fuel ran out before the
    condition turned false. *)
Fixpoint for_loop {S : Type} (fuel : nat) (cond : Z -> bool)
    (body : Z -> S -> option S) (i : Z) (s : S) : option S :=
  match fuel with
  | O => None
  | Datatypes.S fuel' =>
      if cond i then
        match body i s with
        | Some s' => for_loop fuel' cond body (i + 1) s'
        | None => None
        end
      else Some s
  end.

(* ===================================================================== *)
(** * Serverbound packet handlers ([playPackets]) *)
(* ===================================================================== *)

Definition directions : list XYZ :=
  [ (0, -1, 0);
    (0, 1, 0);
    (0, 0, -1);
    (0, 0, 1);
    (-1, 0, 0);
    (1, 0, 0) ].

(** [directions[faceId]]. *)
Definition directions_at (faceId : Z) : option XYZ :=
  if faceId <? 0 then None else directions !! Z.to_nat faceId.

(** What the handlers read of the server object. *)
Record ServerInfo := {
  softwareName : string;
  softwareVersion : string;
  serverName : string;
  serverMotd : string;
  maxPlayerCount : Z;
}.

(** [(((deg + 180) % 360) / 360) * 256] and [(deg / 360) * 256]. *)
Definition yawToProtocol (deg : float) : float :=
  (js_rem (deg + 180) 360 / 360 * 256)%float.

Definition pitchToProtocol (deg : float) : float :=
  (deg / 360 * 256)%float.

Section Handlers.

Variable tm : TranslationMap.
Variable pa : PlayerActions.
Variable server : ServerInfo.

(** [ModernConnectionHandler.setBlock]. *)
Definition setBlock (x y z block : Z) : M unit :=
  send (packet.setBlock x y z (blockStateOrZero tm block)).

(** [0x03] Command and [0x04] Chat Message. *)
Definition playPackets_0x03 (text : string) : M unit :=
  with_player (fun p =>
    call_player (ChatMessage ("/" ++ text))
                (_action_chat_message pa p ("/" ++ text))).

Definition playPackets_0x04 (text : string) : M unit :=
  with_player (fun p =>
    call_player (ChatMessage text) (_action_chat_message pa p text)).

(** [0x1c] Player Action.  [now] is what [Date.now()] returns. *)
Definition playPackets_0x1c (now : Z) (status : Z) (pos : XYZ) : M unit :=
  let '(x, y, z) := pos in
  match status with
  | 0 =>
      modify (set_data {| minePos := Some pos; mineTime := Some now |})
  | 1 =>
      modify (set_data {| minePos := None; mineTime := None |})
  | 2 =>
      (s <- get ;;
       match player s with
       | Some p =>
           if isInBounds (world p) x y z then
             let oldBlock := getBlockId (world p) x y z in
             let '(broken, p') := _action_block_break pa p x y z in
             (call_player (BlockBreak x y z) p' ;;;
              if broken
              then send (packet.worldEvent 2001 pos
                           (cBlockToBlockState tm oldBlock) false)
              else ret tt)
           else send (packet.setBlock x y z (barrierId tm))
       | None => send (packet.setBlock x y z (barrierId tm))
       end) ;;;
      modify (set_data {| minePos := None; mineTime := None |})
  | _ => ret tt
  end.

(** [0x0f] Interact. *)
Definition playPackets_0x0f : M unit := ret tt.

(** [0x13] Set Player Position. *)
Definition playPackets_0x13 (x y z : float) : M unit :=
  with_player (fun p =>
    call_player (Move x y z (yaw p) (pitch p))
                (_action_move pa p x y z (yaw p) (pitch p))).

(** [0x14] Set Player Position and Rotation. *)
Definition playPackets_0x14 (x y z yaw pitch : float) : M unit :=
  with_player (fun p =>
    call_player (Move x y z (yawToProtocol yaw) (pitchToProtocol pitch))
                (_action_move pa p x y z
                   (yawToProtocol yaw) (pitchToProtocol pitch))).

(** [0x15] Set Player Rotation. *)
Definition playPackets_0x15 (yaw pitch : float) : M unit :=
  with_player (fun p =>
    let '(x, y, z) := position p in
    call_player (Move x y z (yawToProtocol yaw) (pitchToProtocol pitch))
                (_action_move pa p x y z
                   (yawToProtocol yaw) (pitchToProtocol pitch))).

(** [0x27] Set Held Item. *)
Definition playPackets_0x27 (slot : Z) : M unit :=
  modify (set_inventorySlot slot).

(** [0x2a] Set Creative Mode Slot: the slot, the item's presence flag and,
    read only when present, its id. *)
Definition playPackets_0x2a (slot : Z) (present : bool) (id : Z) : M unit :=
  if (slot <? 50) && (slot >=? 0) then
    if present
    then modify (fun s => set_inventory (js_array_set (inventory s) slot id) s)
    else modify (fun s => set_inventory (js_array_set (inventory s) slot 0) s)
  else ret tt.

(** [item != 0] for a slot that may read as [undefined]. *)
Definition item_nonzero (item : option Z) : bool :=
  match item with
  | Some 0 => false
  | _ => true
  end.

(** [face[0]] on [directions[faceId]]: a [TypeError] when the face id has
    no entry. *)
Definition face_of (faceId : Z) : M XYZ :=
  match directions_at faceId with
  | Some f => ret f
  | None => throw "TypeError"
  end.

(** [0x30] Use Item On.  [handler.player._connectionHandler] is this very
    connection: [setPlayer] is where a connection takes its player. *)
Definition playPackets_0x30 (pos : XYZ) (faceId : Z) (sequence : Z) : M unit :=
  s <- get ;;
  let item := js_array_get (inventory s) (inventorySlot s + 36) in
  let '(x, y, z) := pos in
  if item_nonzero item then
    let block := item ≫= itemToCBlock tm in
    (match block with
     | Some numId =>
         with_player (fun p =>
           f <- face_of faceId ;;
           let '(fx, fy, fz) := f in
           call_player (BlockPlace (x + fx) (y + fy) (z + fz) numId)
             (_action_block_place pa p (x + fx) (y + fy) (z + fz) numId))
     | None =>
         with_player (fun p =>
           f <- face_of faceId ;;
           let '(fx, fy, fz) := f in
           setBlock (x + fx) (y + fy) (z + fz)
             (getBlockId (world p) (x + fx) (y + fy) (z + fz)))
     end) ;;;
    send (packet.acknowledgeBlockChange sequence)
  else ret tt.

(* ===================================================================== *)
(** * [ModernConnectionHandler] *)
(* ===================================================================== *)

(** [packet.joinGame(player, server, world)] and [packet.respawn(world)]. *)
Definition joinGame (p : Player) (w : World) : packet.t :=
  let '(sx, sy, sz) := getSize w in
  packet.joinGame (numId p) ("w:" ++ toLowerCase (fileName w))
    (sy + 16) (maxPlayerCount server) (viewDistance sx sz).

Definition respawn (w : World) : packet.t :=
  packet.respawn ("w:" ++ toLowerCase (fileName w)).

(** [tick()].  [now] is what [Date.now()] returns. *)
Definition tick (now : Z) : M unit :=
  (if Z.rem now 2 =? 0 then send (packet.keepAlive now) else ret tt) ;;;
  s <- get ;;
  match minePos (data s), mineTime (data s) with
  | Some pos, Some t =>
      (* [minePos && mineTime && now - mineTime > 200]: a position is
         truthy, a time is truthy unless it is 0 *)
      if negb (t =? 0) && (now - t >? 200) then
        let '(x, y, z) := pos in
        (s <- get ;;
         match player s with
         | Some p =>
             if isInBounds (world p) x y z then
               let oldBlock := getBlockId (world p) x y z in
               let '(broken, p') := _action_block_break pa p x y z in
               (call_player (BlockBreak x y z) p' ;;;
                if broken
                then send (packet.worldEvent 2001 pos
                             (cBlockToBlockState tm oldBlock) false)
                else ret tt)
             else send (packet.setBlock x y z (barrierId tm))
         | None => send (packet.setBlock x y z (barrierId tm))
         end) ;;;
        modify (set_data {| minePos := None; mineTime := None |})
      else ret tt
  | _, _ => ret tt
  end.

(** [setPlayer(player)]. *)
Definition setPlayer (p : Player) : M unit :=
  modify (set_player (Some p)) ;;;
  send (joinGame p (world p)) ;;;
  send (packet.pluginMessage "minecraft:brand"
          (softwareName server ++ " " ++ softwareVersion server)) ;;;
  send (packet.updatePlayerListTexts
          (patchText (serverName server)) (patchText (serverMotd server))).

(** [getPlayer()]. *)
Definition getPlayer : M (option Player) :=
  s <- get ;; ret (player s).

(** [sendTeleport], [sendMove], [sendSpawnPlayer], [sendDespawnPlayer].
    [player != this._player] compares object identities; players are told
    apart by their [numId]. *)
Definition is_self (e : Entity) (s : Session) : bool :=
  match player s with
  | Some p => numId e =? numId p
  | None => false
  end.

Definition sendTeleport (e : Entity) (pos : float * float * float)
    (yaw pitch : float) : M unit :=
  let '(x, y, z) := pos in
  send (packet.teleport (numId e) x y z
          (js_rem (yaw + 128) 256) pitch false) ;;;
  send (packet.rotateHead (numId e) (js_rem (yaw + 128) 256)).

Definition sendMove (e : Entity) (pos : float * float * float)
    (yaw pitch : float) : M unit :=
  s <- get ;;
  if is_self e s then ret tt
  else sendTeleport e pos yaw pitch.

Definition sendSpawnPlayer (e : Entity) : M unit :=
  s <- get ;;
  if is_self e s then ret tt
  else (send (packet.playerListAdd e None) ;;;
        send (packet.spawnPlayer e)).

Definition sendDespawnPlayer (e : Entity) : M unit :=
  s <- get ;;
  if is_self e s then ret tt
  else (send (packet.removeEntity (numId e)) ;;;
        send (packet.playerListRemove (numId e))).

(** [sendMessage]. *)
Definition sendMessage (text : string) : M unit :=
  send (packet.chatMessage (patchText text)).

(** [disconnect(message)]; the body runs under [try { } catch { }]. *)
Definition disconnect (message : string) : M unit :=
  s <- get ;;
  match player s with
  | Some p =>
      if isConnected p then
        call_player PlayerDisconnect (player_disconnect pa p)
      else
        (modify (emit (LogConn
           ("User " ++ ip s ++ ":" ++ pretty (port s) ++ " (" ++ username p
            ++ ") disconnected! Reason " ++ message))) ;;;
         send (packet.disconnect (patchText message)) ;;;
         modify (emit Closed))
  | None =>
      send (packet.disconnect (patchText message)) ;;;
      modify (emit Closed)
  end.

(** [world.players.forEach(f)]. *)
Fixpoint forEach {A} (f : A -> M unit) (l : list A) : M unit :=
  match l with
  | [] => ret tt
  | a :: r => f a ;;; forEach f r
  end.

(** The cell loops of [sendWorld]: [section] is the object just pushed on
    [chunkSections]; the array holds that same object, so a store through
    [section] is a store into the array's last entry, at index [ref]. *)
Definition fillSection (fuel : nat) (w : World) (cx cy cz : Z) (ref : nat)
    (chunkSections : list ChunkSection.t) : option (list ChunkSection.t) :=
  for_loop fuel (fun x => x <? 16) (fun x secs =>
    for_loop fuel (fun y => y <? 16) (fun y secs =>
      for_loop fuel (fun z => z <? 16) (fun z secs =>
        if isInBounds w (cx * 16 + x) (cy * 16 + y) (cz * 16 + z) then
          Some (alter (fun section =>
                  ChunkSection.setBlock section x y z
                    (blockStateOrZero tm
                       (getBlockId w (cx * 16 + x) (cy * 16 + y) (cz * 16 + z))))
                  ref secs)
        else
          Some (alter (fun section =>
                  ChunkSection.setBlock section x y z (barrierId tm))
                  ref secs))
        0 secs)
      0 secs)
    0 chunkSections.

(** The [cy] loop: the sections of one column, in array order. *)
Definition columnSections (fuel : nat) (w : World) (cx cz : Z)
  : option (list ChunkSection.t) :=
  let '(sx, sy, sz) := getSize w in
  for_loop fuel (fun cy => js_lt (inject_Z cy) (inject_Z sy / 16))
    (fun cy chunkSections =>
       fillSection fuel w cx cy cz (length chunkSections)
         (chunkSections ++ [ChunkSection.new]))
    (-1) [].

(** [sendWorld(world)].  The [await sleep(n)] pauses are suspension points
    and send nothing; the model runs the steps of one call in their order.
    [None] is the fuel of the loops running out. *)
Definition sendWorld (fuel : nat) (w : World) (s : Session)
  : option (Completion unit * Session) :=
  match player s with
  | None => Some (Throw "Player is not set!", s)
  | Some p =>
      let '(sx, sy, sz) := getSize w in
      let s := emit (Sent (joinGame p w)) s in
      let s := emit (Sent (respawn w)) s in
      let s := emit (Sent (packet.updateViewDistance (viewDistance sx sz))) s in
      let s := emit (Sent (packet.updateTickDistance (viewDistance sx sz))) s in
      let s := emit (Sent (packet.updateViewPos (inject_Z sx / 32)
                             (inject_Z sz / 32))) s in
      let heightMapBits := Z.log2_up (sy + 2) in
      match
        for_loop fuel (fun cx => js_lt (inject_Z cx) (inject_Z sx / 16 + 1))
          (fun cx s =>
             for_loop fuel (fun cz => js_lt (inject_Z cz) (inject_Z sz / 16 + 1))
               (fun cz s =>
                  match columnSections fuel w cx cz with
                  | Some chunkSections =>
                      Some (emit (Sent (packet.chunkData cx cz heightMapBits
                                    chunkSections
                                    (Z.of_nat (length chunkSections) + 2))) s)
                  | None => None
                  end)
               (-1) s)
          (-1) s
      with
      | None => None
      | Some s =>
          Some
            ((forEach sendSpawnPlayer (players w) ;;;
              send (packet.playerListAdd p (Some (selfUuid s))) ;;;
              sendTeleport p
                (sp_x (spawnPoint w), sp_y (spawnPoint w), sp_z (spawnPoint w))
                (sp_yaw (spawnPoint w)) (sp_pitch (spawnPoint w)) ;;;
              send (packet.abilities true false false true
                      0x1.999999999999ap-5 0x1.999999999999ap-4)) s)
      end
  end.

End Handlers.

(* ===================================================================== *)
(** * The connection of [Server.connectPlayer] *)
(* ===================================================================== *)

Module ConnectionHandler.

(** Modelled from the spec: the class [ConnectionHandler] of
    [core/networking/connection.ts], which is not among the sources.
    [Server.connectPlayer] reads its [ip] and [port], assigns its
    [_server], registers a callback on its
    [_clientPackets.PlayerIdentification] and calls its [sendServerInfo]
    and [disconnect].  ([ModernConnectionHandler] above has none of [ip],
    [port], [_clientPackets] and [sendServerInfo]: a connection handed to
    [connectPlayer] is not one of those.)  The specification has a
    connection go through the states "Connected, Identified, InWorld,
    Closed"; on the identification packet the "server replies with
    identity/version info"; "any state may transition to Closed on
    transport error, explicit disconnect, or fatal decode error; Closed is
    terminal - no further sends are attempted, and a best-effort final
    disconnect packet is sent only if the transport is still writable". *)
Inductive State := Connected | Identified | InWorld | Closed.

(** Modelled from the spec: what goes out on the transport of such a
    connection, as far as [connectPlayer] is concerned: the "identity/version
    info" and the "disconnect packet". *)
Inductive Output :=
| serverInfo                                   (* identity/version info *)
| disconnectPacket (message : string).

(** Modelled from the spec: a connection session has a "network endpoint
    (address, port)", its state, and a transport that may or may not be
    "still writable"; [_server] is the field [connectPlayer] assigns. *)
Record t := {
  ip : string;
  port : Z;
  _server : bool;              (* [conn._server] has been assigned *)
  state : State;
  writable : bool;             (* the transport is still writable *)
  sent : list Output;          (* oldest first *)
}.

Definition isClosed (c : t) : bool :=
  match state c with
  | Closed => true
  | _ => false
  end.

Definition set_server (c : t) : t :=
  {| ip := ip c; port := port c; _server := true; state := state c;
     writable := writable c; sent := sent c |}.

(** Modelled from the spec: a send.  "Closed is terminal - no further
    sends are attempted", and a packet "is sent only if the transport is
    still writable". *)
Definition send (o : Output) (c : t) : t :=
  if isClosed c || negb (writable c) then c
  else {| ip := ip c; port := port c; _server := _server c; state := state c;
          writable := writable c; sent := sent c ++ [o] |}.

(** Modelled from the spec: [sendServerInfo(server)], by which the
    "server replies with identity/version info". *)
Definition sendServerInfo (c : t) : t := send serverInfo c.

(** Modelled from the spec: [disconnect(message)], the "explicit
    disconnect": the "best-effort final disconnect packet", then
    [Closed]. *)
Definition disconnect (message : string) (c : t) : t :=
  let c := send (disconnectPacket message) c in
  {| ip := ip c; port := port c; _server := _server c; state := Closed;
     writable := writable c; sent := sent c |}.

End ConnectionHandler.

(* ===================================================================== *)
(** * [Server] *)
(* ===================================================================== *)

Module Server.

Record PlayerInfo := {
  info_username : string;
  info_key : string;
}.

Record AuthData := {
  auth_uuid : option string;
  auth_username : string;
  auth_service : string;
  auth_secret : option string;
  auth_authenticated : bool;
}.

(** What [authenticatePlayer]'s promise resolves to. *)
Record AuthResult := {
  auth : AuthData;
  allow : bool;
}.

Inductive LogEntry :=
| conn (text : string)
| error (text : string)
| chat (text : string)
(** [p.sendMessage(message, player)] on the roster entry [p]. *)
| sendMessageTo (p : string) (message : string).

(** The fields [connectPlayer] reads and writes: the roster [players]
    (keyed by uuid), [config.messages], and what went to the logger and to
    the players' [sendMessage]. *)
Record t := {
  players : gmap string Player;
  messages : gmap string string;
  log : list LogEntry;
}.

Definition set_players (ps : gmap string Player) (srv : t) : t :=
  {| players := ps; messages := messages srv; log := log srv |}.

Definition logged (e : LogEntry) (srv : t) : t :=
  {| players := players srv; messages := messages srv; log := log srv ++ [e] |}.

(** The server's collaborators: [authenticatePlayer] (a method that the
    concrete servers override), the [Player] constructor, the two
    [Player] methods called on the new player, and [once] of the emitter
    ([libs/emitter.ts], not among the sources):
    [conn._clientPackets.PlayerIdentification.once(callback)] returns the
    connection with the callback registered, or throws (as it does on an
    object that has no [_clientPackets]). *)
Record Collaborators := {
  authenticatePlayer : AuthData -> AuthResult;
  newPlayer : string -> string -> string -> string -> Player;
  changeWorld : Player -> ConnectionHandler.t -> ConnectionHandler.t;
  getDisplayName : Player -> string;
  once : ConnectionHandler.t -> Completion ConnectionHandler.t;
}.

(** [Server.authenticatePlayer] as the base class has it. *)
Definition authenticatePlayer_base (data : AuthData) : AuthResult :=
  {| auth := data; allow := true |}.

(** [sendChatMessage(message, player)]. *)
Definition sendChatMessage (message : string) (srv : t) : t :=
  logged (chat message)
    (fold_left (fun srv '(k, _) => logged (sendMessageTo k message) srv)
               (map_to_list (players srv)) srv).

Section Language.

Variable js : CaseMapping.

(** [getMessage(id, values)]; [values] in the order [for ... in] visits
    its keys.  The lookup is [config.messages[id]] for an [id] that is not
    a property name of [Object.prototype] (for those the object answers
    with what it inherits). *)
Definition getMessage (srv : t) (id : string) (values : list (string * string))
  : string :=
  let message := default id (messages srv !! id) in
  fold_left (fun message '(x, v) =>
               replaceAll ("$" ++ js_toUpperCase js x) v message)
            values message.

(** The record handed to [authenticatePlayer]: each field is the override
    when there is one ([overrides?.f ?? ...]). *)
Definition authRequest (overrides : option AuthData) (playerInfo : PlayerInfo)
  : AuthData :=
  {| auth_uuid :=
       Some (default (js_toLowerCase js (info_username playerInfo))
               (overrides ≫= auth_uuid));
     auth_username :=
       default (info_username playerInfo) (auth_username <$> overrides);
     auth_service := default "Minecraft" (auth_service <$> overrides);
     auth_secret :=
       Some (default (info_key playerInfo) (overrides ≫= auth_secret));
     auth_authenticated :=
       default false (auth_authenticated <$> overrides) |}.

Variable co : Collaborators.

(** [connectPlayer(conn, client, overrides)] itself: the body of the [try]
    up to the registration of the identification callback, and the
    [catch] for what the registration throws. *)
Definition connectPlayer (c : ConnectionHandler.t) (srv : t)
  : t * ConnectionHandler.t :=
  let c := ConnectionHandler.set_server c in
  let srv :=
    logged (conn ("Connection from " ++ ConnectionHandler.ip c ++ ":"
                  ++ pretty (ConnectionHandler.port c) ++ "...")) srv in
  match once co c with
  | Normal c => (srv, c)
  | Throw e =>
      (logged (error ("Disconnected player - " ++ e)) srv,
       ConnectionHandler.disconnect e c)
  end.

(** The callback registered on [PlayerIdentification], run once when the
    client's identification [playerInfo] arrives; [client] and [overrides]
    are the arguments of the [connectPlayer] call.  (The [await] resumes
    with the server and the connection as the call left them.) *)
Definition onPlayerIdentification (client : option string)
    (overrides : option AuthData) (playerInfo : PlayerInfo)
    (srv : t) (c : ConnectionHandler.t) : t * ConnectionHandler.t :=
  let c := ConnectionHandler.sendServerInfo c in
  let result := authenticatePlayer co (authRequest overrides playerInfo) in
  if allow result then
    let a := auth result in
    let srv := logged (conn
      (if String.eqb (auth_service a) "Unknown"
       then "User " ++ auth_username a ++ " (" ++ default "null" (auth_uuid a)
            ++ ") doesn't use any auth..."
       else "User " ++ auth_username a ++ " (" ++ default "null" (auth_uuid a)
            ++ ") is logged with " ++ auth_service a ++ " auth!")) srv in
    let player := newPlayer co
      (default ("offline-" +:+ js_toLowerCase js (auth_username a)) (auth_uuid a))
      (auth_username a) (default "Classic" client) (auth_service a) in
    let srv := set_players (<[uuid player := player]> (players srv)) srv in
    let c := changeWorld co player c in
    let srv :=
      sendChatMessage
        (getMessage srv "join" [("player", getDisplayName co player)]) srv in
    (srv, c)
  else
    (srv, ConnectionHandler.disconnect "You need to log in!" c).

End Language.

End Server.

(* ===================================================================== *)
(** * Reading a run, and the quantities of the specification *)
(* ===================================================================== *)

(** The session a handler leaves behind. *)
Definition run {A} (m : M A) (s : Session) : Session := snd (m s).

(** No pending delayed action. *)
Definition noPending : HandlerData := {| minePos := None; mineTime := None |}.

(** [ceil(n / 16)] on integers. *)
Definition ceil16 (n : Z) : Z := (n + 15) / 16.

(** A run of [tick]s at the given times. *)
Fixpoint ticks (tm : TranslationMap) (pa : PlayerActions) (nows : list Z)
    (s : Session) : Session :=
  match nows with
  | [] => s
  | now :: r => ticks tm pa r (run (tick tm pa now) s)
  end.

(** The keep-alive packets a run of [tick]s at the given times sends. *)
Definition keepAlives (nows : list Z) : list Event :=
  map (fun now => Sent (packet.keepAlive now))
      (filter (fun now => Z.rem now 2 = 0) nows).

(** The columns of the chunk-data packets in a trace, in sending order. *)
Definition chunkColumns (tr : list Event) : list (Z * Z) :=
  omap (fun e => match e with
                 | Sent (packet.chunkData cx cz _ _ _) => Some (cx, cz)
                 | _ => None
                 end) tr.

(** The sections of the chunk-data packet(s) sent for column [(cx, cz)]. *)
Definition chunkSectionsOf (cx cz : Z) (tr : list Event)
  : list (list ChunkSection.t) :=
  omap (fun e => match e with
                 | Sent (packet.chunkData cx' cz' _ secs _) =>
                     if (cx' =? cx) && (cz' =? cz) then Some secs else None
                 | _ => None
                 end) tr.

(** The block state the section loop stores for the world cell
    [(wx, wy, wz)]. *)
Definition cellState (tm : TranslationMap) (w : World) (wx wy wz : Z) : Z :=
  if isInBounds w wx wy wz
  then blockStateOrZero tm (getBlockId w wx wy wz)
  else barrierId tm.

(** The cell loops of [sendWorld] have reached [(x, y, z)] (x outermost, z
    innermost) on the array [l ++ [section]]: the cells before [(x, y, z)]
    in that order hold their final states. *)
Definition filledBefore (tm : TranslationMap) (w : World) (cx cy cz : Z)
    (l : list ChunkSection.t) (x y z : Z) (secs : list ChunkSection.t) : Prop :=
  exists sec, secs = l ++ [sec] /\
    forall a b c, 0 <= a < 16 -> 0 <= b < 16 -> 0 <= c < 16 ->
      (a < x \/ (a = x /\ (b < y \/ (b = y /\ c < z)))) ->
      ChunkSection.getBlock sec a b c =
        cellState tm w (cx * 16 + a) (cy * 16 + b) (cz * 16 + c).

(** The sections of one column as [sendWorld] builds them: entry [i] of the
    array is the section at height [cy = i - 1], and each of its cells holds
    the state of the world cell it covers. *)
Definition columnFilled (tm : TranslationMap) (w : World) (cx cz : Z)
    (secs : list ChunkSection.t) : Prop :=
  forall (i : nat) sec, secs !! i = Some sec ->
    forall x y z, 0 <= x < 16 -> 0 <= y < 16 -> 0 <= z < 16 ->
      ChunkSection.getBlock sec x y z =
        cellState tm w (cx * 16 + x) ((Z.of_nat i - 1) * 16 + y) (cz * 16 + z).

(** The session [s] after the events [evs]. *)
Definition emits (evs : list Event) (s : Session) : Session :=
  {| player := player s; data := data s; inventory := inventory s;
     inventorySlot := inventorySlot s; selfUuid := selfUuid s;
     ip := ip s; port := port s; trace := trace s ++ evs |}.

(** The columns [(cx, cz)] with [cx] from [xs] and [cz] from [zs], in the
    order the two column loops visit them. *)
Definition grid (xs zs : list Z) : list (Z * Z) :=
  flat_map (fun x => map (pair x) zs) xs.

Definition isChunkData (e : Event) : bool :=
  match e with
  | Sent (packet.chunkData _ _ _ _ _) => true
  | _ => false
  end.

(** The event [e] is the chunk-data packet of column [col] of world [w],
    whose height is [sy]. *)
Definition columnPacket (tm : TranslationMap) (w : World) (sy : Z)
    (col : Z * Z) (e : Event) : Prop :=
  exists secs,
    e = Sent (packet.chunkData col.1 col.2 (Z.log2_up (sy + 2)) secs
                (Z.of_nat (length secs) + 2))
    /\ length secs = Z.to_nat (ceil16 sy + 1)
    /\ columnFilled tm w col.1 col.2 secs.

(** A section whose 16x16x16 cells all hold the boundary block state. *)
Definition allBoundary (tm : TranslationMap) (sec : ChunkSection.t) : Prop :=
  forall x y z, 0 <= x < 16 -> 0 <= y < 16 -> 0 <= z < 16 ->
    ChunkSection.getBlock sec x y z = barrierId tm.

(** The specification's "one extra section above the world's vertical
    extent, filled with boundary blocks": an entry [i] of the column's
    section array, that is the section at [cy = i - 1], which starts at or
    above the world's height [sy] and is all boundary. *)
Definition hasSectionAbove (tm : TranslationMap) (sy : Z)
    (secs : list ChunkSection.t) : Prop :=
  exists (i : nat) sec,
    secs !! i = Some sec /\ sy <= 16 * (Z.of_nat i - 1) /\ allBoundary tm sec.

(** Fuel that lets every loop of [sendWorld] run to its end. *)
Definition sendWorld_fuel (w : World) : nat :=
  let '(sx, sy, sz) := getSize w in
  Z.to_nat (Z.max 16 (Z.max (ceil16 sx) (Z.max (ceil16 sy) (ceil16 sz))) + 3).

(* ===================================================================== *)
(** * Concrete instances *)
(* ===================================================================== *)

Module Sample.

(** Stone and air are mapped, nothing else; the boundary state is not 0. *)
Definition tm : TranslationMap :=
  {| cBlockToBlockState := fun b =>
       if b =? 0 then Some 0 else if b =? 1 then Some 1 else None;
     barrierId := 8245;
     itemToCBlock := fun i => if i =? 1 then Some 1 else None |}.

(** A 16x16x16 world, stone below [y = 8]. *)
Definition w : World :=
  {| getSize := (16, 16, 16);
     getBlockId := fun x y z => if y <? 8 then 1 else 0;
     fileName := "main";
     spawnPoint := {| sp_x := 8; sp_y := 9; sp_z := 8;
                      sp_yaw := 0; sp_pitch := 0 |};
     players := [] |}.

Definition e : Entity :=
  {| numId := 0; username := "steve"; position := (8, 9, 8)%float;
     yaw := 64; pitch := 0 |}.

Definition p : Player :=
  {| entity := e; uuid := "steve"; client := "Minecraft 1.19";
     service := "Minecraft"; world := w; isConnected := true |}.

(** A collaborator that accepts every action and leaves the player as is. *)
Definition pa : PlayerActions :=
  {| _action_block_break := fun p x y z => (true, p);
     _action_block_place := fun p x y z b => p;
     _action_move := fun p x y z yaw pitch => p;
     _action_chat_message := fun p t => p;
     player_disconnect := fun p => p |}.

Definition server : ServerInfo :=
  {| softwareName := "Cobblestone"; softwareVersion := "0.0.3";
     serverName := "Cobblestone";
     serverMotd := "Another Minecraft Classic server!";
     maxPlayerCount := 20 |}.

(** A connection on which no player is set yet. *)
Definition fresh : Session :=
  {| player := None; data := noPending;
     inventory := replicate 50 (Some 0); inventorySlot := 0;
     selfUuid := "00000000-0000-0000-0000-000000000001";
     ip := "127.0.0.1"; port := 25566; trace := [] |}.

(** The same connection in the world, with an empty inventory. *)
Definition s : Session := set_player (Some p) fresh.

(** ... holding item 1 (placeable) in the selected hotbar slot. *)
Definition holdingBlock : Session :=
  set_inventory (js_array_set (inventory s) 36 1) s.

(** ... holding item 5 (no block) in the selected hotbar slot. *)
Definition holdingItem : Session :=
  set_inventory (js_array_set (inventory s) 36 5) s.

(** ... after a start-dig at [(5, 10, 5)] received at time 1000. *)
Definition digging : Session :=
  run (playPackets_0x1c tm pa 1000 0 (5, 10, 5)) s.

(** The case mappings on ASCII text. *)
Definition asciiCase : CaseMapping :=
  {| js_toLowerCase := toLowerCase; js_toUpperCase := toUpperCase |}.

(** A server whose [authenticatePlayer] denies everyone. *)
Definition denying : Server.Collaborators :=
  {| Server.authenticatePlayer := fun d =>
       {| Server.auth := d; Server.allow := false |};
     Server.newPlayer := fun _ _ _ _ => p;
     Server.changeWorld := fun _ c => c;
     Server.getDisplayName := fun q => username q;
     Server.once := fun c => Normal c |}.

(** A connection just accepted. *)
Definition conn : ConnectionHandler.t :=
  {| ConnectionHandler.ip := "127.0.0.1"; ConnectionHandler.port := 25565;
     ConnectionHandler._server := false;
     ConnectionHandler.state := ConnectionHandler.Connected;
     ConnectionHandler.writable := true;
     ConnectionHandler.sent := [] |}.

Definition srv : Server.t :=
  {| Server.players := ∅; Server.messages := ∅; Server.log := [] |}.

Definition info : Server.PlayerInfo :=
  {| Server.info_username := "Steve"; Server.info_key := "" |}.

End Sample.

(* ===================================================================== *)
(** * The handler table, and more of the packet catalog *)
(* ===================================================================== *)

(** A serverbound play packet with its fields read: one constructor per
    entry of the [playPackets] table.  The handlers read the fields
    themselves, from the packet reader ([packet.ts], not among the
    sources), and a read fails on a packet that is too short; what is said
    of [playPackets] below is said of a packet whose reads have
    succeeded. *)
Inductive Serverbound :=
| Command (text : string)                                 (* 0x03 *)
| Chat (text : string)                                    (* 0x04 *)
| Interact                                                (* 0x0f *)
| SetPosition (x y z : float)                             (* 0x13 *)
| SetPositionRotation (x y z yaw pitch : float)           (* 0x14 *)
| SetRotation (yaw pitch : float)                         (* 0x15 *)
| PlayerAction (status : Z) (pos : XYZ)                   (* 0x1c *)
| SetHeldItem (slot : Z)                                  (* 0x27 *)
| SetCreativeSlot (slot : Z) (present : bool) (id : Z)    (* 0x2a *)
| UseItemOn (pos : XYZ) (faceId sequence : Z).            (* 0x30 *)

Definition opcode (p : Serverbound) : Z :=
  match p with
  | Command _ => 0x03
  | Chat _ => 0x04
  | Interact => 0x0f
  | SetPosition _ _ _ => 0x13
  | SetPositionRotation _ _ _ _ _ => 0x14
  | SetRotation _ _ => 0x15
  | PlayerAction _ _ => 0x1c
  | SetHeldItem _ => 0x27
  | SetCreativeSlot _ _ _ => 0x2a
  | UseItemOn _ _ _ => 0x30
  end.

(** [playPackets[opcode](handler, data)], at time [now]. *)
Definition playPackets (tm : TranslationMap) (pa : PlayerActions) (now : Z)
    (p : Serverbound) : M unit :=
  match p with
  | Command text => playPackets_0x03 pa text
  | Chat text => playPackets_0x04 pa text
  | Interact => playPackets_0x0f
  | SetPosition x y z => playPackets_0x13 pa x y z
  | SetPositionRotation x y z yaw pitch => playPackets_0x14 pa x y z yaw pitch
  | SetRotation yaw pitch => playPackets_0x15 pa yaw pitch
  | PlayerAction status pos => playPackets_0x1c tm pa now status pos
  | SetHeldItem slot => playPackets_0x27 slot
  | SetCreativeSlot slot present id => playPackets_0x2a slot present id
  | UseItemOn pos faceId sequence => playPackets_0x30 tm pa pos faceId sequence
  end.

(** An event that is a packet handed to [handler.send]. *)
Definition isSent (e : Event) : bool :=
  match e with
  | Sent _ => true
  | _ => false
  end.

(** The session [s] with the events [pre] before its own. *)
Definition prepend (pre : list Event) (s : Session) : Session :=
  {| player := player s; data := data s; inventory := inventory s;
     inventorySlot := inventorySlot s; selfUuid := selfUuid s;
     ip := ip s; port := port s; trace := pre ++ trace s |}.

(** The flags byte of [packet.abilities]. *)
Definition abilities_flags (invulnerable flying canFly instaBreak : bool) : Z :=
  let flags := 0 in
  let flags := if invulnerable then Z.lor flags 0x1 else flags in
  let flags := if flying then Z.lor flags 0x2 else flags in
  let flags := if canFly then Z.lor flags 0x4 else flags in
  let flags := if instaBreak then Z.lor flags 0x8 else flags in
  flags.

(** Text of ASCII characters only: there the bytes of the model's strings
    and the UTF-16 code units that the language counts are the same. *)
Definition isAscii (s : string) : bool :=
  forallb (fun c => (nat_of_ascii c <? 128)%nat) (list_ascii_of_string s).

(** The name [packet.playerListAdd] writes,
    [player.username.substring(0, Math.min(16, player.username.length))],
    for an ASCII user name ([substring] and [length] count code units). *)
Definition playerListName (e : Entity) : string :=
  substring 0 (Nat.min 16 (String.length (username e))) (username e).

(** The tags of [libs/nbt] that [createDimType] builds. *)
Module nbt.

Inductive Tag :=
| Byte (value : Z)
| Int (value : Z)
| Float (value : float)
| String (value : string).

End nbt.

(** [createDimType(world)]: the entries of the object literal, in order. *)
Definition createDimType (w : World) : list (string * nbt.Tag) :=
  let '(sx, sy, sz) := getSize w in
  [ ("ambient_light", nbt.Float 0);
    ("bed_works", nbt.Byte 1);
    ("coordinate_scale", nbt.Int 1);
    ("effects", nbt.String "minecraft:overworld");
    ("has_ceiling", nbt.Byte 0);
    ("has_raids", nbt.Byte 0);
    ("has_skylight", nbt.Byte 1);
    ("height", nbt.Int (sy + 16));
    ("infiniburn", nbt.String "#minecraft:infiniburn_overworld");
    ("logical_height", nbt.Int sy);
    ("min_y", nbt.Int (-16));
    ("natural", nbt.Byte 0);
    ("piglin_safe", nbt.Byte 0);
    ("respawn_anchor_works", nbt.Byte 1);
    ("ultrawarm", nbt.Byte 0);
    ("monster_spawn_light_level", nbt.Int 0);
    ("monster_spawn_block_light_limit", nbt.Int 0) ].

(** [obj[key]] on the entries of an object literal. *)
Fixpoint entry {A} (key : string) (obj : list (string * A)) : option A :=
  match obj with
  | [] => None
  | (k, v) :: r => if String.eqb k key then Some v else entry key r
  end.

(** The spawn packets [sendWorld] sends for the players of the world. *)
Definition spawnedIds (tr : list Event) : list Z :=
  omap (fun e => match e with
                 | Sent (packet.spawnPlayer q) => Some (numId q)
                 | _ => None
                 end) tr.

(** The session [s] with nothing in its trace yet. *)
Definition fresh_trace (s : Session) : Session :=
  {| player := player s; data := data s; inventory := inventory s;
     inventorySlot := inventorySlot s; selfUuid := selfUuid s;
     ip := ip s; port := port s; trace := [] |}.

(** What [sendWorld] sends before the chunk stream ... *)
Definition joinHeader (server : ServerInfo) (p : Player) (w : World)
  : list Event :=
  let '(sx, sy, sz) := getSize w in
  [ Sent (joinGame server p w);
    Sent (respawn w);
    Sent (packet.updateViewDistance (viewDistance sx sz));
    Sent (packet.updateTickDistance (viewDistance sx sz));
    Sent (packet.updateViewPos (inject_Z sx / 32) (inject_Z sz / 32)) ].

(** ... for the players already in the world ... *)
Definition joinSpawns (p : Player) (w : World) : list Event :=
  flat_map (fun e => if numId e =? numId p then []
                     else [Sent (packet.playerListAdd e None);
                           Sent (packet.spawnPlayer e)])
           (players w).

(** ... and to finish the join. *)
Definition joinFooter (p : Player) (w : World) (self : string) : list Event :=
  [ Sent (packet.playerListAdd p (Some self));
    Sent (packet.teleport (numId p) (sp_x (spawnPoint w)) (sp_y (spawnPoint w))
            (sp_z (spawnPoint w)) (js_rem (sp_yaw (spawnPoint w) + 128) 256)
            (sp_pitch (spawnPoint w)) false);
    Sent (packet.rotateHead (numId p) (js_rem (sp_yaw (spawnPoint w) + 128) 256));
    Sent (packet.abilities true false false true
            0x1.999999999999ap-5 0x1.999999999999ap-4) ].

(* ===================================================================== *)
(** * More of [Server]: commands and worlds *)
(* ===================================================================== *)

(** [s.includes(pat)]. *)
Fixpoint includes (pat s : string) : bool :=
  String.prefix pat s ||
  match s with
  | EmptyString => false
  | String _ r => includes pat r
  end.

(** [s.split(' ')[0]]: the text before the first space. *)
Fixpoint firstWord (s : string) : string :=
  match s with
  | EmptyString => EmptyString
  | String c r => if Ascii.eqb c " "%char then EmptyString else String c (firstWord r)
  end.

(** [s.replace(' ', '_')]: a string pattern replaces its first occurrence
    only. *)
Fixpoint replaceFirstSpace (s : string) : string :=
  match s with
  | EmptyString => EmptyString
  | String c r =>
      if Ascii.eqb c " "%char then String "_"%char r
      else String c (replaceFirstSpace r)
  end.

(** The property names every object inherits from [Object.prototype].  A
    [Holder] is modelled by its own properties, as a [gmap]; what is said
    about a key below is said for keys that are none of these. *)
Definition objectPrototypeKeys : list string :=
  [ "constructor"; "__defineGetter__"; "__defineSetter__"; "hasOwnProperty";
    "__lookupGetter__"; "__lookupSetter__"; "isPrototypeOf";
    "propertyIsEnumerable"; "toString"; "valueOf"; "__proto__";
    "toLocaleString" ]%string.

Definition ownKey (k : string) : bool :=
  negb (existsb (String.eqb k) objectPrototypeKeys).

Module ServerCommands.

(** [Command] ([core/types.ts]) is not among the sources: a command has a
    [name], and its [execute] is behind the record of its runs. *)
Record Command := {
  name : string;
  handle : Z;
}.

(** [_commands], and the [execute] calls made so far, each with the
    command line it was given. *)
Record t := {
  _commands : gmap string Command;
  executed : list (Command * string);
}.

(** [addCommand(command)]. *)
Definition addCommand (command : Command) (srv : t) : bool * t :=
  if includes " " (name command) then (false, srv)
  else (true, {| _commands := <[name command := command]> (_commands srv);
                 executed := executed srv |}).

(** [getCommand(command)]. *)
Definition getCommand (command : string) (srv : t) : option Command :=
  _commands srv !! command.

(** [executeCommand(command)]. *)
Definition executeCommand (command : string) (srv : t) : bool * t :=
  match _commands srv !! firstWord command with
  | Some c => (true, {| _commands := _commands srv;
                        executed := executed srv ++ [(c, command)] |})
  | None => (false, srv)
  end.

End ServerCommands.

Module ServerWorlds.

(** The data a world is created from ([WorldData]). *)
Record WorldData := {
  data_name : string;
  data_size : XYZ;
  data_generator : string * string;          (* software, type *)
  data_createdBy : string * string;          (* service, username *)
  data_spawnPoint : Q * Q * Q;
}.

(** [WorldGenerator]: its [name]; [generate] is a collaborator. *)
Record Generator := {
  generator_name : string;
}.

Inductive FileOp :=
| GetWorld (name : string)                   (* files.getWorld(name) *)
| SaveWorld (name : string).                 (* files.saveWorld(name, world) *)

Section Worlds.

(** The world objects ([core/world/world.ts], not among the sources). *)
Variable W : Type.

(** The collaborators: the [World] class, the generators and the file
    helper.  [settleSpawn] is the assignment of [getHighestBlock] to the
    spawn point.  [None] from [files_getWorld] is [null]; a [Throw] is an
    exception, which [loadWorld] and [createWorld] catch and [saveWorld]
    and [unloadWorld] let through. *)
Record Collaborators := {
  newWorld : string -> WorldData -> Completion W;
  worldName : W -> string;
  generate : Generator -> W -> Completion W;
  settleSpawn : W -> Completion W;
  files_getWorld : string -> Completion (option WorldData);
  files_saveWorld : string -> W -> Completion bool;
}.

(** [worlds], [config.defaultWorldName], and what went to the file helper
    and to [logger.error]. *)
Record t := {
  worlds : gmap string W;
  defaultWorldName : string;
  fileOps : list FileOp;
  errors : list string;
}.

Definition set_worlds (ws : gmap string W) (srv : t) : t :=
  {| worlds := ws; defaultWorldName := defaultWorldName srv;
     fileOps := fileOps srv; errors := errors srv |}.

Definition fileOp (op : FileOp) (srv : t) : t :=
  {| worlds := worlds srv; defaultWorldName := defaultWorldName srv;
     fileOps := fileOps srv ++ [op]; errors := errors srv |}.

Definition logError (lines : list string) (srv : t) : t :=
  {| worlds := worlds srv; defaultWorldName := defaultWorldName srv;
     fileOps := fileOps srv; errors := errors srv ++ lines |}.

Variable js : CaseMapping.
Variable co : Collaborators.

(** [saveWorld(world)]. *)
Definition saveWorld (world : W) (srv : t) : Completion bool * t :=
  (files_saveWorld co (worldName co world) world,
   fileOp (SaveWorld (worldName co world)) srv).

(** [loadWorld(name)]. *)
Definition loadWorld (name : string) (srv : t) : option W * t :=
  match worlds srv !! name with
  | Some world => (Some world, srv)
  | None =>
      let srv := fileOp (GetWorld name) srv in
      match files_getWorld co name with
      | Normal (Some data) =>
          match newWorld co name data with
          | Normal world => (Some world, set_worlds (<[name := world]> (worlds srv)) srv)
          | Throw e =>
              (None, logError ["Couldn't load world " +:+ name +:+ "!"; e] srv)
          end
      | Normal None => (None, srv)
      | Throw e =>
          (None, logError ["Couldn't load world " +:+ name +:+ "!"; e] srv)
      end
  end.

(** [unloadWorld(name)]. *)
Definition unloadWorld (name : string) (srv : t) : Completion bool * t :=
  if String.eqb (defaultWorldName srv) name then (Normal false, srv)
  else
    match worlds srv !! name with
    | None => (Normal true, srv)
    | Some world =>
        let '(x, srv) := saveWorld world srv in
        match x with
        | Normal true => (x, set_worlds (delete name (worlds srv)) srv)
        | _ => (x, srv)
        end
    end.

(** The first line [createWorld] logs when it fails. *)
Definition createWorld_error (name : string) (size : XYZ)
    (generator : option Generator) (seed : option Z)
    (player : option (string * string)) : string :=
  let '(sx, sy, sz) := size in
  "Couldn't create world " +:+ name
  +:+ " (size: " +:+ pretty sx +:+ "," +:+ pretty sy +:+ "," +:+ pretty sz
  +:+ ", generator: " +:+ default "undefined" (generator_name <$> generator)
  +:+ ", seed: " +:+ pretty (default 0 seed)
  +:+ ", player: " +:+ default "null" (snd <$> player) +:+ ")!".

(** [createWorld(name, size, generator, seed, player)].  [generator] is
    [None] when the caller passes [undefined] (an unknown generator name),
    and reading its [name] is then a [TypeError]; [player] is the
    [service] and the [username] of the optional player. *)
Definition createWorld (softwareName : string) (name : string) (size : XYZ)
    (generator : option Generator) (seed : option Z)
    (player : option (string * string)) (srv : t) : option W * t :=
  let failed e srv :=
    (None, logError [createWorld_error name size generator seed player; e] srv) in
  match worlds srv !! name with
  | Some world => (Some world, srv)
  | None =>
      match generator with
      | None => failed "TypeError" srv
      | Some g =>
          let '(sx, sy, sz) := size in
          match
            newWorld co (replaceFirstSpace (js_toLowerCase js name))
              {| data_name := name;
                 data_size := size;
                 data_generator := (softwareName, generator_name g);
                 data_createdBy :=
                   (default "Unknown" (fst <$> player),
                    default (softwareName +:+ " - " +:+ generator_name g)
                            (fst <$> player));
                 data_spawnPoint :=
                   (inject_Z sx / 2, inject_Z sy / 2 + 20, inject_Z sz / 2)%Q |}
          with
          | Throw e => failed e srv
          | Normal world =>
              match generate co g world with
              | Throw e => failed e srv
              | Normal world =>
                  match settleSpawn co world with
                  | Throw e => failed e srv
                  | Normal world =>
                      let srv := set_worlds (<[name := world]> (worlds srv)) srv in
                      let '(x, srv) := saveWorld world srv in
                      match x with
                      | Throw e => failed e srv
                      | Normal _ => (Some world, srv)
                      end
                  end
              end
          end
      end
  end.

End Worlds.

Arguments worlds {W} _.
Arguments defaultWorldName {W} _.
Arguments fileOps {W} _.
Arguments errors {W} _.
Arguments newWorld {W} _ _ _.
Arguments worldName {W} _ _.
Arguments generate {W} _ _ _.
Arguments settleSpawn {W} _ _.
Arguments files_getWorld {W} _ _.
Arguments files_saveWorld {W} _ _ _.
Arguments saveWorld {W} _ _ _.
Arguments loadWorld {W} _ _ _.
Arguments unloadWorld {W} _ _ _.
Arguments createWorld {W} _ _ _ _ _ _ _ _ _.

End ServerWorlds.

(* ===================================================================== *)
(** * [Server.formatDate] *)
(* ===================================================================== *)

(** [addZero(n)]. *)
Definition addZero (n : Z) : string :=
  if n >? 9 then pretty n else "0" +:+ pretty n.

(** What [formatDate] reads of a [Date]: [getMonth()] counts the months
    from 0 and [getDay()] is the day of the week, from 0. *)
Record JsDate := {
  getFullYear : Z;
  getMonth : Z;
  getDay : Z;
  getHours : Z;
  getMinutes : Z;
  getSeconds : Z;
}.

(** [Server.formatDate(date, showTime)] for a [Date]. *)
Definition formatDate (date : JsDate) (showTime : bool) : string :=
  (pretty (getFullYear date) +:+ "-" +:+ addZero (getMonth date) +:+ "-"
   +:+ addZero (getDay date))
  +:+ (if showTime
       then "-" +:+ addZero (getHours date) +:+ "-" +:+ addZero (getMinutes date)
            +:+ "-" +:+ addZero (getSeconds date)
       else "").

(** Reading an unsigned decimal numeral. *)
Fixpoint readDigits (acc : Z) (s : string) : option Z :=
  match s with
  | EmptyString => Some acc
  | String c r =>
      let n := Z.of_nat (nat_of_ascii c) in
      if (48 <=? n) && (n <=? 57) then readDigits (10 * acc + (n - 48)) r
      else None
  end.

Definition readDecimal (s : string) : option Z :=
  match s with
  | EmptyString => None
  | _ => readDigits 0 s
  end.

(* ===================================================================== *)
(** * More concrete instances *)
(* ===================================================================== *)

Module SampleServer.

Definition help : ServerCommands.Command :=
  {| ServerCommands.name := "help"; ServerCommands.handle := 1 |}.

Definition twoWords : ServerCommands.Command :=
  {| ServerCommands.name := "two words"; ServerCommands.handle := 2 |}.

Definition commands : ServerCommands.t :=
  {| ServerCommands._commands := ∅; ServerCommands.executed := [] |}.

(** World objects that are just their names; the files hold the world
    "saved" and nothing else, and every save succeeds. *)
Definition co : ServerWorlds.Collaborators string :=
  {| ServerWorlds.newWorld := fun fileName data => Normal (ServerWorlds.data_name data);
     ServerWorlds.worldName := fun w => w;
     ServerWorlds.generate := fun g w => Normal w;
     ServerWorlds.settleSpawn := fun w => Normal w;
     ServerWorlds.files_getWorld := fun n =>
       if String.eqb n "saved"
       then Normal (Some {| ServerWorlds.data_name := "saved";
                            ServerWorlds.data_size := (16, 16, 16);
                            ServerWorlds.data_generator := ("Cobblestone", "grasslands");
                            ServerWorlds.data_createdBy := ("Unknown", "Cobblestone - grasslands");
                            ServerWorlds.data_spawnPoint := (8, 28, 8)%Q |})
       else Normal None;
     ServerWorlds.files_saveWorld := fun n w => Normal true |}.

Definition worlds : ServerWorlds.t string :=
  {| ServerWorlds.worlds := {[ "main" := "main" ]};
     ServerWorlds.defaultWorldName := "main";
     ServerWorlds.fileOps := [];
     ServerWorlds.errors := [] |}.

(** The same server with a second world loaded. *)
Definition twoWorlds : ServerWorlds.t string :=
  {| ServerWorlds.worlds := {[ "main" := "main"; "lobby" := "lobby" ]};
     ServerWorlds.defaultWorldName := "main";
     ServerWorlds.fileOps := [];
     ServerWorlds.errors := [] |}.

Definition flat : ServerWorlds.Generator :=
  {| ServerWorlds.generator_name := "flat" |}.

(** Files that cannot be written: every save throws. *)
Definition readOnly : ServerWorlds.Collaborators string :=
  {| ServerWorlds.newWorld := ServerWorlds.newWorld co;
     ServerWorlds.worldName := ServerWorlds.worldName co;
     ServerWorlds.generate := ServerWorlds.generate co;
     ServerWorlds.settleSpawn := ServerWorlds.settleSpawn co;
     ServerWorlds.files_getWorld := ServerWorlds.files_getWorld co;
     ServerWorlds.files_saveWorld := fun n w => Throw "EROFS" |}.

(** Two players besides [Sample.p], and a world that lists all three. *)
Definition alex : Entity :=
  {| numId := 5; username := "alex"; position := (1, 9, 1)%float;
     yaw := 0; pitch := 0 |}.

Definition notch : Entity :=
  {| numId := 3; username := "a_name_of_more_than_16_characters";
     position := (2, 9, 2)%float; yaw := 0; pitch := 0 |}.

Definition crowded : World :=
  {| getSize := (16, 16, 16);
     getBlockId := getBlockId Sample.w;
     fileName := "main";
     spawnPoint := spawnPoint Sample.w;
     players := [alex; Sample.e; notch] |}.

(** The base server: everyone is admitted. *)
Definition admitting : Server.Collaborators :=
  {| Server.authenticatePlayer := Server.authenticatePlayer_base;
     Server.newPlayer := fun id name cl svc =>
       {| entity := {| numId := 1; username := name; position := (8, 9, 8)%float;
                       yaw := 0; pitch := 0 |};
          uuid := id; client := cl; service := svc;
          world := Sample.w; isConnected := true |};
     Server.changeWorld := fun _ c => c;
     Server.getDisplayName := fun q => username q;
     Server.once := fun c => Normal c |}.

(** A server with the default join message. *)
Definition srv : Server.t :=
  {| Server.players := ∅;
     Server.messages := {[ "join" := "&e$PLAYER joined the game" ]};
     Server.log := [] |}.

(** Sunday 5 January 2025, 03:04:09. *)
Definition date : JsDate :=
  {| getFullYear := 2025; getMonth := 0; getDay := 0;
     getHours := 3; getMinutes := 4; getSeconds := 9 |}.

End SampleServer.

(* ===================================================================== *)
(** * Properties of the packet handlers *)
(* ===================================================================== *)

Ltac handler_unfold :=
  unfold run, with_player, call_player, send, bind, get, modify, ret, throw.

Section HandlerFacts.

Variable tm : TranslationMap.
Variable pa : PlayerActions.

(** ** Player Action, finish-dig *)

Lemma finish_dig_clears now pos s :
  data (run (playPackets_0x1c tm pa now 2 pos) s) = noPending.
Proof.
  destruct pos as [[x y] z]. unfold playPackets_0x1c. handler_unfold.
  destruct (player s) as [p|]; [destruct (isInBounds (world p) x y z)|];
    try reflexivity.
  destruct (_action_block_break pa p x y z) as [[] p']; reflexivity.
Qed.

(** C2. A finish-dig (status 2) at a position outside the bounds of the
    player's world sends exactly one packet, the set-block packet that puts
    the boundary block state at that position, records no call of the
    block-break collaborator, and leaves the player object alone; and
    after a finish-dig, in bounds or not, no delayed action is pending. *)
Theorem finish_dig_out_of_bounds now x y z s :
  (forall p, player s = Some p -> isInBounds (world p) x y z = false) ->
  let s' := run (playPackets_0x1c tm pa now 2 (x, y, z)) s in
  trace s' = trace s ++ [Sent (packet.setBlock x y z (barrierId tm))]
  /\ (forall a b c, In (BlockBreak a b c) (trace s') ->
                    In (BlockBreak a b c) (trace s))
  /\ player s' = player s
  /\ data s' = noPending
  /\ (forall pos' s0, data (run (playPackets_0x1c tm pa now 2 pos') s0) = noPending).
Proof.
  intros Hout s'. subst s'.
  assert (Hrun : playPackets_0x1c tm pa now 2 (x, y, z) s =
                 (Normal tt, set_data noPending
                    (emit (Sent (packet.setBlock x y z (barrierId tm))) s))).
  { unfold playPackets_0x1c. handler_unfold.
    destruct (player s) as [p|] eqn:Hp; [|reflexivity].
    rewrite (Hout p eq_refl). reflexivity. }
  unfold run. rewrite Hrun. cbn.
  repeat split.
  - intros a b c H. apply in_app_or in H as [H|[H|[]]]; [exact H|discriminate H].
  - intros pos' s0. apply finish_dig_clears.
Qed.

(** ** Use Item On *)

Lemma directions_at_range faceId f :
  directions_at faceId = Some f -> 0 <= faceId <= 5.
Proof.
  unfold directions_at. destruct (Z.ltb_spec faceId 0); [discriminate|].
  intros Hf. apply lookup_lt_Some in Hf. cbn in Hf. lia.
Qed.

(** C3 (amended). The direction table has the six entries -Y, +Y, -Z, +Z,
    -X, +X at face ids 0 to 5 and none elsewhere.  The handler looks at the
    held item [inventory[inventorySlot + 36]].  When the item is the number
    0 (an empty hand) it does nothing at all, and sends no
    acknowledgement.  When it is anything else, the handler acknowledges
    with the request's sequence number, after this: with a player set and
    a face id of the table, it calls block-place at the adjacent cell if
    the item maps to a block, and re-sends the server's block at the
    adjacent cell if it maps to none; with no player set, nothing. *)
Theorem use_item_on_spec x y z faceId sequence s :
  (directions_at 0 = Some (0, -1, 0) /\ directions_at 1 = Some (0, 1, 0) /\
   directions_at 2 = Some (0, 0, -1) /\ directions_at 3 = Some (0, 0, 1) /\
   directions_at 4 = Some (-1, 0, 0) /\ directions_at 5 = Some (1, 0, 0) /\
   forall f d, directions_at f = Some d -> 0 <= f <= 5) /\
  let item := js_array_get (inventory s) (inventorySlot s + 36) in
  let r := playPackets_0x30 tm pa (x, y, z) faceId sequence s in
  (item = Some 0 -> r = (Normal tt, s)) /\
  (item <> Some 0 ->
     (player s = None ->
        r = (Normal tt, emit (Sent (packet.acknowledgeBlockChange sequence)) s))
     /\
     (forall p fx fy fz,
        player s = Some p ->
        directions_at faceId = Some (fx, fy, fz) ->
        fst r = Normal tt /\
        match item ≫= itemToCBlock tm with
        | Some block =>
            trace (snd r) = trace s ++
              [BlockPlace (x + fx) (y + fy) (z + fz) block;
               Sent (packet.acknowledgeBlockChange sequence)]
            /\ player (snd r) =
               Some (_action_block_place pa p (x + fx) (y + fy) (z + fz) block)
        | None =>
            trace (snd r) = trace s ++
              [Sent (packet.setBlock (x + fx) (y + fy) (z + fz)
                       (blockStateOrZero tm
                          (getBlockId (world p) (x + fx) (y + fy) (z + fz))));
               Sent (packet.acknowledgeBlockChange sequence)]
            /\ player (snd r) = Some p
        end)).
Proof.
  split.
  { repeat (split; [reflexivity|]). intros f d Hf.
    apply (directions_at_range _ _ Hf). }
  intros item r. subst item r.
  unfold playPackets_0x30, face_of, setBlock. handler_unfold.
  destruct (js_array_get (inventory s) (inventorySlot s + 36)) as [i|] eqn:Hi.
  - split.
    + intros [= ->]. reflexivity.
    + intros Hne.
      assert (Hnz : item_nonzero (Some i) = true).
      { destruct i; try reflexivity. congruence. }
      rewrite Hnz. cbn [mbind option_bind]. split.
      * intros Hp. destruct (itemToCBlock tm i); rewrite Hp; reflexivity.
      * intros p fx fy fz Hp Hf.
        destruct (itemToCBlock tm i) as [block|];
          rewrite Hp, Hf; cbn; rewrite <- !app_assoc; auto.
  - split; [discriminate|]. intros _.
    cbn [item_nonzero mbind option_bind]. split.
    + intros Hp. rewrite Hp. reflexivity.
    + intros p fx fy fz Hp Hf. rewrite Hp, Hf. cbn.
      rewrite <- !app_assoc; auto.
Qed.

(** ** The tick and the delayed action *)

Lemma tick_idle now s :
  data s = noPending ->
  tick tm pa now s =
    (Normal tt, if Z.rem now 2 =? 0 then emit (Sent (packet.keepAlive now)) s else s).
Proof.
  intros Hd. unfold tick. handler_unfold.
  destruct (Z.rem now 2 =? 0); cbn; rewrite Hd; reflexivity.
Qed.

Lemma ticks_idle nows : forall s,
  data s = noPending ->
  trace (ticks tm pa nows s) = trace s ++ keepAlives nows
  /\ data (ticks tm pa nows s) = noPending
  /\ player (ticks tm pa nows s) = player s.
Proof.
  induction nows as [|now r IH]; intros s Hd; cbn [ticks].
  - unfold keepAlives. cbn. rewrite app_nil_r. auto.
  - unfold run. rewrite (tick_idle now s Hd). cbn [snd].
    unfold keepAlives. destruct (Z.eqb_spec (Z.rem now 2) 0) as [He|He].
    + rewrite filter_cons_True by exact He. cbn [map].
      destruct (IH (emit (Sent (packet.keepAlive now)) s) Hd) as (Ht & Hd' & Hp).
      rewrite Ht, Hd', Hp. cbn. rewrite <- app_assoc. auto.
    + rewrite filter_cons_False by exact He. apply IH, Hd.
Qed.

(** C4. When a delayed action [(minePos, mineTime)] is pending and older
    than 200 ms at the tick, the tick does, after its keep-alive, exactly
    what the finish-dig handler does for [minePos] on the same session
    (the in-bounds break attempt with its world-event packet on success,
    the boundary set-block packet out of bounds), leaves no action
    pending, and every later tick only sends keep-alives: the break is
    resolved once.  [mineTime] is a [Date.now()] reading, hence not 0. *)
Theorem tick_resolves_like_finish_dig now pos t s :
  minePos (data s) = Some pos ->
  mineTime (data s) = Some t ->
  t <> 0 ->
  now - t > 200 ->
  tick tm pa now s =
    ((if Z.rem now 2 =? 0 then send (packet.keepAlive now) else ret tt) ;;;
     playPackets_0x1c tm pa now 2 pos) s
  /\ data (run (tick tm pa now) s) = noPending
  /\ forall nows,
       trace (ticks tm pa nows (run (tick tm pa now) s)) =
         trace (run (tick tm pa now) s) ++ keepAlives nows
       /\ data (ticks tm pa nows (run (tick tm pa now) s)) = noPending
       /\ player (ticks tm pa nows (run (tick tm pa now) s)) =
          player (run (tick tm pa now) s).
Proof.
  intros Hpos Ht Hnz Hage.
  assert (Hcond : negb (t =? 0) && (now - t >? 200) = true).
  { apply andb_true_intro. split.
    - apply negb_true_iff, Z.eqb_neq, Hnz.
    - apply Z.gtb_lt. lia. }
  assert (Heq : tick tm pa now s =
    ((if Z.rem now 2 =? 0 then send (packet.keepAlive now) else ret tt) ;;;
     playPackets_0x1c tm pa now 2 pos) s).
  { destruct pos as [[x y] z]. unfold tick, playPackets_0x1c. handler_unfold.
    destruct (Z.rem now 2 =? 0); cbn; rewrite Hpos, Ht, Hcond; reflexivity. }
  assert (Hclear : data (run (tick tm pa now) s) = noPending).
  { unfold run. rewrite Heq. unfold bind.
    destruct ((if Z.rem now 2 =? 0 then send (packet.keepAlive now) else ret tt) s)
      as [[[]|e] s1] eqn:Hk.
    - apply finish_dig_clears.
    - destruct (Z.rem now 2 =? 0); discriminate Hk. }
  split; [exact Heq|]. split; [exact Hclear|].
  intros nows. apply ticks_idle, Hclear.
Qed.

(** ** Movement *)

(** C5. Position-and-rotation ([0x14]) and rotation-only ([0x15]) packets
    forward to the movement collaborator the yaw
    [((yaw + 180) % 360) / 360 * 256] and the pitch [pitch / 360 * 256],
    computed on doubles with JavaScript's remainder (the sign of the
    dividend). *)
Theorem movement_rotation_renormalized x y z dyaw dpitch s p :
  player s = Some p ->
  let yaw' := (js_rem (dyaw + 180) 360 / 360 * 256)%float in
  let pitch' := (dpitch / 360 * 256)%float in
  (trace (run (playPackets_0x14 pa x y z dyaw dpitch) s) =
     trace s ++ [Move x y z yaw' pitch']
   /\ player (run (playPackets_0x14 pa x y z dyaw dpitch) s) =
      Some (_action_move pa p x y z yaw' pitch'))
  /\ (exists px py pz,
        trace (run (playPackets_0x15 pa dyaw dpitch) s) =
          trace s ++ [Move px py pz yaw' pitch']
        /\ player (run (playPackets_0x15 pa dyaw dpitch) s) =
           Some (_action_move pa p px py pz yaw' pitch')).
Proof.
  intros Hp yaw' pitch'. subst yaw' pitch'. split.
  - unfold playPackets_0x14. handler_unfold. rewrite Hp. cbn. auto.
  - destruct (position p) as [[px py] pz] eqn:Hpos. exists px, py, pz.
    unfold playPackets_0x15. handler_unfold. rewrite Hp, Hpos. cbn. auto.
Qed.

(** C10. A position-only packet ([0x13]) forwards the player's current yaw
    and pitch; a rotation-only packet ([0x15]) forwards the player's
    current position. *)
Theorem movement_frames x y z dyaw dpitch s p :
  player s = Some p ->
  trace (run (playPackets_0x13 pa x y z) s) =
    trace s ++ [Move x y z (yaw p) (pitch p)]
  /\ player (run (playPackets_0x13 pa x y z) s) =
     Some (_action_move pa p x y z (yaw p) (pitch p))
  /\ exists yaw' pitch',
       trace (run (playPackets_0x15 pa dyaw dpitch) s) =
         trace s ++ [Move (position p).1.1 (position p).1.2 (position p).2
                          yaw' pitch']
       /\ player (run (playPackets_0x15 pa dyaw dpitch) s) =
          Some (_action_move pa p (position p).1.1 (position p).1.2
                  (position p).2 yaw' pitch').
Proof.
  intros Hp. split; [|split].
  - unfold playPackets_0x13. handler_unfold. rewrite Hp. reflexivity.
  - unfold playPackets_0x13. handler_unfold. rewrite Hp. reflexivity.
  - exists (yawToProtocol dyaw), (pitchToProtocol dpitch).
    unfold playPackets_0x15. handler_unfold. rewrite Hp.
    destruct (position p) as [[px py] pz]. cbn. auto.
Qed.

End HandlerFacts.

(** ** Creative-mode slots *)

Lemma js_array_get_set_eq {A} (l : list (option A)) i v :
  0 <= i -> js_array_get (js_array_set l i v) i = Some v.
Proof.
  intros Hi. unfold js_array_get, js_array_set.
  destruct (Z.ltb_spec i 0); [lia|].
  destruct (Nat.ltb_spec (Z.to_nat i) (length l)) as [Hlt|Hge].
  - rewrite list_lookup_insert_eq by exact Hlt. reflexivity.
  - rewrite lookup_app_r by lia.
    rewrite lookup_app_r by (rewrite length_replicate; lia).
    rewrite length_replicate.
    replace (Z.to_nat i - length l - (Z.to_nat i - length l))%nat with 0%nat by lia.
    reflexivity.
Qed.

Lemma js_array_get_set_ne {A} (l : list (option A)) i j v :
  0 <= i -> j <> i -> js_array_get (js_array_set l i v) j = js_array_get l j.
Proof.
  intros Hi Hne. unfold js_array_get, js_array_set.
  destruct (Z.ltb_spec j 0); [reflexivity|].
  assert (Hn : Z.to_nat i <> Z.to_nat j) by lia.
  destruct (Nat.ltb_spec (Z.to_nat i) (length l)) as [Hlt|Hge].
  - rewrite list_lookup_insert_ne by exact Hn. reflexivity.
  - destruct (Nat.lt_ge_cases (Z.to_nat j) (length l)) as [Hj|Hj].
    + rewrite lookup_app_l by exact Hj. reflexivity.
    + rewrite lookup_app_r by exact Hj.
      rewrite (lookup_ge_None_2 l) by exact Hj.
      destruct (Nat.lt_ge_cases (Z.to_nat j - length l) (Z.to_nat i - length l))
        as [Hk|Hk].
      * rewrite lookup_app_l by (rewrite length_replicate; exact Hk).
        rewrite lookup_replicate_2 by exact Hk. reflexivity.
      * rewrite lookup_app_r by (rewrite length_replicate; exact Hk).
        rewrite length_replicate.
        rewrite lookup_ge_None_2; [reflexivity|]. cbn. lia.
Qed.

(** C9. A set-creative-mode-slot packet with a slot in [0, 50) makes that
    slot read the packet's item id when an item is present and 0 when
    absent, and changes no other slot and nothing else of the session;
    with a slot outside [0, 50) the session, inventory included, is left
    as it was. *)
Theorem creative_slot_spec slot present id s :
  (0 <= slot < 50 ->
     let s' := run (playPackets_0x2a slot present id) s in
     js_array_get (inventory s') slot = Some (if present then id else 0)
     /\ (forall j, j <> slot ->
           js_array_get (inventory s') j = js_array_get (inventory s) j)
     /\ s' = set_inventory (inventory s') s)
  /\ (~ 0 <= slot < 50 ->
        playPackets_0x2a slot present id s = (Normal tt, s)).
Proof.
  unfold playPackets_0x2a, run, modify, ret. split.
  - intros [H0 H50].
    replace ((slot <? 50) && (slot >=? 0)) with true
      by (symmetry; apply andb_true_intro; split;
          [apply Z.ltb_lt | apply Z.geb_le]; lia).
    destruct present; cbn; repeat split;
      auto using js_array_get_set_eq, js_array_get_set_ne.
  - intros Hout.
    replace ((slot <? 50) && (slot >=? 0)) with false; [reflexivity|].
    symmetry. apply andb_false_iff.
    destruct (Z.ltb_spec slot 50); [right|left; reflexivity].
    rewrite Z.geb_leb. apply Z.leb_gt. lia.
Qed.

(* ===================================================================== *)
(** * Loops run to their end *)
(* ===================================================================== *)

(** An invariant rule for [for_loop]: when the condition holds exactly
    below [hi], the body keeps [P] and the fuel exceeds the number of
    rounds, the loop ends, in a state where [P hi] holds. *)
Lemma for_loop_inv {S : Type} (P : Z -> S -> Prop) cond body hi :
  (forall i, i < hi -> cond i = true) ->
  cond hi = false ->
  forall fuel lo s,
    lo <= hi ->
    (Z.to_nat (hi - lo) < fuel)%nat ->
    (forall i s, lo <= i < hi -> P i s ->
       exists s', body i s = Some s' /\ P (i + 1) s') ->
    P lo s ->
    exists s', for_loop fuel cond body lo s = Some s' /\ P hi s'.
Proof.
  intros Hlt Hhi. induction fuel as [|fuel IH]; intros lo s Hle Hfuel Hbody HP.
  - lia.
  - cbn [for_loop]. destruct (Z.eq_dec lo hi) as [->|Hne].
    + rewrite Hhi. eauto.
    + rewrite Hlt by lia.
      destruct (Hbody lo s ltac:(lia) HP) as (s1 & -> & HP1).
      apply IH; [lia|lia| |exact HP1].
      intros i s2 Hi. apply Hbody. lia.
Qed.

Lemma js_lt_spec a b : js_lt a b = true <-> (a < b)%Q.
Proof.
  unfold js_lt. rewrite negb_true_iff.
  destruct (Qle_bool b a) eqn:E.
  - apply Qle_bool_iff in E. split; [discriminate|].
    intros H. exfalso. apply (Qlt_not_le _ _ H E).
  - split; [|reflexivity]. intros _. apply Qnot_le_lt. intros H.
    apply Qle_bool_iff in H. congruence.
Qed.

(** [i < n / 16 + 1] exactly when [i <= ceil(n / 16)]. *)
Lemma column_cond i n :
  js_lt (inject_Z i) (inject_Z n / 16 + 1) = (i <? ceil16 n + 1).
Proof.
  apply eq_true_iff_eq. rewrite js_lt_spec, Z.ltb_lt.
  unfold Qlt, Qdiv, Qmult, Qinv, Qplus, inject_Z, ceil16. cbn.
  change (Z.pos (1 * 16 * 1)) with 16. change (Z.pos (1 * 16)) with 16.
  pose proof (Z.div_mod (n + 15) 16 ltac:(lia)).
  pose proof (Z.mod_pos_bound (n + 15) 16 ltac:(lia)).
  split; intros H'; lia.
Qed.

(** [i < n / 16] exactly when [i < ceil(n / 16)]. *)
Lemma section_cond i n :
  js_lt (inject_Z i) (inject_Z n / 16) = (i <? ceil16 n).
Proof.
  apply eq_true_iff_eq. rewrite js_lt_spec, Z.ltb_lt.
  unfold Qlt, Qdiv, Qmult, Qinv, inject_Z, ceil16. cbn.
  change (Z.pos (1 * 16)) with 16.
  pose proof (Z.div_mod (n + 15) 16 ltac:(lia)).
  pose proof (Z.mod_pos_bound (n + 15) 16 ltac:(lia)).
  split; intros H'; lia.
Qed.

(* ===================================================================== *)
(** * Properties of [sendWorld] *)
(* ===================================================================== *)

Lemma alter_last {A} (f : A -> A) (l : list A) (a : A) :
  alter f (length l) (l ++ [a]) = l ++ [f a].
Proof.
  induction l as [|b l IH]; [reflexivity|].
  cbn. f_equal. exact IH.
Qed.

Section SendWorldFacts.

Variable tm : TranslationMap.
Variable server : ServerInfo.

Lemma fill_cell w cx cy cz l x y z secs :
  0 <= x < 16 -> 0 <= y < 16 -> 0 <= z < 16 ->
  filledBefore tm w cx cy cz l x y z secs ->
  exists secs',
    (if isInBounds w (cx * 16 + x) (cy * 16 + y) (cz * 16 + z) then
       Some (alter (fun section =>
               ChunkSection.setBlock section x y z
                 (blockStateOrZero tm
                    (getBlockId w (cx * 16 + x) (cy * 16 + y) (cz * 16 + z))))
               (length l) secs)
     else
       Some (alter (fun section =>
               ChunkSection.setBlock section x y z (barrierId tm))
               (length l) secs)) = Some secs'
    /\ filledBefore tm w cx cy cz l x y (z + 1) secs'.
Proof.
  intros Hx Hy Hz (sec & -> & Hsec).
  exists (l ++ [ChunkSection.setBlock sec x y z
                  (cellState tm w (cx * 16 + x) (cy * 16 + y) (cz * 16 + z))]).
  split.
  - unfold cellState.
    destruct (isInBounds w (cx * 16 + x) (cy * 16 + y) (cz * 16 + z));
      rewrite alter_last; reflexivity.
  - eexists. split; [reflexivity|].
    intros a b c Ha Hb Hc Hbefore. cbn.
    destruct (Z.eqb_spec a x) as [->|Hax];
      destruct (Z.eqb_spec b y) as [->|Hby];
      destruct (Z.eqb_spec c z) as [->|Hcz]; cbn;
      try reflexivity; apply Hsec; auto; lia.
Qed.

Lemma below16 i : i < 16 -> (i <? 16) = true.
Proof. intros H. apply Z.ltb_lt, H. Qed.

(** The three cell loops fill the section just pushed, and only it. *)
Lemma fillSection_spec fuel w cx cy cz l sec0 :
  (17 <= fuel)%nat ->
  exists sec,
    fillSection tm fuel w cx cy cz (length l) (l ++ [sec0]) = Some (l ++ [sec])
    /\ forall x y z, 0 <= x < 16 -> 0 <= y < 16 -> 0 <= z < 16 ->
         ChunkSection.getBlock sec x y z =
           cellState tm w (cx * 16 + x) (cy * 16 + y) (cz * 16 + z).
Proof.
  intros Hfuel. unfold fillSection.
  destruct (for_loop_inv (fun x secs => filledBefore tm w cx cy cz l x 0 0 secs)
              (fun x => x <? 16)
              (fun x secs =>
                 for_loop fuel (fun y => y <? 16) (fun y secs =>
                   for_loop fuel (fun z => z <? 16) (fun z secs =>
                     if isInBounds w (cx * 16 + x) (cy * 16 + y) (cz * 16 + z) then
                       Some (alter (fun section =>
                         ChunkSection.setBlock section x y z
                           (blockStateOrZero tm
                              (getBlockId w (cx * 16 + x) (cy * 16 + y) (cz * 16 + z))))
                         (length l) secs)
                     else
                       Some (alter (fun section =>
                         ChunkSection.setBlock section x y z (barrierId tm))
                         (length l) secs))
                     0 secs)
                   0 secs)
              16 below16 eq_refl fuel 0 (l ++ [sec0]))
    as (secs & Hrun & sec & -> & Hsec).
  - lia.
  - cbn. lia.
  - (* one round of the x loop *)
    intros x secs Hx HP.
    destruct (for_loop_inv (fun y secs => filledBefore tm w cx cy cz l x y 0 secs)
                (fun y => y <? 16)
                (fun y secs =>
                   for_loop fuel (fun z => z <? 16) (fun z secs =>
                     if isInBounds w (cx * 16 + x) (cy * 16 + y) (cz * 16 + z) then
                       Some (alter (fun section =>
                         ChunkSection.setBlock section x y z
                           (blockStateOrZero tm
                              (getBlockId w (cx * 16 + x) (cy * 16 + y) (cz * 16 + z))))
                         (length l) secs)
                     else
                       Some (alter (fun section =>
                         ChunkSection.setBlock section x y z (barrierId tm))
                         (length l) secs))
                     0 secs)
                16 below16 eq_refl fuel 0 secs)
      as (secs1 & Hrun1 & sec1 & -> & Hsec1).
    + lia.
    + cbn. lia.
    + (* one round of the y loop *)
      intros y secs2 Hy HP2.
      destruct (for_loop_inv (fun z secs => filledBefore tm w cx cy cz l x y z secs)
                  (fun z => z <? 16)
                  (fun z secs =>
                     if isInBounds w (cx * 16 + x) (cy * 16 + y) (cz * 16 + z) then
                       Some (alter (fun section =>
                         ChunkSection.setBlock section x y z
                           (blockStateOrZero tm
                              (getBlockId w (cx * 16 + x) (cy * 16 + y) (cz * 16 + z))))
                         (length l) secs)
                     else
                       Some (alter (fun section =>
                         ChunkSection.setBlock section x y z (barrierId tm))
                         (length l) secs))
                  16 below16 eq_refl fuel 0 secs2)
        as (secs3 & Hrun3 & sec3 & -> & Hsec3).
      * lia.
      * cbn. lia.
      * intros z secs4 Hz HP4. apply fill_cell; auto.
      * exact HP2.
      * eexists. split; [exact Hrun3|].
        eexists. split; [reflexivity|].
        intros a b c Ha Hb Hc Hbefore. apply Hsec3; auto. lia.
    + exact HP.
    + eexists. split; [exact Hrun1|].
      eexists. split; [reflexivity|].
      intros a b c Ha Hb Hc Hbefore. apply Hsec1; auto. lia.
  - eexists. split; [reflexivity|]. intros a b c Ha Hb Hc Hbefore. lia.
  - exists sec. split; [exact Hrun|].
    intros x y z Hx Hy Hz. apply Hsec; auto. lia.
Qed.

(** The [cy] loop builds [ceil(height / 16) + 1] sections, bottom-up from
    the section at [cy = -1]. *)
Lemma columnSections_spec fuel w cx cz sx sy sz :
  getSize w = (sx, sy, sz) ->
  0 <= sy ->
  (17 <= fuel)%nat ->
  (Z.to_nat (ceil16 sy + 1) < fuel)%nat ->
  exists secs,
    columnSections tm fuel w cx cz = Some secs
    /\ length secs = Z.to_nat (ceil16 sy + 1)
    /\ columnFilled tm w cx cz secs.
Proof.
  intros Hsize Hsy Hfuel Hfuel'. unfold columnSections. rewrite Hsize.
  assert (Hc : 0 <= ceil16 sy) by (unfold ceil16; apply Z.div_pos; lia).
  destruct (for_loop_inv
              (fun cy secs => length secs = Z.to_nat (cy + 1)
                              /\ columnFilled tm w cx cz secs)
              (fun cy => js_lt (inject_Z cy) (inject_Z sy / 16))
              (fun cy chunkSections =>
                 fillSection tm fuel w cx cy cz (length chunkSections)
                   (chunkSections ++ [ChunkSection.new]))
              (ceil16 sy)) with (fuel := fuel) (lo := -1)
                                (s := @nil ChunkSection.t)
    as (secs & Hrun & Hlen & Hfill).
  - intros i Hi. rewrite section_cond. apply Z.ltb_lt, Hi.
  - rewrite section_cond. apply Z.ltb_irrefl.
  - lia.
  - lia.
  - intros cy secs Hcy [Hlen Hfill].
    destruct (fillSection_spec fuel w cx cy cz secs ChunkSection.new Hfuel)
      as (sec & Hrun & Hsec).
    exists (secs ++ [sec]). split; [exact Hrun|]. split.
    + rewrite length_app, Hlen. cbn. lia.
    + intros i sec' Hi x y z Hx Hy Hz.
      destruct (Nat.lt_ge_cases i (length secs)) as [Hlt|Hge].
      * rewrite lookup_app_l in Hi by exact Hlt. apply (Hfill i); auto.
      * rewrite lookup_app_r in Hi by exact Hge.
        destruct (i - length secs)%nat as [|k] eqn:Hk; [|discriminate Hi].
        injection Hi as <-.
        replace (Z.of_nat i - 1) with cy by lia. apply Hsec; auto.
  - split; [reflexivity|]. intros i sec Hi. discriminate Hi.
  - eauto.
Qed.

(** ** Columns *)

Lemma in_grid x z xs zs : In (x, z) (grid xs zs) <-> In x xs /\ In z zs.
Proof.
  unfold grid. rewrite in_flat_map. split.
  - intros (x' & Hx & Hin). apply in_map_iff in Hin as (z' & [= -> ->] & Hz). auto.
  - intros [Hx Hz]. exists x. split; [exact Hx|]. apply in_map_iff. eauto.
Qed.

Lemma NoDup_grid xs zs : NoDup xs -> NoDup zs -> NoDup (grid xs zs).
Proof.
  intros Hxs Hzs. induction Hxs as [|x xs Hx Hxs IH]; cbn; [constructor|].
  apply NoDup_app. split; [|split; [|exact IH]].
  - clear -Hzs. induction Hzs as [|z zs Hz Hzs IH]; cbn; constructor; [|exact IH].
    rewrite list_elem_of_In, in_map_iff. intros (z' & [= ->] & Hin).
    apply Hz, list_elem_of_In, Hin.
  - intros [x' z'] Hin Hin'. apply list_elem_of_In in Hin, Hin'.
    apply in_map_iff in Hin as (z'' & [= <- <-] & _).
    apply (in_grid x z'' xs zs) in Hin' as [Hin' _].
    apply Hx, list_elem_of_In, Hin'.
Qed.

Lemma grid_snoc xs x zs : grid (xs ++ [x]) zs = grid xs zs ++ map (pair x) zs.
Proof. unfold grid. rewrite flat_map_app. cbn. rewrite app_nil_r. reflexivity. Qed.

Lemma seqZ_snoc m n : 0 <= n -> seqZ m (n + 1) = seqZ m n ++ [m + n].
Proof.
  intros Hn. rewrite seqZ_app by lia. f_equal.
Qed.

Lemma emit_emits e evs s : emit e (emits evs s) = emits (evs ++ [e]) s.
Proof. unfold emit, emits. cbn. rewrite app_assoc. reflexivity. Qed.

Lemma emit_one e s : emit e s = emits [e] s.
Proof. reflexivity. Qed.

Lemma emits_nil s : emits [] s = s.
Proof. destruct s. unfold emits. cbn. rewrite app_nil_r. reflexivity. Qed.

Lemma emits_emits evs evs' s : emits evs' (emits evs s) = emits (evs ++ evs') s.
Proof. unfold emits. cbn. rewrite app_assoc. reflexivity. Qed.

Lemma chunkColumns_other evs :
  Forall (fun e => isChunkData e = false) evs -> chunkColumns evs = [].
Proof.
  induction 1 as [|e evs He _ IH]; [reflexivity|].
  unfold chunkColumns in *. cbn. rewrite IH.
  destruct e as [[]| | | | | | |]; try reflexivity; discriminate He.
Qed.

Lemma chunkSectionsOf_other cx cz evs :
  Forall (fun e => isChunkData e = false) evs -> chunkSectionsOf cx cz evs = [].
Proof.
  induction 1 as [|e evs He _ IH]; [reflexivity|].
  unfold chunkSectionsOf in *. cbn. rewrite IH.
  destruct e as [[]| | | | | | |]; try reflexivity; discriminate He.
Qed.

Lemma columnPackets_columns w sy cols evs :
  Forall2 (columnPacket tm w sy) cols evs -> chunkColumns evs = cols.
Proof.
  induction 1 as [|[cx cz] e cols evs (secs & -> & _) _ IH]; [reflexivity|].
  unfold chunkColumns in *. cbn. rewrite IH. reflexivity.
Qed.

Lemma columnPackets_absent w sy cols evs cx cz :
  Forall2 (columnPacket tm w sy) cols evs ->
  ~ In (cx, cz) cols -> chunkSectionsOf cx cz evs = [].
Proof.
  induction 1 as [|[cx' cz'] e cols evs (secs & -> & _) _ IH]; [reflexivity|].
  intros Hnot. unfold chunkSectionsOf in *. cbn.
  destruct (Z.eqb_spec cx' cx) as [->|]; destruct (Z.eqb_spec cz' cz) as [->|];
    cbn; try (apply IH; intros Hin; apply Hnot; right; exact Hin).
  exfalso. apply Hnot. left. reflexivity.
Qed.

Lemma columnPackets_sections w sy cols evs cx cz :
  Forall2 (columnPacket tm w sy) cols evs ->
  NoDup cols -> In (cx, cz) cols ->
  exists secs,
    chunkSectionsOf cx cz evs = [secs]
    /\ length secs = Z.to_nat (ceil16 sy + 1)
    /\ columnFilled tm w cx cz secs.
Proof.
  induction 1 as [|[cx' cz'] e cols evs (secs & -> & Hlen & Hfill) Hrest IH];
    intros Hnd Hin; [destruct Hin|].
  apply NoDup_cons in Hnd as [Hfresh Hnd].
  destruct Hin as [[= -> ->]|Hin].
  - exists secs. split; [|auto].
    unfold chunkSectionsOf in *. cbn. rewrite !Z.eqb_refl. cbn.
    f_equal. apply (columnPackets_absent w sy cols evs cx cz Hrest).
    intros Hin. apply Hfresh, list_elem_of_In, Hin.
  - destruct (IH Hnd Hin) as (secs' & Heq & Hprops).
    exists secs'. split; [|exact Hprops].
    unfold chunkSectionsOf in *. cbn.
    destruct (Z.eqb_spec cx' cx) as [->|]; destruct (Z.eqb_spec cz' cz) as [->|];
      cbn; try exact Heq.
    exfalso. apply Hfresh, list_elem_of_In, Hin.
Qed.

(** ** The end of the join sequence *)

Lemma forEach_sendSpawnPlayer l : forall s,
  exists tl,
    forEach sendSpawnPlayer l s = (Normal tt, emits tl s)
    /\ Forall (fun e => isChunkData e = false) tl.
Proof.
  induction l as [|e l IH]; intros s; cbn [forEach].
  - exists []. rewrite emits_nil. split; [reflexivity|constructor].
  - unfold sendSpawnPlayer at 1. handler_unfold.
    destruct (is_self e s).
    + apply IH.
    + cbn. rewrite (emit_one _ s), emit_emits. cbn [app].
      destruct (IH (emits [Sent (packet.playerListAdd e None);
                           Sent (packet.spawnPlayer e)] s)) as (tl & -> & Htl).
      eexists. rewrite emits_emits. split; [reflexivity|].
      repeat constructor. exact Htl.
Qed.

(** ** The whole join sequence *)

(** With a player set, [sendWorld] completes; what it sends is a header
    without chunk data, then the chunk-data packets of the columns of the
    bordered grid, in loop order, then a tail without chunk data. *)
Lemma sendWorld_run fuel w s p sx sy sz :
  player s = Some p ->
  getSize w = (sx, sy, sz) ->
  0 <= sx -> 0 <= sy -> 0 <= sz ->
  (sendWorld_fuel w <= fuel)%nat ->
  exists hd evs tl,
    sendWorld tm server fuel w s = Some (Normal tt, emits (hd ++ evs ++ tl) s)
    /\ Forall (fun e => isChunkData e = false) hd
    /\ Forall (fun e => isChunkData e = false) tl
    /\ Forall2 (columnPacket tm w sy)
         (grid (seqZ (-1) (ceil16 sx + 2)) (seqZ (-1) (ceil16 sz + 2))) evs.
Proof.
  intros Hp Hsize Hsx Hsy Hsz Hfuel.
  unfold sendWorld_fuel in Hfuel. rewrite Hsize in Hfuel.
  assert (Hcx : 0 <= ceil16 sx) by (unfold ceil16; apply Z.div_pos; lia).
  assert (Hcy : 0 <= ceil16 sy) by (unfold ceil16; apply Z.div_pos; lia).
  assert (Hcz : 0 <= ceil16 sz) by (unfold ceil16; apply Z.div_pos; lia).
  unfold sendWorld. rewrite Hp, Hsize. cbv zeta.
  rewrite (emit_one _ s), !emit_emits. cbn [app].
  set (hd := [Sent (joinGame server p w); Sent (respawn w);
              Sent (packet.updateViewDistance (viewDistance sx sz));
              Sent (packet.updateTickDistance (viewDistance sx sz));
              Sent (packet.updateViewPos (inject_Z sx / 32) (inject_Z sz / 32))]).
  set (zs := seqZ (-1) (ceil16 sz + 2)).
  match goal with
  | |- context [for_loop fuel ?c ?b (-1) ?s0] =>
      destruct (for_loop_inv
                  (fun cx st => exists evs, st = emits evs s0 /\
                     Forall2 (columnPacket tm w sy)
                       (grid (seqZ (-1) (cx + 1)) zs) evs)
                  c b (ceil16 sx + 1))
        with (fuel := fuel) (lo := -1) (s := s0)
        as (s2 & Hrun & evs & -> & Hevs)
  end.
  - intros i Hi. rewrite column_cond. apply Z.ltb_lt, Hi.
  - rewrite column_cond. apply Z.ltb_irrefl.
  - lia.
  - lia.
  - (* one round of the cx loop: the cz loop *)
    intros cx st Hcxr (evs & -> & Hevs).
    match goal with
    | |- context [for_loop fuel ?c ?b (-1) ?s0] =>
        destruct (for_loop_inv
                    (fun cz st => exists evs', st = emits evs' (emits hd s) /\
                       Forall2 (columnPacket tm w sy)
                         (grid (seqZ (-1) (cx + 1)) zs
                          ++ map (pair cx) (seqZ (-1) (cz + 1))) evs')
                    c b (ceil16 sz + 1))
          with (fuel := fuel) (lo := -1) (s := s0)
          as (s3 & Hrun3 & evs3 & -> & Hevs3)
    end.
    + intros i Hi. rewrite column_cond. apply Z.ltb_lt, Hi.
    + rewrite column_cond. apply Z.ltb_irrefl.
    + lia.
    + lia.
    + (* one round of the cz loop: one column *)
      intros cz st (Hcz1 & Hcz2) (evs' & -> & Hevs').
      destruct (columnSections_spec fuel w cx cz sx sy sz Hsize Hsy)
        as (secs & -> & Hlen & Hfill); [lia|lia|].
      eexists. split; [reflexivity|].
      exists (evs' ++ [Sent (packet.chunkData cx cz (Z.log2_up (sy + 2)) secs
                              (Z.of_nat (length secs) + 2))]).
      split; [apply emit_emits|].
      rewrite (seqZ_snoc (-1) (cz + 1)) by lia. rewrite map_app, app_assoc.
      apply Forall2_app; [exact Hevs'|].
      replace (-1 + (cz + 1)) with cz by lia.
      constructor; [|constructor].
      exists secs. cbn. auto.
    + exists evs. cbn. rewrite app_nil_r. auto.
    + eexists. split; [exact Hrun3|].
      exists evs3. split; [reflexivity|].
      rewrite (seqZ_snoc (-1) (cx + 1)) by lia. rewrite grid_snoc.
      replace (-1 + (cx + 1)) with cx by lia.
      replace (ceil16 sz + 1 + 1) with (ceil16 sz + 2) in Hevs3 by lia.
      exact Hevs3.
  - exists []. split; [symmetry; apply emits_nil|constructor].
  - rewrite Hrun.
    replace (ceil16 sx + 1 + 1) with (ceil16 sx + 2) in Hevs by lia.
    unfold bind at 1.
    destruct (forEach_sendSpawnPlayer (players w) (emits evs (emits hd s)))
      as (tl & -> & Htl).
    unfold sendTeleport. handler_unfold. cbn.
    rewrite !emit_one, !emits_emits.
    exists hd, evs.
    exists (tl ++
      [Sent (packet.playerListAdd p (Some (selfUuid s)));
       Sent (packet.teleport (numId p) (sp_x (spawnPoint w))
               (sp_y (spawnPoint w)) (sp_z (spawnPoint w))
               (js_rem (sp_yaw (spawnPoint w) + 128) 256)
               (sp_pitch (spawnPoint w)) false);
       Sent (packet.rotateHead (numId p)
               (js_rem (sp_yaw (spawnPoint w) + 128) 256));
       Sent (packet.abilities true false false true
               0x1.999999999999ap-5 0x1.999999999999ap-4)]).
    split; [|split; [|split; [|exact Hevs]]].
    + repeat rewrite <- app_assoc. reflexivity.
    + subst hd. unfold joinGame, respawn. rewrite Hsize. repeat constructor.
    + apply Forall_app. split; [exact Htl|]. repeat constructor.
Qed.

End SendWorldFacts.

Lemma isInBounds_below w x y z : y < 0 -> isInBounds w x y z = false.
Proof.
  intros Hy. unfold isInBounds. destruct (getSize w) as [[sx sy] sz].
  destruct (Z.leb_spec 0 y); [lia|].
  rewrite !andb_false_r. reflexivity.
Qed.

Lemma in_seqZ k m n : In k (seqZ m n) <-> m <= k < m + n.
Proof. rewrite <- list_elem_of_In. apply elem_of_seqZ. Qed.

(** C1 (amended). For a world of size [(sx, sy, sz)] and a session with a
    player, [sendWorld] completes and streams exactly one chunk-column
    packet for every column [(cx, cz)] with [cx] in [-1, ceil(sx/16)] and
    [cz] in [-1, ceil(sz/16)], and for no other column.  A column packet
    carries [ceil(sy/16) + 1] sections bottom-up: entry 0 is the extra
    section below [y = 0], all boundary, and entry [i] is the section at
    height [cy = i - 1]; every cell outside the world holds the boundary
    block state, every cell inside holds its block's state (or 0 when the
    block has none).  There is no section above the world: every section
    of the packet starts below the world's height. *)
Theorem sendWorld_streams_columns tm server fuel w s p sx sy sz :
  player s = Some p ->
  getSize w = (sx, sy, sz) ->
  0 <= sx -> 0 <= sy -> 0 <= sz ->
  (sendWorld_fuel w <= fuel)%nat ->
  exists new,
    sendWorld tm server fuel w s = Some (Normal tt, emits new s)
    /\ NoDup (chunkColumns new)
    /\ (forall cx cz, In (cx, cz) (chunkColumns new) <->
          -1 <= cx <= ceil16 sx /\ -1 <= cz <= ceil16 sz)
    /\ (forall cx cz, -1 <= cx <= ceil16 sx -> -1 <= cz <= ceil16 sz ->
          exists secs,
            chunkSectionsOf cx cz new = [secs]
            /\ length secs = Z.to_nat (ceil16 sy + 1)
            /\ (exists below, secs !! 0%nat = Some below /\ allBoundary tm below)
            /\ (forall (i : nat) sec, secs !! i = Some sec ->
                  16 * (Z.of_nat i - 1) < sy
                  /\ forall x y z, 0 <= x < 16 -> 0 <= y < 16 -> 0 <= z < 16 ->
                       ChunkSection.getBlock sec x y z =
                         if isInBounds w (cx * 16 + x)
                              ((Z.of_nat i - 1) * 16 + y) (cz * 16 + z)
                         then blockStateOrZero tm
                                (getBlockId w (cx * 16 + x)
                                   ((Z.of_nat i - 1) * 16 + y) (cz * 16 + z))
                         else barrierId tm)).
Proof.
  intros Hp Hsize Hsx Hsy Hsz Hfuel.
  destruct (sendWorld_run tm server fuel w s p sx sy sz Hp Hsize Hsx Hsy Hsz Hfuel)
    as (hd & evs & tl & Hrun & Hhd & Htl & Hevs).
  assert (Hcols : chunkColumns (hd ++ evs ++ tl) =
                  grid (seqZ (-1) (ceil16 sx + 2)) (seqZ (-1) (ceil16 sz + 2))).
  { unfold chunkColumns. rewrite !omap_app.
    fold (chunkColumns hd). fold (chunkColumns evs). fold (chunkColumns tl).
    rewrite (chunkColumns_other hd Hhd), (chunkColumns_other tl Htl), app_nil_r.
    apply (columnPackets_columns tm w sy _ _ Hevs). }
  assert (Hnd : NoDup (grid (seqZ (-1) (ceil16 sx + 2)) (seqZ (-1) (ceil16 sz + 2))))
    by (apply NoDup_grid; apply NoDup_seqZ).
  exists (hd ++ evs ++ tl). split; [exact Hrun|]. rewrite Hcols.
  split; [exact Hnd|]. split.
  - intros cx cz. rewrite in_grid, !in_seqZ. lia.
  - intros cx cz Hcx Hcz.
    assert (Hin : In (cx, cz)
                    (grid (seqZ (-1) (ceil16 sx + 2)) (seqZ (-1) (ceil16 sz + 2))))
      by (rewrite in_grid, !in_seqZ; lia).
    destruct (columnPackets_sections tm w sy _ _ cx cz Hevs Hnd Hin)
      as (secs & Hsecs & Hlen & Hfill).
    assert (Hc : 0 <= ceil16 sy) by (unfold ceil16; apply Z.div_pos; lia).
    exists secs. split; [|split; [exact Hlen|split]].
    + unfold chunkSectionsOf. rewrite !omap_app.
      fold (chunkSectionsOf cx cz hd). fold (chunkSectionsOf cx cz evs).
      fold (chunkSectionsOf cx cz tl).
      rewrite (chunkSectionsOf_other cx cz hd Hhd),
              (chunkSectionsOf_other cx cz tl Htl), app_nil_r.
      exact Hsecs.
    + destruct (lookup_lt_is_Some_2 secs 0%nat) as [below Hbelow]; [lia|].
      exists below. split; [exact Hbelow|].
      intros x y z Hx Hy Hz. rewrite (Hfill 0%nat below Hbelow x y z Hx Hy Hz).
      unfold cellState. rewrite isInBounds_below by lia. reflexivity.
    + intros i sec Hi. split.
      * apply lookup_lt_Some in Hi. rewrite Hlen in Hi.
        unfold ceil16 in *.
        pose proof (Z.div_mod (sy + 15) 16 ltac:(lia)).
        pose proof (Z.mod_pos_bound (sy + 15) 16 ltac:(lia)). lia.
      * intros x y z Hx Hy Hz. apply (Hfill i sec Hi x y z Hx Hy Hz).
Qed.

(** C8. On a session on which no player is set, [sendWorld] fails at once
    with ['Player is not set!'], whatever the world and the fuel, and
    leaves the session, its trace of sent packets included, as it was. *)
Theorem sendWorld_without_player tm server fuel w s :
  player s = None ->
  sendWorld tm server fuel w s = Some (Throw "Player is not set!", s).
Proof. intros Hp. unfold sendWorld. rewrite Hp. reflexivity. Qed.

(** C6 (amended). Translation never fails: [setBlock] completes and sends
    the set-block packet with the table's entry for the block, and the
    section loop stores the table's entry for the block of every in-bounds
    cell; a block without an entry is sent, and stored, as block state 0,
    which is the boundary state only if that is 0. *)
Theorem translation_fallback_zero tm fuel w cx cy cz l sec0 x y z block s :
  (17 <= fuel)%nat ->
  setBlock tm x y z block s =
    (Normal tt,
     emit (Sent (packet.setBlock x y z
                   (match cBlockToBlockState tm block with
                    | Some st => st
                    | None => 0
                    end))) s)
  /\ (cBlockToBlockState tm block = None ->
        trace (run (setBlock tm x y z block) s) =
          trace s ++ [Sent (packet.setBlock x y z 0)])
  /\ exists sec,
       fillSection tm fuel w cx cy cz (length l) (l ++ [sec0]) = Some (l ++ [sec])
       /\ forall a b c, 0 <= a < 16 -> 0 <= b < 16 -> 0 <= c < 16 ->
            isInBounds w (cx * 16 + a) (cy * 16 + b) (cz * 16 + c) = true ->
            ChunkSection.getBlock sec a b c =
              match cBlockToBlockState tm
                      (getBlockId w (cx * 16 + a) (cy * 16 + b) (cz * 16 + c)) with
              | Some st => st
              | None => 0
              end.
Proof.
  intros Hfuel. split; [reflexivity|]. split.
  - intros Hnone. unfold run, setBlock, blockStateOrZero. rewrite Hnone. reflexivity.
  - destruct (fillSection_spec tm fuel w cx cy cz l sec0 Hfuel) as (sec & Hrun & Hsec).
    exists sec. split; [exact Hrun|].
    intros a b c Ha Hb Hc Hin. rewrite (Hsec a b c Ha Hb Hc).
    unfold cellState. rewrite Hin. reflexivity.
Qed.

(** A send leaves everything but [sent] as it was. *)
Lemma send_frame o c :
  ConnectionHandler.ip (ConnectionHandler.send o c) = ConnectionHandler.ip c
  /\ ConnectionHandler.port (ConnectionHandler.send o c) = ConnectionHandler.port c
  /\ ConnectionHandler.state (ConnectionHandler.send o c) = ConnectionHandler.state c
  /\ ConnectionHandler.writable (ConnectionHandler.send o c) =
     ConnectionHandler.writable c.
Proof.
  unfold ConnectionHandler.send.
  destruct (ConnectionHandler.isClosed c || negb (ConnectionHandler.writable c));
    auto.
Qed.

Lemma send_open o c :
  ConnectionHandler.state c <> ConnectionHandler.Closed ->
  ConnectionHandler.writable c = true ->
  ConnectionHandler.sent (ConnectionHandler.send o c) =
    ConnectionHandler.sent c ++ [o].
Proof.
  intros Hopen Hw. unfold ConnectionHandler.send, ConnectionHandler.isClosed.
  rewrite Hw. destruct (ConnectionHandler.state c); try reflexivity.
  congruence.
Qed.

Lemma send_shut o c :
  ConnectionHandler.state c = ConnectionHandler.Closed \/
  ConnectionHandler.writable c = false ->
  ConnectionHandler.send o c = c.
Proof.
  intros [Hst|Hw]; unfold ConnectionHandler.send, ConnectionHandler.isClosed.
  - rewrite Hst. reflexivity.
  - rewrite Hw. rewrite orb_true_r. reflexivity.
Qed.

(** C7. When [connectPlayer] has registered the identification callback
    on a connection and the authentication of its identification resolves
    to deny, the server is as [connectPlayer] left it: the roster and the
    messages are as before the call and nothing but the connection line
    was logged.  The connection keeps its endpoint and ends [Closed]; on a
    connection that was not closed before and whose transport is writable
    exactly two things went out, the server info and then the disconnect
    packet with 'You need to log in!', and on any other connection
    nothing. *)
Theorem connectPlayer_deny js co client overrides playerInfo srv c c1 :
  Server.once co (ConnectionHandler.set_server c) = Normal c1 ->
  Server.allow (Server.authenticatePlayer co
                  (Server.authRequest js overrides playerInfo)) = false ->
  let r1 := Server.connectPlayer co c srv in
  let r := Server.onPlayerIdentification js co client overrides playerInfo
             r1.1 r1.2 in
  r1.2 = c1
  /\ r.1 = r1.1
  /\ Server.players r.1 = Server.players srv
  /\ Server.messages r.1 = Server.messages srv
  /\ Server.log r.1 =
     Server.log srv ++
       [Server.conn ("Connection from " ++ ConnectionHandler.ip c ++ ":"
                     ++ pretty (ConnectionHandler.port c) ++ "...")]
  /\ ConnectionHandler.state r.2 = ConnectionHandler.Closed
  /\ ConnectionHandler.ip r.2 = ConnectionHandler.ip c1
  /\ ConnectionHandler.port r.2 = ConnectionHandler.port c1
  /\ (ConnectionHandler.state c1 <> ConnectionHandler.Closed ->
      ConnectionHandler.writable c1 = true ->
      ConnectionHandler.sent r.2 =
        ConnectionHandler.sent c1 ++
          [ConnectionHandler.serverInfo;
           ConnectionHandler.disconnectPacket "You need to log in!"])
  /\ (ConnectionHandler.state c1 = ConnectionHandler.Closed \/
      ConnectionHandler.writable c1 = false ->
      ConnectionHandler.sent r.2 = ConnectionHandler.sent c1).
Proof.
  intros Honce Hdeny r1 r. subst r r1.
  unfold Server.connectPlayer. rewrite Honce. cbn [fst snd].
  unfold Server.onPlayerIdentification. rewrite Hdeny. cbn [fst snd].
  split; [reflexivity|]. split; [reflexivity|].
  split; [reflexivity|]. split; [reflexivity|]. split; [reflexivity|].
  split; [reflexivity|].
  unfold ConnectionHandler.disconnect, ConnectionHandler.sendServerInfo.
  cbn [ConnectionHandler.ip ConnectionHandler.port ConnectionHandler.sent].
  destruct (send_frame ConnectionHandler.serverInfo c1) as (Hi & Hp & Hs & Hw).
  destruct (send_frame (ConnectionHandler.disconnectPacket "You need to log in!")
              (ConnectionHandler.send ConnectionHandler.serverInfo c1))
    as (Hi' & Hp' & _ & _).
  split; [congruence|]. split; [congruence|]. split.
  - intros Hopen Hwr.
    rewrite send_open by congruence.
    rewrite send_open by assumption.
    rewrite <- app_assoc. reflexivity.
  - intros Hshut. rewrite !send_shut; [reflexivity|exact Hshut|].
    rewrite send_shut by exact Hshut. exact Hshut.
Qed.

(* ===================================================================== *)
(** * The properties on concrete sessions *)
(* ===================================================================== *)

(** JavaScript's remainder on a few doubles. *)
Example js_rem_values :
  js_rem 540 360 = 180%float
  /\ js_rem (-90) 360 = (-90)%float
  /\ js_rem 725.25 360 = 5.25%float
  /\ js_rem 1e22 360 = 280%float
  /\ yawToProtocol 0 = 128%float
  /\ yawToProtocol 90 = 192%float
  /\ yawToProtocol (-270) = (-64)%float
  /\ pitchToProtocol 45 = 32%float.
Proof. vm_compute. repeat split. Qed.

(** The join of the sample world: nine columns of two sections each; in
    column [(0, 0)] the cell [(0, 0, 0)] of the lower section is boundary
    and that of the upper section is the world's stone. *)
Example sendWorld_sample :
  match sendWorld Sample.tm Sample.server 20 Sample.w Sample.s with
  | Some (Normal tt, s') =>
      chunkColumns (trace s') =
        [(-1, -1); (-1, 0); (-1, 1); (0, -1); (0, 0); (0, 1);
         (1, -1); (1, 0); (1, 1)]
      /\ map (map (fun sec => ChunkSection.getBlock sec 0 0 0))
             (chunkSectionsOf 0 0 (trace s')) = [[8245; 1]]
  | _ => False
  end.
Proof. vm_compute. split; reflexivity. Qed.

(** C1, as stated, fails on the sample world (height 16): the packet of
    column [(0, 0)] has two sections, the one below the world and the
    world's own, and no all-boundary section above the world. *)
Lemma sendWorld_section_above_counterexample :
  match sendWorld Sample.tm Sample.server 20 Sample.w Sample.s with
  | Some (Normal tt, s') =>
      exists secs,
        chunkSectionsOf 0 0 (trace s') = [secs]
        /\ length secs = 2%nat
        /\ ~ hasSectionAbove Sample.tm 16 secs
  | _ => False
  end.
Proof.
  destruct (sendWorld_run Sample.tm Sample.server 20 Sample.w Sample.s Sample.p
              16 16 16 eq_refl eq_refl)
    as (hd & evs & tl & -> & Hhd & Htl & Hevs); [lia|lia|lia|vm_compute; lia|].
  assert (Hin : In (0, 0) (grid (seqZ (-1) (ceil16 16 + 2)) (seqZ (-1) (ceil16 16 + 2))))
    by (vm_compute; tauto).
  destruct (columnPackets_sections Sample.tm Sample.w 16 _ _ 0 0 Hevs
              (NoDup_grid _ _ (NoDup_seqZ _ _) (NoDup_seqZ _ _)) Hin)
    as (secs & Hsecs & Hlen & _).
  exists secs. split; [|split; [exact Hlen|]].
  - cbn [trace emits Sample.s Sample.fresh set_player app].
    unfold chunkSectionsOf. rewrite !omap_app.
    fold (chunkSectionsOf 0 0 hd). fold (chunkSectionsOf 0 0 evs).
    fold (chunkSectionsOf 0 0 tl).
    rewrite (chunkSectionsOf_other 0 0 hd Hhd),
            (chunkSectionsOf_other 0 0 tl Htl), app_nil_r.
    exact Hsecs.
  - intros (i & sec & Hi & Habove & _).
    apply lookup_lt_Some in Hi. rewrite Hlen in Hi.
    change (Z.to_nat (ceil16 16 + 1)) with 2%nat in Hi. lia.
Qed.

Lemma sendWorld_streams_columns_witness :
  exists new,
    sendWorld Sample.tm Sample.server 20 Sample.w Sample.s =
      Some (Normal tt, emits new Sample.s)
    /\ NoDup (chunkColumns new)
    /\ (In (1, -1) (chunkColumns new) <->
          -1 <= 1 <= ceil16 16 /\ -1 <= -1 <= ceil16 16).
Proof.
  destruct (sendWorld_streams_columns Sample.tm Sample.server 20 Sample.w
              Sample.s Sample.p 16 16 16 eq_refl eq_refl)
    as (new & Hrun & Hnd & Hin & _); [lia|lia|lia|vm_compute; lia|].
  exists new. split; [exact Hrun|]. split; [exact Hnd|]. apply Hin.
Defined.

Lemma finish_dig_out_of_bounds_witness :
  trace (run (playPackets_0x1c Sample.tm Sample.pa 1250 2 (17, 0, 0)) Sample.s)
    = [Sent (packet.setBlock 17 0 0 8245)]
  /\ data (run (playPackets_0x1c Sample.tm Sample.pa 1250 2 (17, 0, 0)) Sample.s)
     = noPending.
Proof.
  assert (H : forall p, player Sample.s = Some p ->
                        isInBounds (world p) 17 0 0 = false)
    by (intros p [= <-]; reflexivity).
  destruct (finish_dig_out_of_bounds Sample.tm Sample.pa 1250 17 0 0 Sample.s H)
    as (Htrace & _ & _ & Hdata & _).
  split; [exact Htrace|exact Hdata].
Defined.

(** C3, as stated, fails with an empty hand: the held item is 0 and no
    acknowledgement with the request's sequence number is sent. *)
Lemma use_item_on_empty_hand_counterexample :
  js_array_get (inventory Sample.s) (inventorySlot Sample.s + 36) = Some 0
  /\ ~ In (Sent (packet.acknowledgeBlockChange 77))
          (trace (snd (playPackets_0x30 Sample.tm Sample.pa (2, 2, 2) 1 77
                         Sample.s))).
Proof. split; [reflexivity|]. cbn. intros []. Qed.

Lemma use_item_on_witness :
  trace (snd (playPackets_0x30 Sample.tm Sample.pa (2, 2, 2) 1 77
                Sample.holdingBlock))
    = [BlockPlace 2 3 2 1; Sent (packet.acknowledgeBlockChange 77)]
  /\ trace (snd (playPackets_0x30 Sample.tm Sample.pa (2, 2, 2) 1 77
                   Sample.holdingItem))
     = [Sent (packet.setBlock 2 3 2 1); Sent (packet.acknowledgeBlockChange 77)].
Proof.
  split.
  - destruct (use_item_on_spec Sample.tm Sample.pa 2 2 2 1 77 Sample.holdingBlock)
      as (_ & _ & H).
    destruct (H ltac:(discriminate)) as (_ & H').
    destruct (H' Sample.p 0 1 0 eq_refl eq_refl) as (_ & Htrace & _).
    exact Htrace.
  - destruct (use_item_on_spec Sample.tm Sample.pa 2 2 2 1 77 Sample.holdingItem)
      as (_ & _ & H).
    destruct (H ltac:(discriminate)) as (_ & H').
    destruct (H' Sample.p 0 1 0 eq_refl eq_refl) as (_ & Htrace & _).
    exact Htrace.
Defined.

Lemma tick_resolves_like_finish_dig_witness :
  trace (run (tick Sample.tm Sample.pa 1250) Sample.digging) =
    trace (run (playPackets_0x1c Sample.tm Sample.pa 1250 2 (5, 10, 5))
             (emit (Sent (packet.keepAlive 1250)) Sample.digging))
  /\ data (run (tick Sample.tm Sample.pa 1250) Sample.digging) = noPending
  /\ trace (ticks Sample.tm Sample.pa [1300; 1351]
              (run (tick Sample.tm Sample.pa 1250) Sample.digging)) =
     trace (run (tick Sample.tm Sample.pa 1250) Sample.digging)
       ++ [Sent (packet.keepAlive 1300)].
Proof.
  destruct (tick_resolves_like_finish_dig Sample.tm Sample.pa 1250 (5, 10, 5)
              1000 Sample.digging eq_refl eq_refl)
    as (Heq & Hclear & Hlater); [lia|lia|].
  split; [|split; [exact Hclear|]].
  - unfold run. rewrite Heq. reflexivity.
  - exact (proj1 (Hlater [1300; 1351])).
Defined.

Lemma movement_rotation_renormalized_witness :
  trace (run (playPackets_0x14 Sample.pa 1 2 3 90 45) Sample.s)
    = [Move 1 2 3 192 32]
  /\ trace (run (playPackets_0x15 Sample.pa (-270) 45) Sample.s)
     = [Move 8 9 8 (-64) 32].
Proof.
  destruct (movement_rotation_renormalized Sample.pa 1 2 3 90 45 Sample.s
              Sample.p eq_refl) as ((H14 & _) & _).
  destruct (movement_rotation_renormalized Sample.pa 1 2 3 (-270) 45 Sample.s
              Sample.p eq_refl) as (_ & px & py & pz & H15 & _).
  split; [exact H14|].
  rewrite H15. vm_compute in H15. vm_compute.
  injection H15 as -> -> ->. reflexivity.
Defined.

Lemma movement_frames_witness :
  trace (run (playPackets_0x13 Sample.pa 1 2 3) Sample.s) = [Move 1 2 3 64 0].
Proof.
  exact (proj1 (movement_frames Sample.pa 1 2 3 90 45 Sample.s Sample.p eq_refl)).
Defined.

(** C6, as stated, fails on the sample table: block 7 has no entry, and is
    sent as block state 0, which is not the boundary state 8245. *)
Lemma unmapped_block_counterexample :
  cBlockToBlockState Sample.tm 7 = None
  /\ trace (run (setBlock Sample.tm 1 2 3 7) Sample.s)
     = [Sent (packet.setBlock 1 2 3 0)]
  /\ blockStateOrZero Sample.tm 7 <> barrierId Sample.tm.
Proof. repeat split. discriminate. Qed.

Lemma translation_fallback_zero_witness :
  trace (run (setBlock Sample.tm 1 2 3 7) Sample.s)
    = [Sent (packet.setBlock 1 2 3 0)].
Proof.
  destruct (translation_fallback_zero Sample.tm 17 Sample.w 0 0 0 []
              ChunkSection.new 1 2 3 7 Sample.s) as (_ & H & _); [lia|].
  exact (H eq_refl).
Defined.

Lemma connectPlayer_deny_witness :
  let r1 := Server.connectPlayer Sample.denying Sample.conn Sample.srv in
  let r := Server.onPlayerIdentification Sample.asciiCase Sample.denying
             None None Sample.info r1.1 r1.2 in
  Server.players r.1 = ∅
  /\ ConnectionHandler.state r.2 = ConnectionHandler.Closed
  /\ ConnectionHandler.sent r.2 =
     [ConnectionHandler.serverInfo;
      ConnectionHandler.disconnectPacket "You need to log in!"].
Proof.
  destruct (connectPlayer_deny Sample.asciiCase Sample.denying None None
              Sample.info Sample.srv Sample.conn
              (ConnectionHandler.set_server Sample.conn) eq_refl eq_refl)
    as (_ & _ & Hroster & _ & _ & Hstate & _ & _ & Hsent & _).
  split; [exact Hroster|]. split; [exact Hstate|].
  apply Hsent; [discriminate|reflexivity].
Defined.

Lemma sendWorld_without_player_witness :
  sendWorld Sample.tm Sample.server 20 Sample.w Sample.fresh =
    Some (Throw "Player is not set!", Sample.fresh).
Proof.
  apply (sendWorld_without_player Sample.tm Sample.server 20 Sample.w Sample.fresh).
  reflexivity.
Defined.

Lemma creative_slot_spec_witness :
  js_array_get (inventory (run (playPackets_0x2a 36 true 1) Sample.s)) 36 = Some 1
  /\ js_array_get (inventory (run (playPackets_0x2a 36 false 1) Sample.holdingBlock)) 36
     = Some 0
  /\ playPackets_0x2a 50 true 1 Sample.s = (Normal tt, Sample.s)
  /\ playPackets_0x2a (-1) true 1 Sample.s = (Normal tt, Sample.s).
Proof.
  split; [|split; [|split]].
  - exact (proj1 (proj1 (creative_slot_spec 36 true 1 Sample.s) ltac:(lia))).
  - exact (proj1 (proj1 (creative_slot_spec 36 false 1 Sample.holdingBlock)
                    ltac:(lia))).
  - apply (proj2 (creative_slot_spec 50 true 1 Sample.s)). lia.
  - apply (proj2 (creative_slot_spec (-1) true 1 Sample.s)). lia.
Defined.

(* ===================================================================== *)
(** * Further properties of the packet handlers *)
(* ===================================================================== *)

(** The shapes of a dig status that the handler tells apart. *)
Lemma status_cases (status : Z) :
  status = 0 \/ status = 1 \/ status = 2 \/
  (forall {A} (a b c d : A),
     match status with 0 => a | 1 => b | 2 => c | _ => d end = d).
Proof.
  assert (Hother : forall P Q R S : Prop, S -> P \/ Q \/ R \/ S) by tauto.
  destruct status as [|[[q|q|]|[q|q|]|]|q];
    try (apply Hother; intros; reflexivity); auto.
Qed.

Section MoreHandlerFacts.

Variable tm : TranslationMap.
Variable pa : PlayerActions.

(** ** The delayed action over time *)

Lemma tick_early now pos t s :
  minePos (data s) = Some pos ->
  mineTime (data s) = Some t ->
  now - t <= 200 ->
  tick tm pa now s =
    (Normal tt, if Z.rem now 2 =? 0 then emit (Sent (packet.keepAlive now)) s else s).
Proof.
  intros Hpos Ht Hage. unfold tick. handler_unfold.
  assert (Hc : negb (t =? 0) && (now - t >? 200) = false).
  { apply andb_false_iff. right. rewrite Z.gtb_ltb. apply Z.ltb_ge. lia. }
  destruct (Z.rem now 2 =? 0); cbn; rewrite Hpos, Ht, Hc; reflexivity.
Qed.

(** X1. While a dig is pending, ticks that come no later than 200 ms after
    its start never resolve it: they add nothing to the trace but their
    keep-alives (no block-break call, no world-event, no set-block), and
    the same action is still pending afterwards. *)
Theorem ticks_before_deadline nows : forall s pos t,
  minePos (data s) = Some pos ->
  mineTime (data s) = Some t ->
  Forall (fun now => now - t <= 200) nows ->
  trace (ticks tm pa nows s) = trace s ++ keepAlives nows
  /\ data (ticks tm pa nows s) = data s
  /\ player (ticks tm pa nows s) = player s.
Proof.
  induction nows as [|now r IH]; intros s pos t Hpos Ht Hall; cbn [ticks].
  - unfold keepAlives. cbn. rewrite app_nil_r. auto.
  - apply Forall_cons in Hall as [Hnow Hall].
    unfold run. rewrite (tick_early now pos t s Hpos Ht Hnow). cbn [snd].
    unfold keepAlives. destruct (Z.eqb_spec (Z.rem now 2) 0) as [He|He].
    + rewrite filter_cons_True by exact He. cbn [map].
      destruct (IH (emit (Sent (packet.keepAlive now)) s) pos t Hpos Ht Hall)
        as (Htr & Hd & Hp).
      rewrite Htr, Hd, Hp. cbn. rewrite <- app_assoc. auto.
    + rewrite filter_cons_False by exact He. apply (IH s pos t Hpos Ht Hall).
Qed.

(** X2. A cancel-dig (status 1) withdraws the pending action whatever it
    was: the ticks after it, however late, only send keep-alives, so the
    cancelled dig is never resolved. *)
Theorem cancel_dig_is_final now pos nows s :
  let s1 := run (playPackets_0x1c tm pa now 1 pos) s in
  trace s1 = trace s
  /\ trace (ticks tm pa nows s1) = trace s ++ keepAlives nows
  /\ (forall a b c, In (BlockBreak a b c) (trace (ticks tm pa nows s1)) ->
                    In (BlockBreak a b c) (trace s))
  /\ data (ticks tm pa nows s1) = noPending.
Proof.
  intros s1.
  assert (Hs1 : s1 = set_data noPending s).
  { subst s1. destruct pos as [[x y] z]. reflexivity. }
  destruct (ticks_idle tm pa nows s1) as (Htr & Hd & _);
    [rewrite Hs1; reflexivity|].
  rewrite Htr, Hd, Hs1. cbn [trace set_data]. repeat split.
  intros a b c Hin. apply in_app_or in Hin as [Hin|Hin]; [exact Hin|].
  unfold keepAlives in Hin. apply in_map_iff in Hin as (n & Hn & _).
  discriminate Hn.
Qed.

(** ** When a handler fails *)

Lemma playPackets_0x1c_normal now status pos s :
  fst (playPackets_0x1c tm pa now status pos s) = Normal tt.
Proof.
  destruct pos as [[x y] z]. unfold playPackets_0x1c.
  destruct (status_cases status) as [->|[->|[->|Hother]]].
  - reflexivity.
  - reflexivity.
  - handler_unfold.
    destruct (player s) as [p|]; [|reflexivity].
    destruct (isInBounds (world p) x y z); [|reflexivity].
    destruct (_action_block_break pa p x y z) as [[] p']; reflexivity.
  - rewrite Hother. reflexivity.
Qed.

(** X3. Once the fields of a play packet have been read (the reads, which
    the handlers do themselves, can fail on a packet that is too short and
    are not part of this statement) and with player collaborators that
    return, a handler fails in one case only: the [TypeError] of
    use-item-on when the held item is not 0, a player is set and the face
    id is outside the direction table; it then fails before it has done
    anything, so the session is as before and no acknowledgement is sent.
    Every other packet, and use-item-on in every other situation, is
    handled to the end. *)
Theorem handlers_fail_only_on_bad_face now p s :
  (exists pos faceId sequence,
      p = UseItemOn pos faceId sequence
      /\ js_array_get (inventory s) (inventorySlot s + 36) <> Some 0
      /\ player s <> None
      /\ directions_at faceId = None)
  /\ playPackets tm pa now p s = (Throw "TypeError", s)
  \/
  ~ (exists pos faceId sequence,
      p = UseItemOn pos faceId sequence
      /\ js_array_get (inventory s) (inventorySlot s + 36) <> Some 0
      /\ player s <> None
      /\ directions_at faceId = None)
  /\ fst (playPackets tm pa now p s) = Normal tt.
Proof.
  destruct p as [text|text| |x y z|x y z dyaw dpitch|dyaw dpitch|status pos|slot
                |slot present id|pos faceId sequence];
    [right; split; [intros (? & ? & ? & Heq & _); discriminate Heq|] ..|].
  - cbn. unfold playPackets_0x03. handler_unfold. destruct (player s); reflexivity.
  - cbn. unfold playPackets_0x04. handler_unfold. destruct (player s); reflexivity.
  - reflexivity.
  - cbn. unfold playPackets_0x13. handler_unfold. destruct (player s); reflexivity.
  - cbn. unfold playPackets_0x14. handler_unfold. destruct (player s); reflexivity.
  - cbn. unfold playPackets_0x15. handler_unfold.
    destruct (player s) as [q|]; [|reflexivity].
    destruct (position q) as [[px py] pz]. reflexivity.
  - apply playPackets_0x1c_normal.
  - reflexivity.
  - cbn. unfold playPackets_0x2a, modify, ret.
    destruct ((slot <? 50) && (slot >=? 0)); [destruct present|]; reflexivity.
  - destruct pos as [[x y] z]. cbn [playPackets].
    unfold playPackets_0x30, face_of, setBlock. handler_unfold.
    destruct (js_array_get (inventory s) (inventorySlot s + 36)) as [i|] eqn:Hi.
    + destruct (Z.eq_dec i 0) as [->|Hne].
      { right. split; [|reflexivity].
        intros (? & ? & ? & _ & Hitem & _). apply Hitem. reflexivity. }
      assert (Hnz : item_nonzero (Some i) = true).
      { destruct i; try reflexivity. congruence. }
      rewrite Hnz. cbn [mbind option_bind].
      destruct (player s) as [q|] eqn:Hq.
      * destruct (directions_at faceId) as [[[fx fy] fz]|] eqn:Hf.
        -- right. split.
           ++ intros (? & ? & ? & [= <- <- <-] & _ & _ & Hnone). congruence.
           ++ destruct (itemToCBlock tm i); rewrite ?Hq, ?Hf; reflexivity.
        -- left. split.
           ++ exists (x, y, z), faceId, sequence. repeat split; congruence.
           ++ destruct (itemToCBlock tm i); rewrite ?Hq, ?Hf; reflexivity.
      * right. split.
        -- intros (? & ? & ? & _ & _ & Hp & _). apply Hp. reflexivity.
        -- destruct (itemToCBlock tm i); rewrite ?Hq; reflexivity.
    + cbn [item_nonzero mbind option_bind].
      destruct (player s) as [q|] eqn:Hq.
      * destruct (directions_at faceId) as [[[fx fy] fz]|] eqn:Hf.
        -- right. split.
           ++ intros (? & ? & ? & [= <- <- <-] & _ & _ & Hnone). congruence.
           ++ rewrite ?Hq, ?Hf. reflexivity.
        -- left. split.
           ++ exists (x, y, z), faceId, sequence. repeat split; congruence.
           ++ rewrite ?Hq, ?Hf. reflexivity.
      * right. split.
        -- intros (? & ? & ? & _ & _ & Hp & _). apply Hp. reflexivity.
        -- rewrite ?Hq. reflexivity.
Qed.

(** ** Without a player *)

(** X4. On a session with no player set, no packet and no tick reaches the
    player collaborator: a finish-dig still sends the boundary set-block
    packet, a use-item-on with a held item other than 0 still sends its
    acknowledgement, a tick at an even time its keep-alive, and nothing
    else is sent, called or changed in the trace; the session still has no
    player afterwards. *)
Theorem no_player_no_collaborator now p s :
  player s = None ->
  (trace (run (playPackets tm pa now p) s) = trace s ++
     match p with
     | PlayerAction status (x, y, z) =>
         if status =? 2 then [Sent (packet.setBlock x y z (barrierId tm))] else []
     | UseItemOn _ _ sequence =>
         if item_nonzero (js_array_get (inventory s) (inventorySlot s + 36))
         then [Sent (packet.acknowledgeBlockChange sequence)] else []
     | _ => []
     end
   /\ player (run (playPackets tm pa now p) s) = None)
  /\ (forall a, In a (trace (run (tick tm pa now) s)) ->
                In a (trace s) \/ isSent a = true)
  /\ player (run (tick tm pa now) s) = None.
Proof.
  intros Hp. split; [|split].
  - destruct p as [text|text| |x y z|x y z dyaw dpitch|dyaw dpitch|status pos|slot
                  |slot present id|pos faceId sequence]; cbn [playPackets].
    + unfold playPackets_0x03. handler_unfold. rewrite Hp. cbn.
      rewrite app_nil_r. auto.
    + unfold playPackets_0x04. handler_unfold. rewrite Hp. cbn.
      rewrite app_nil_r. auto.
    + cbn. rewrite app_nil_r. auto.
    + unfold playPackets_0x13. handler_unfold. rewrite Hp. cbn.
      rewrite app_nil_r. auto.
    + unfold playPackets_0x14. handler_unfold. rewrite Hp. cbn.
      rewrite app_nil_r. auto.
    + unfold playPackets_0x15. handler_unfold. rewrite Hp. cbn.
      rewrite app_nil_r. auto.
    + destruct pos as [[x y] z]. unfold playPackets_0x1c.
      destruct (status_cases status) as [->|[->|[->|Hother]]].
      * cbn. rewrite app_nil_r. auto.
      * cbn. rewrite app_nil_r. auto.
      * handler_unfold. rewrite Hp. cbn. auto.
      * rewrite Hother.
        destruct (Z.eqb_spec status 2) as [->|_].
        { specialize (Hother nat 0 1 2 3)%nat. discriminate Hother. }
        cbn. rewrite app_nil_r. auto.
    + cbn. rewrite app_nil_r. auto.
    + unfold playPackets_0x2a, run, modify, ret.
      destruct ((slot <? 50) && (slot >=? 0)); [destruct present|];
        cbn; rewrite app_nil_r; auto.
    + destruct pos as [[x y] z].
      unfold playPackets_0x30, face_of, setBlock. handler_unfold.
      destruct (item_nonzero (js_array_get (inventory s) (inventorySlot s + 36))).
      * destruct (js_array_get (inventory s) (inventorySlot s + 36) ≫= itemToCBlock tm);
          rewrite Hp; cbn; auto.
      * cbn. rewrite app_nil_r. auto.
  - intros a. unfold tick. handler_unfold.
    destruct (Z.rem now 2 =? 0); cbn;
      destruct (minePos (data s)) as [[[x y] z]|];
      destruct (mineTime (data s)) as [t|]; cbn;
      try destruct (negb (t =? 0) && (now - t >? 200)); cbn;
      rewrite ?Hp; cbn; rewrite ?in_app_iff; cbn;
      intuition (subst; auto).
  - unfold tick. handler_unfold.
    destruct (Z.rem now 2 =? 0); cbn;
      destruct (minePos (data s)) as [[[x y] z]|];
      destruct (mineTime (data s)) as [t|]; cbn;
      try destruct (negb (t =? 0) && (now - t >? 200)); cbn;
      rewrite ?Hp; cbn; auto.
Qed.

(** ** What a packet leaves alone *)

(** X5. A play packet changes the inventory only if it is a
    set-creative-mode-slot with a slot in [0, 50), the selected slot only
    if it is a set-held-item, and the pending delayed action only if it is
    a player action with status 0, 1 or 2; it never changes the session's
    endpoint or uuid, and it only ever appends to the trace, at most two
    events. *)
Theorem handler_frame now p s :
  let s' := run (playPackets tm pa now p) s in
  (inventory s' = inventory s \/
     exists slot present id, p = SetCreativeSlot slot present id /\ 0 <= slot < 50)
  /\ (inventorySlot s' = inventorySlot s \/ exists slot, p = SetHeldItem slot)
  /\ (data s' = data s \/
       exists status pos, p = PlayerAction status pos /\ 0 <= status <= 2)
  /\ selfUuid s' = selfUuid s /\ ip s' = ip s /\ port s' = port s
  /\ exists evs, trace s' = trace s ++ evs /\ (length evs <= 2)%nat.
Proof.
  intros s'. subst s'.
  destruct p as [text|text| |x y z|x y z dyaw dpitch|dyaw dpitch|status pos|slot
                |slot present id|pos faceId sequence]; cbn [playPackets].
  - unfold playPackets_0x03. handler_unfold. destruct (player s); cbn;
      repeat split; auto; eexists; (split; [try reflexivity; symmetry; apply app_nil_r|cbn; lia]).
  - unfold playPackets_0x04. handler_unfold. destruct (player s); cbn;
      repeat split; auto; eexists; (split; [try reflexivity; symmetry; apply app_nil_r|cbn; lia]).
  - cbn. repeat split; auto. exists []. rewrite app_nil_r. split; [reflexivity|cbn; lia].
  - unfold playPackets_0x13. handler_unfold. destruct (player s); cbn;
      repeat split; auto; eexists; (split; [try reflexivity; symmetry; apply app_nil_r|cbn; lia]).
  - unfold playPackets_0x14. handler_unfold. destruct (player s); cbn;
      repeat split; auto; eexists; (split; [try reflexivity; symmetry; apply app_nil_r|cbn; lia]).
  - unfold playPackets_0x15. handler_unfold. destruct (player s) as [q|];
      [destruct (position q) as [[px py] pz]|]; cbn;
      repeat split; auto; eexists; (split; [try reflexivity; symmetry; apply app_nil_r|cbn; lia]).
  - destruct pos as [[x y] z]. unfold playPackets_0x1c.
    destruct (status_cases status) as [->|[->|[->|Hother]]].
    + cbn. repeat split; auto.
      * right. exists 0, (x, y, z). split; [reflexivity|lia].
      * exists []. rewrite app_nil_r. split; [reflexivity|cbn; lia].
    + cbn. repeat split; auto.
      * right. exists 1, (x, y, z). split; [reflexivity|lia].
      * exists []. rewrite app_nil_r. split; [reflexivity|cbn; lia].
    + handler_unfold.
      assert (Hd : forall d : HandlerData,
                 d = data s \/ exists status pos,
                   PlayerAction 2 (x, y, z) = PlayerAction status pos /\ 0 <= status <= 2).
      { intros d. right. exists 2, (x, y, z). split; [reflexivity|lia]. }
      destruct (player s) as [q|]; [destruct (isInBounds (world q) x y z);
        [destruct (_action_block_break pa q x y z) as [[] q']|]|]; cbn;
        repeat split; auto;
        eexists; (split; [rewrite <- ?app_assoc; reflexivity|cbn; lia]).
    + rewrite Hother. cbn. repeat split; auto.
      exists []. rewrite app_nil_r. split; [reflexivity|cbn; lia].
  - cbn. repeat split; auto.
    + right. eauto.
    + exists []. rewrite app_nil_r. split; [reflexivity|cbn; lia].
  - unfold playPackets_0x2a, run, modify, ret.
    destruct (Z.ltb_spec slot 50); destruct (Z.geb_spec slot 0); cbn;
      [destruct present; cbn| | |];
      repeat split; auto;
      try (left; reflexivity);
      try (right; exists slot; eexists; eexists; split; [reflexivity|lia]);
      exists []; rewrite app_nil_r; (split; [reflexivity|cbn; lia]).
  - destruct pos as [[x y] z].
    unfold playPackets_0x30, face_of, setBlock. handler_unfold.
    destruct (item_nonzero (js_array_get (inventory s) (inventorySlot s + 36))).
    + destruct (js_array_get (inventory s) (inventorySlot s + 36) ≫= itemToCBlock tm);
        (destruct (player s) as [q|]; [destruct (directions_at faceId) as [[[fx fy] fz]|]|]);
        cbn; repeat split; auto;
        eexists; (split; [rewrite <- ?app_assoc; try reflexivity;
                          symmetry; apply app_nil_r|cbn; lia]).
    + cbn. repeat split; auto.
      exists []. rewrite app_nil_r. split; [reflexivity|cbn; lia].
Qed.

(** ** The held item *)

(** X6. The item a creative-mode packet puts at inventory index [36 + k]
    is the one use-item-on uses once held-item [k] is selected: if it is
    not 0 and maps to a block, that block is placed at the adjacent cell
    and the action acknowledged; and after a creative-mode packet has
    cleared that index, use-item-on does nothing. *)
Theorem hotbar_item_is_used now k id block x y z faceId fx fy fz sequence s p :
  player s = Some p ->
  0 <= 36 + k < 50 ->
  id <> 0 ->
  itemToCBlock tm id = Some block ->
  directions_at faceId = Some (fx, fy, fz) ->
  let put := run (playPackets tm pa now (SetHeldItem k))
               (run (playPackets tm pa now (SetCreativeSlot (36 + k) true id)) s) in
  let cleared := run (playPackets tm pa now (SetHeldItem k))
               (run (playPackets tm pa now (SetCreativeSlot (36 + k) false id)) s) in
  trace (run (playPackets tm pa now (UseItemOn (x, y, z) faceId sequence)) put) =
    trace s ++ [BlockPlace (x + fx) (y + fy) (z + fz) block;
                Sent (packet.acknowledgeBlockChange sequence)]
  /\ playPackets tm pa now (UseItemOn (x, y, z) faceId sequence) cleared =
     (Normal tt, cleared).
Proof.
  intros Hp Hk Hid Hblock Hf put cleared. subst put cleared.
  cbn [playPackets]. unfold playPackets_0x2a, playPackets_0x27.
  replace ((36 + k <? 50) && (36 + k >=? 0)) with true
    by (symmetry; apply andb_true_intro; split;
        [apply Z.ltb_lt | apply Z.geb_le]; lia).
  unfold run, modify. cbn [snd].
  unfold playPackets_0x30, face_of. handler_unfold.
  cbn [inventory inventorySlot set_inventory set_inventorySlot].
  replace (k + 36) with (36 + k) by lia.
  rewrite !js_array_get_set_eq by lia. split.
  - assert (Hnz : item_nonzero (Some id) = true).
    { destruct id; try reflexivity. congruence. }
    rewrite Hnz. cbn [mbind option_bind]. rewrite Hblock.
    cbn [player set_inventory set_inventorySlot]. rewrite Hp, Hf. cbn.
    rewrite <- app_assoc. reflexivity.
  - reflexivity.
Qed.

End MoreHandlerFacts.

(* ===================================================================== *)
(** * Further properties of [sendWorld] *)
(* ===================================================================== *)

Section MoreSendWorldFacts.

Variable tm : TranslationMap.
Variable server : ServerInfo.

Lemma forEach_sendSpawnPlayer_exact p l : forall s,
  player s = Some p ->
  forEach sendSpawnPlayer l s =
    (Normal tt,
     emits (flat_map (fun e => if numId e =? numId p then []
                               else [Sent (packet.playerListAdd e None);
                                     Sent (packet.spawnPlayer e)]) l) s).
Proof.
  induction l as [|e l IH]; intros s Hp; cbn [forEach flat_map].
  - rewrite emits_nil. reflexivity.
  - unfold sendSpawnPlayer at 1. handler_unfold. unfold is_self. rewrite Hp.
    destruct (numId e =? numId p).
    + cbn [app]. apply IH, Hp.
    + cbn. rewrite (emit_one _ s), emit_emits. cbn [app].
      rewrite IH by exact Hp. rewrite emits_emits. reflexivity.
Qed.

(** The whole trace of a join: header, chunk stream, spawns, footer. *)
Lemma sendWorld_exact fuel w s p sx sy sz :
  player s = Some p ->
  getSize w = (sx, sy, sz) ->
  0 <= sx -> 0 <= sy -> 0 <= sz ->
  (sendWorld_fuel w <= fuel)%nat ->
  exists evs,
    sendWorld tm server fuel w s =
      Some (Normal tt,
            emits (joinHeader server p w ++ evs ++ joinSpawns p w
                   ++ joinFooter p w (selfUuid s)) s)
    /\ Forall2 (columnPacket tm w sy)
         (grid (seqZ (-1) (ceil16 sx + 2)) (seqZ (-1) (ceil16 sz + 2))) evs.
Proof.
  intros Hp Hsize Hsx Hsy Hsz Hfuel.
  unfold sendWorld_fuel in Hfuel. rewrite Hsize in Hfuel.
  assert (Hcx : 0 <= ceil16 sx) by (unfold ceil16; apply Z.div_pos; lia).
  assert (Hcy : 0 <= ceil16 sy) by (unfold ceil16; apply Z.div_pos; lia).
  assert (Hcz : 0 <= ceil16 sz) by (unfold ceil16; apply Z.div_pos; lia).
  unfold sendWorld, joinHeader. rewrite Hp, Hsize. cbv zeta.
  rewrite (emit_one _ s), !emit_emits. cbn [app].
  set (hd := [Sent (joinGame server p w); Sent (respawn w);
              Sent (packet.updateViewDistance (viewDistance sx sz));
              Sent (packet.updateTickDistance (viewDistance sx sz));
              Sent (packet.updateViewPos (inject_Z sx / 32) (inject_Z sz / 32))]).
  set (zs := seqZ (-1) (ceil16 sz + 2)).
  match goal with
  | |- context [for_loop fuel ?c ?b (-1) ?s0] =>
      destruct (for_loop_inv
                  (fun cx st => exists evs, st = emits evs s0 /\
                     Forall2 (columnPacket tm w sy)
                       (grid (seqZ (-1) (cx + 1)) zs) evs)
                  c b (ceil16 sx + 1))
        with (fuel := fuel) (lo := -1) (s := s0)
        as (s2 & Hrun & evs & -> & Hevs)
  end.
  - intros i Hi. rewrite column_cond. apply Z.ltb_lt, Hi.
  - rewrite column_cond. apply Z.ltb_irrefl.
  - lia.
  - lia.
  - intros cx st Hcxr (evs & -> & Hevs).
    match goal with
    | |- context [for_loop fuel ?c ?b (-1) ?s0] =>
        destruct (for_loop_inv
                    (fun cz st => exists evs', st = emits evs' (emits hd s) /\
                       Forall2 (columnPacket tm w sy)
                         (grid (seqZ (-1) (cx + 1)) zs
                          ++ map (pair cx) (seqZ (-1) (cz + 1))) evs')
                    c b (ceil16 sz + 1))
          with (fuel := fuel) (lo := -1) (s := s0)
          as (s3 & Hrun3 & evs3 & -> & Hevs3)
    end.
    + intros i Hi. rewrite column_cond. apply Z.ltb_lt, Hi.
    + rewrite column_cond. apply Z.ltb_irrefl.
    + lia.
    + lia.
    + intros cz st (Hcz1 & Hcz2) (evs' & -> & Hevs').
      destruct (columnSections_spec tm fuel w cx cz sx sy sz Hsize Hsy)
        as (secs & -> & Hlen & Hfill); [lia|lia|].
      eexists. split; [reflexivity|].
      exists (evs' ++ [Sent (packet.chunkData cx cz (Z.log2_up (sy + 2)) secs
                              (Z.of_nat (length secs) + 2))]).
      split; [apply emit_emits|].
      rewrite (seqZ_snoc (-1) (cz + 1)) by lia. rewrite map_app, app_assoc.
      apply Forall2_app; [exact Hevs'|].
      replace (-1 + (cz + 1)) with cz by lia.
      constructor; [|constructor].
      exists secs. cbn. auto.
    + exists evs. cbn. rewrite app_nil_r. auto.
    + eexists. split; [exact Hrun3|].
      exists evs3. split; [reflexivity|].
      rewrite (seqZ_snoc (-1) (cx + 1)) by lia. rewrite grid_snoc.
      replace (-1 + (cx + 1)) with cx by lia.
      replace (ceil16 sz + 1 + 1) with (ceil16 sz + 2) in Hevs3 by lia.
      exact Hevs3.
  - exists []. split; [symmetry; apply emits_nil|constructor].
  - rewrite Hrun.
    replace (ceil16 sx + 1 + 1) with (ceil16 sx + 2) in Hevs by lia.
    exists evs. split; [|exact Hevs].
    unfold bind at 1.
    rewrite (forEach_sendSpawnPlayer_exact p) by (cbn; exact Hp).
    unfold sendTeleport. handler_unfold. cbn.
    rewrite !emit_one, !emits_emits.
    unfold joinSpawns, joinFooter.
    repeat rewrite <- app_assoc. reflexivity.
Qed.

(** ** What the join does not depend on *)

Lemma for_loop_commute {S : Type} (T : S -> S) cond body :
  (forall i s, body i (T s) = option_map T (body i s)) ->
  forall fuel i s,
    for_loop fuel cond body i (T s) = option_map T (for_loop fuel cond body i s).
Proof.
  intros Hbody. induction fuel as [|fuel IH]; intros i s; cbn [for_loop].
  - reflexivity.
  - destruct (cond i); [|reflexivity].
    rewrite Hbody. destruct (body i s) as [s1|]; cbn; [apply IH|reflexivity].
Qed.

Lemma forEach_sendSpawnPlayer_commute (T : Session -> Session) :
  (forall e s, emit e (T s) = T (emit e s)) ->
  (forall s, player (T s) = player s) ->
  forall l s,
    forEach sendSpawnPlayer l (T s) =
      ((forEach sendSpawnPlayer l s).1, T (forEach sendSpawnPlayer l s).2).
Proof.
  intros Hemit Hplayer. induction l as [|e l IH]; intros s; cbn [forEach].
  - reflexivity.
  - unfold sendSpawnPlayer at 1 3 5. handler_unfold. unfold is_self.
    rewrite Hplayer.
    destruct (match player s with
              | Some p => numId e =? numId p
              | None => false
              end); cbn.
    + rewrite IH. destruct (forEach sendSpawnPlayer l s) as [[[]|err] s1]; reflexivity.
    + rewrite !Hemit, IH.
      destruct (forEach sendSpawnPlayer l _) as [[[]|err] s1]; reflexivity.
Qed.

Lemma bind_commute {A B} (T : Session -> Session) (m : M A) (k : A -> M B) :
  (forall s, m (T s) = ((m s).1, T (m s).2)) ->
  (forall a s, k a (T s) = ((k a s).1, T (k a s).2)) ->
  forall s, bind m k (T s) = ((bind m k s).1, T (bind m k s).2).
Proof.
  intros Hm Hk s. unfold bind. rewrite Hm.
  destruct (m s) as [[a|e] s1]; cbn [fst snd]; [apply Hk|reflexivity].
Qed.

Lemma send_commute (T : Session -> Session) pkt :
  (forall e s, emit e (T s) = T (emit e s)) ->
  forall s, send pkt (T s) = ((send pkt s).1, T (send pkt s).2).
Proof. intros Hemit s. unfold send, modify. cbn. rewrite Hemit. reflexivity. Qed.

(** A change of the session that [handler.send] does not see and that keeps
    the player and the uuid goes through [sendWorld]. *)
Lemma sendWorld_commute (T : Session -> Session) :
  (forall e s, emit e (T s) = T (emit e s)) ->
  (forall s, player (T s) = player s) ->
  (forall s, selfUuid (T s) = selfUuid s) ->
  forall fuel w s,
    sendWorld tm server fuel w (T s) =
      option_map (fun r => (r.1, T r.2)) (sendWorld tm server fuel w s).
Proof.
  intros Hemit Hplayer Huuid fuel w s. unfold sendWorld. rewrite Hplayer.
  destruct (player s) as [p|]; [|reflexivity].
  destruct (getSize w) as [[sx sy] sz]. cbv zeta. rewrite !Hemit.
  rewrite (for_loop_commute T).
  - match goal with
    | |- context [option_map T ?l] => destruct l as [s2|]; [|reflexivity]
    end.
    cbn [option_map]. rewrite Huuid. f_equal.
    apply bind_commute;
      [apply (forEach_sendSpawnPlayer_commute T Hemit Hplayer)|intros _].
    apply bind_commute; [apply (send_commute T _ Hemit)|intros _].
    apply bind_commute; [|intros _; apply (send_commute T _ Hemit)].
    unfold sendTeleport.
    apply bind_commute; [|intros _]; apply (send_commute T _ Hemit).
  - intros cx st. rewrite (for_loop_commute T); [reflexivity|].
    intros cz st'. destruct (columnSections tm fuel w cx cz); [|reflexivity].
    cbn. rewrite Hemit. reflexivity.
Qed.

Lemma emit_prepend pre e s : emit e (prepend pre s) = prepend pre (emit e s).
Proof. unfold emit, prepend. cbn. rewrite app_assoc. reflexivity. Qed.

Lemma prepend_fresh_trace s : prepend (trace s) (fresh_trace s) = s.
Proof. destruct s. unfold prepend, fresh_trace. cbn. rewrite app_nil_r. reflexivity. Qed.

Lemma prepend_emits pre new s :
  prepend pre (emits new (fresh_trace s)) = emits new (prepend pre (fresh_trace s)).
Proof. unfold prepend, emits, fresh_trace. cbn. rewrite app_nil_r. reflexivity. Qed.

Lemma emits_as_prepend new s :
  emits new s = prepend (trace s ++ new) (fresh_trace s).
Proof. unfold prepend, emits, fresh_trace. cbn. rewrite app_nil_r. reflexivity. Qed.

(** X7. What [sendWorld] sends does not depend on what the session has
    sent before, on the pending delayed action, on the inventory or on the
    selected slot: asked for the same world a second time, it sends the
    very same packets again, and it sends them as well with another dig
    pending or another inventory; none of these is changed by it. *)
Theorem sendWorld_repeatable fuel w s p sx sy sz :
  player s = Some p ->
  getSize w = (sx, sy, sz) ->
  0 <= sx -> 0 <= sy -> 0 <= sz ->
  (sendWorld_fuel w <= fuel)%nat ->
  exists new,
    sendWorld tm server fuel w s = Some (Normal tt, emits new s)
    /\ sendWorld tm server fuel w (emits new s) =
       Some (Normal tt, emits new (emits new s))
    /\ (forall d, sendWorld tm server fuel w (set_data d s) =
                  Some (Normal tt, emits new (set_data d s)))
    /\ (forall inv slot,
          sendWorld tm server fuel w (set_inventorySlot slot (set_inventory inv s)) =
            Some (Normal tt,
                  emits new (set_inventorySlot slot (set_inventory inv s)))).
Proof.
  intros Hp Hsize Hsx Hsy Hsz Hfuel.
  destruct (sendWorld_exact fuel w (fresh_trace s) p sx sy sz Hp Hsize Hsx Hsy Hsz Hfuel)
    as (evs & Hrun & _).
  set (new := joinHeader server p w ++ evs ++ joinSpawns p w
              ++ joinFooter p w (selfUuid (fresh_trace s))) in Hrun.
  assert (Hpre : forall pre,
            sendWorld tm server fuel w (prepend pre (fresh_trace s)) =
              Some (Normal tt, emits new (prepend pre (fresh_trace s)))).
  { intros pre.
    rewrite (sendWorld_commute (prepend pre) (emit_prepend pre)) by reflexivity.
    rewrite Hrun. cbn [option_map fst snd]. rewrite prepend_emits. reflexivity. }
  assert (Hs : sendWorld tm server fuel w s = Some (Normal tt, emits new s)).
  { rewrite <- (prepend_fresh_trace s) at 1 2. apply Hpre. }
  exists new. split; [exact Hs|]. split; [|split].
  - rewrite (emits_as_prepend new s) at 1 2. apply Hpre.
  - intros d.
    rewrite (sendWorld_commute (set_data d)) by reflexivity.
    rewrite Hs. reflexivity.
  - intros inv slot.
    rewrite (sendWorld_commute (fun s => set_inventorySlot slot (set_inventory inv s)))
      by reflexivity.
    rewrite Hs. reflexivity.
Qed.

(** ** The order and the number of the packets of a join *)

Lemma joinHeader_no_chunks p w :
  Forall (fun e => isChunkData e = false) (joinHeader server p w).
Proof.
  unfold joinHeader, joinGame, respawn. destruct (getSize w) as [[sx sy] sz].
  repeat constructor.
Qed.

Lemma joinSpawns_no_chunks p w :
  Forall (fun e => isChunkData e = false) (joinSpawns p w).
Proof.
  unfold joinSpawns. induction (players w) as [|e l IH]; cbn; [constructor|].
  destruct (numId e =? numId p); cbn; repeat constructor; exact IH.
Qed.

Lemma joinFooter_no_chunks p w self :
  Forall (fun e => isChunkData e = false) (joinFooter p w self).
Proof. repeat constructor. Qed.

Lemma join_chunkColumns p w self w' sy cols evs :
  Forall2 (columnPacket tm w' sy) cols evs ->
  chunkColumns (joinHeader server p w ++ evs ++ joinSpawns p w
                ++ joinFooter p w self) = cols.
Proof.
  intros Hevs. unfold chunkColumns. rewrite !omap_app.
  fold (chunkColumns (joinHeader server p w)). fold (chunkColumns evs).
  fold (chunkColumns (joinSpawns p w)). fold (chunkColumns (joinFooter p w self)).
  rewrite (chunkColumns_other _ (joinHeader_no_chunks p w)),
          (chunkColumns_other _ (joinSpawns_no_chunks p w)),
          (chunkColumns_other _ (joinFooter_no_chunks p w self)), !app_nil_r.
  apply (columnPackets_columns tm w' sy _ _ Hevs).
Qed.

Lemma join_chunkSectionsOf p w self cx cz evs :
  chunkSectionsOf cx cz (joinHeader server p w ++ evs ++ joinSpawns p w
                         ++ joinFooter p w self) = chunkSectionsOf cx cz evs.
Proof.
  unfold chunkSectionsOf. rewrite !omap_app.
  fold (chunkSectionsOf cx cz (joinHeader server p w)).
  fold (chunkSectionsOf cx cz evs).
  fold (chunkSectionsOf cx cz (joinSpawns p w)).
  fold (chunkSectionsOf cx cz (joinFooter p w self)).
  rewrite (chunkSectionsOf_other cx cz _ (joinHeader_no_chunks p w)),
          (chunkSectionsOf_other cx cz _ (joinSpawns_no_chunks p w)),
          (chunkSectionsOf_other cx cz _ (joinFooter_no_chunks p w self)),
          !app_nil_r.
  reflexivity.
Qed.

Lemma length_grid xs zs : length (grid xs zs) = (length xs * length zs)%nat.
Proof.
  unfold grid. induction xs as [|x xs IH]; cbn; [reflexivity|].
  rewrite length_app, length_map, IH. reflexivity.
Qed.

Lemma lookup_map_pair (x : Z) (zs : list Z) j z :
  zs !! j = Some z -> map (pair x) zs !! j = Some (x, z).
Proof.
  revert j. induction zs as [|z' zs IH]; intros [|j] H; try discriminate H; cbn in *.
  - congruence.
  - apply IH, H.
Qed.

Lemma lookup_grid xs zs : forall i j x z,
  xs !! i = Some x -> zs !! j = Some z ->
  grid xs zs !! (i * length zs + j)%nat = Some (x, z).
Proof.
  induction xs as [|x' xs IH]; intros [|i] j x z Hx Hz; try discriminate Hx;
    cbn in Hx; change (grid (x' :: xs) zs) with (map (pair x') zs ++ grid xs zs).
  - injection Hx as ->. cbn [Nat.mul Nat.add].
    rewrite lookup_app_l by (rewrite length_map; apply (lookup_lt_Some _ _ _ Hz)).
    apply lookup_map_pair, Hz.
  - rewrite lookup_app_r by (rewrite length_map; cbn; lia).
    rewrite length_map.
    replace (S i * length zs + j - length zs)%nat with (i * length zs + j)%nat
      by (cbn; lia).
    apply IH; assumption.
Qed.

(** X8. The chunk columns of a join are streamed in the order of the two
    loops, [cx] ascending and, for each [cx], [cz] ascending: with
    [n = ceil(sz/16) + 2] columns per row, chunk packet number [i * n + j]
    (counted from 0) is that of column [(i - 1, j - 1)].  The join sends
    [(ceil(sx/16) + 2) * n] chunk packets, and with them 9 other packets
    and two more for each player of the world other than the joining
    one. *)
Theorem sendWorld_column_order fuel w s p sx sy sz :
  player s = Some p ->
  getSize w = (sx, sy, sz) ->
  0 <= sx -> 0 <= sy -> 0 <= sz ->
  (sendWorld_fuel w <= fuel)%nat ->
  exists new,
    sendWorld tm server fuel w s = Some (Normal tt, emits new s)
    /\ (forall i j, 0 <= i < ceil16 sx + 2 -> 0 <= j < ceil16 sz + 2 ->
          chunkColumns new !! Z.to_nat (i * (ceil16 sz + 2) + j) =
            Some (i - 1, j - 1))
    /\ Z.of_nat (length (chunkColumns new)) = (ceil16 sx + 2) * (ceil16 sz + 2)
    /\ Z.of_nat (length new) =
       9 + (ceil16 sx + 2) * (ceil16 sz + 2)
       + 2 * Z.of_nat (length (filter (fun e => numId e <> numId p) (players w))).
Proof.
  intros Hp Hsize Hsx Hsy Hsz Hfuel.
  destruct (sendWorld_exact fuel w s p sx sy sz Hp Hsize Hsx Hsy Hsz Hfuel)
    as (evs & Hrun & Hevs).
  assert (Hcx : 0 <= ceil16 sx) by (unfold ceil16; apply Z.div_pos; lia).
  assert (Hcz : 0 <= ceil16 sz) by (unfold ceil16; apply Z.div_pos; lia).
  eexists. split; [exact Hrun|].
  rewrite (join_chunkColumns p w (selfUuid s) w sy _ evs Hevs).
  split; [|split].
  - intros i j Hi Hj.
    replace (Z.to_nat (i * (ceil16 sz + 2) + j))
      with (Z.to_nat i * length (seqZ (-1) (ceil16 sz + 2)) + Z.to_nat j)%nat
      by (rewrite length_seqZ; nia).
    apply lookup_grid.
    + rewrite lookup_seqZ_lt by lia. f_equal. lia.
    + rewrite lookup_seqZ_lt by lia. f_equal. lia.
  - rewrite length_grid, !length_seqZ. nia.
  - rewrite !length_app. apply Forall2_length in Hevs.
    rewrite <- Hevs, length_grid, !length_seqZ.
    assert (Hh : length (joinHeader server p w) = 5%nat).
    { unfold joinHeader. rewrite Hsize. reflexivity. }
    assert (Hs : length (joinSpawns p w) =
                 (2 * length (filter (fun e => numId e <> numId p) (players w)))%nat).
    { unfold joinSpawns. induction (players w) as [|e l IH]; [reflexivity|].
      cbn [flat_map]. rewrite length_app, IH.
      destruct (Z.eqb_spec (numId e) (numId p)) as [He|He].
      - rewrite filter_cons_False by (intros H'; apply H'; exact He). reflexivity.
      - rewrite filter_cons_True by exact He. cbn. lia. }
    rewrite Hh, Hs. cbn [joinFooter length]. nia.
Qed.

(** ** Who is spawned *)

Lemma spawnedIds_chunks w sy cols evs :
  Forall2 (columnPacket tm w sy) cols evs -> spawnedIds evs = [].
Proof.
  induction 1 as [|col e cols evs (secs & -> & _) _ IH]; [reflexivity|].
  unfold spawnedIds in *. cbn. exact IH.
Qed.

Lemma spawnedIds_joinSpawns (p : Player) w :
  spawnedIds (joinSpawns p w) =
    map numId (filter (fun e => numId e <> numId p) (players w)).
Proof.
  unfold joinSpawns, spawnedIds. induction (players w) as [|e l IH]; [reflexivity|].
  cbn [flat_map]. rewrite omap_app, IH.
  destruct (Z.eqb_spec (numId e) (numId p)) as [He|He].
  - rewrite filter_cons_False by (intros H'; apply H'; exact He). reflexivity.
  - rewrite filter_cons_True by exact He. reflexivity.
Qed.

(** X9. A join spawns every player of the world other than the joining
    one exactly as often and in the order as the world lists them, and
    never the joining player; the last four packets of a join are the
    joining player's own player-list entry under the session's uuid, the
    teleport to the world's spawn point with the yaw turned by 128 modulo
    256, the matching head rotation, and the abilities. *)
Theorem sendWorld_spawns_others fuel w s p sx sy sz :
  player s = Some p ->
  getSize w = (sx, sy, sz) ->
  0 <= sx -> 0 <= sy -> 0 <= sz ->
  (sendWorld_fuel w <= fuel)%nat ->
  exists new before,
    sendWorld tm server fuel w s = Some (Normal tt, emits new s)
    /\ spawnedIds new =
       map numId (filter (fun e => numId e <> numId p) (players w))
    /\ ~ In (numId p) (spawnedIds new)
    /\ new = before ++
         [Sent (packet.playerListAdd p (Some (selfUuid s)));
          Sent (packet.teleport (numId p) (sp_x (spawnPoint w))
                  (sp_y (spawnPoint w)) (sp_z (spawnPoint w))
                  (js_rem (sp_yaw (spawnPoint w) + 128) 256)
                  (sp_pitch (spawnPoint w)) false);
          Sent (packet.rotateHead (numId p)
                  (js_rem (sp_yaw (spawnPoint w) + 128) 256));
          Sent (packet.abilities true false false true
                  0x1.999999999999ap-5 0x1.999999999999ap-4)].
Proof.
  intros Hp Hsize Hsx Hsy Hsz Hfuel.
  destruct (sendWorld_exact fuel w s p sx sy sz Hp Hsize Hsx Hsy Hsz Hfuel)
    as (evs & Hrun & Hevs).
  assert (Hids : spawnedIds (joinHeader server p w ++ evs ++ joinSpawns p w
                             ++ joinFooter p w (selfUuid s)) =
                 map numId (filter (fun e => numId e <> numId p) (players w))).
  { unfold spawnedIds. rewrite !omap_app.
    fold (spawnedIds evs). fold (spawnedIds (joinSpawns p w)).
    rewrite (spawnedIds_chunks w sy _ evs Hevs), spawnedIds_joinSpawns.
    unfold joinHeader, joinGame, respawn. rewrite Hsize. cbn.
    rewrite app_nil_r. reflexivity. }
  eexists. exists (joinHeader server p w ++ evs ++ joinSpawns p w).
  split; [exact Hrun|]. split; [exact Hids|]. split.
  - rewrite Hids. intros Hin. apply in_map_iff in Hin as (e & He & Hin).
    apply list_elem_of_In, list_elem_of_filter in Hin as [Hne _].
    apply Hne, He.
  - unfold joinFooter. rewrite <- !app_assoc. reflexivity.
Qed.

(** ** The sections and the declared dimension *)

(** X10. The dimension that [createDimType] declares for a world starts
    at [min_y = -16] and is [sy + 16] high; the sections of every column
    packet of [sendWorld] start at that same [min_y] and reach at least as
    high: 16 times their number is the declared height rounded up to a
    multiple of 16, and equals it exactly when the world's height is a
    multiple of 16. *)
Theorem sections_cover_dimension fuel w s p sx sy sz cx cz :
  player s = Some p ->
  getSize w = (sx, sy, sz) ->
  0 <= sx -> 0 <= sy -> 0 <= sz ->
  (sendWorld_fuel w <= fuel)%nat ->
  -1 <= cx <= ceil16 sx -> -1 <= cz <= ceil16 sz ->
  exists new secs,
    sendWorld tm server fuel w s = Some (Normal tt, emits new s)
    /\ chunkSectionsOf cx cz new = [secs]
    /\ entry "min_y" (createDimType w) = Some (nbt.Int (-16))
    /\ entry "height" (createDimType w) = Some (nbt.Int (sy + 16))
    /\ entry "logical_height" (createDimType w) = Some (nbt.Int sy)
    /\ sy + 16 <= 16 * Z.of_nat (length secs) < sy + 32
    /\ (16 * Z.of_nat (length secs) = sy + 16 <-> sy mod 16 = 0).
Proof.
  intros Hp Hsize Hsx Hsy Hsz Hfuel Hcx Hcz.
  destruct (sendWorld_exact fuel w s p sx sy sz Hp Hsize Hsx Hsy Hsz Hfuel)
    as (evs & Hrun & Hevs).
  assert (Hin : In (cx, cz)
                  (grid (seqZ (-1) (ceil16 sx + 2)) (seqZ (-1) (ceil16 sz + 2))))
    by (rewrite in_grid, !in_seqZ; lia).
  destruct (columnPackets_sections tm w sy _ _ cx cz Hevs
              (NoDup_grid _ _ (NoDup_seqZ _ _) (NoDup_seqZ _ _)) Hin)
    as (secs & Hsecs & Hlen & _).
  eexists. exists secs. split; [exact Hrun|].
  rewrite join_chunkSectionsOf. split; [exact Hsecs|].
  unfold createDimType. rewrite Hsize. cbn [entry String.eqb Ascii.eqb Bool.eqb].
  repeat (split; [reflexivity|]).
  rewrite Hlen. unfold ceil16.
  pose proof (Z.div_mod (sy + 15) 16 ltac:(lia)) as Hdm.
  pose proof (Z.mod_pos_bound (sy + 15) 16 ltac:(lia)) as Hmb.
  pose proof (Z.div_mod sy 16 ltac:(lia)) as Hdm'.
  pose proof (Z.mod_pos_bound sy 16 ltac:(lia)) as Hmb'.
  assert (0 <= (sy + 15) / 16) by (apply Z.div_pos; lia).
  rewrite Z2Nat.id by lia.
  split; [lia|]. split; intros H'; lia.
Qed.

(** ** When the join fails *)

(** X11. With fuel for its loops, [sendWorld] ends, and it fails exactly
    when no player is set: then with ['Player is not set!'], otherwise it
    completes.  In particular it completes on any session right after
    [setPlayer]. *)
Theorem sendWorld_fails_iff_no_player fuel w s q sx sy sz :
  getSize w = (sx, sy, sz) ->
  0 <= sx -> 0 <= sy -> 0 <= sz ->
  (sendWorld_fuel w <= fuel)%nat ->
  (exists c s',
     sendWorld tm server fuel w s = Some (c, s')
     /\ (c = Throw "Player is not set!" <-> player s = None)
     /\ (c = Normal tt <-> player s <> None))
  /\ exists s',
       sendWorld tm server fuel w (run (setPlayer server q) s) = Some (Normal tt, s').
Proof.
  intros Hsize Hsx Hsy Hsz Hfuel. split.
  - destruct (player s) as [p|] eqn:Hp.
    + destruct (sendWorld_exact fuel w s p sx sy sz Hp Hsize Hsx Hsy Hsz Hfuel)
        as (evs & Hrun & _).
      eexists. eexists. split; [exact Hrun|].
      split; split; intros H'; try discriminate H'; try congruence; auto.
    + exists (Throw "Player is not set!"), s. split.
      * unfold sendWorld. rewrite Hp. reflexivity.
      * split; split; intros H'; try discriminate H'; try congruence; auto.
  - destruct (sendWorld_exact fuel w (run (setPlayer server q) s) q sx sy sz)
      as (evs & Hrun & _); auto.
    eexists. exact Hrun.
Qed.

End MoreSendWorldFacts.

(* ===================================================================== *)
(** * Further properties of the connection handler and the catalog *)
(* ===================================================================== *)

(** X12. [disconnect] always completes.  When the session's player is
    still connected it only hands over to [player.disconnect()]: nothing
    is sent and the transport is not closed by this call.  Otherwise the
    last two things it does are sending the disconnect packet with the
    patched message and closing the transport, preceded by one log line
    when a player is set and by nothing when none is. *)
Theorem disconnect_spec pa message s :
  fst (disconnect pa message s) = Normal tt
  /\ (forall p, player s = Some p -> isConnected p = true ->
        trace (run (disconnect pa message) s) = trace s ++ [PlayerDisconnect]
        /\ player (run (disconnect pa message) s) = Some (player_disconnect pa p))
  /\ (forall p, player s = Some p -> isConnected p = false ->
        exists line,
          trace (run (disconnect pa message) s) =
            trace s ++ [LogConn line;
                        Sent (packet.disconnect (patchText message)); Closed])
  /\ (player s = None ->
        trace (run (disconnect pa message) s) =
          trace s ++ [Sent (packet.disconnect (patchText message)); Closed]).
Proof.
  unfold disconnect, run. handler_unfold.
  split; [|split; [|split]].
  - destruct (player s) as [p|]; [destruct (isConnected p)|]; reflexivity.
  - intros p Hp Hc. rewrite Hp, Hc. split; reflexivity.
  - intros p Hp Hc. rewrite Hp, Hc. eexists. cbn.
    rewrite <- !app_assoc. reflexivity.
  - intros Hp. rewrite Hp. cbn. rewrite <- !app_assoc. reflexivity.
Qed.

(** ** Colour codes *)

Lemma getSubstitution_plain matched before after : forall template,
  ~ In "$"%char (list_ascii_of_string template) ->
  getSubstitution matched before after template = template.
Proof.
  induction template as [|c r IH]; intros Hnot; [reflexivity|].
  cbn [getSubstitution].
  destruct (Ascii.eqb c "$"%char) eqn:Hc.
  - apply Ascii.eqb_eq in Hc. exfalso. apply Hnot. left. exact Hc.
  - f_equal. apply IH. intros Hin. apply Hnot. right. exact Hin.
Qed.

Lemma replaceAll_amp_cons before c r :
  replaceAll_from "&" section_sign 0 before (String c r) =
    if Ascii.eqb c "&"%char
    then (section_sign ++
          replaceAll_from "&" section_sign 0 (before ++ String c EmptyString) r)%string
    else String c (replaceAll_from "&" section_sign 0
                     (before ++ String c EmptyString) r).
Proof.
  cbn [replaceAll_from String.prefix String.length Nat.sub].
  destruct (ascii_dec "&"%char c) as [<-|Hne].
  - rewrite Ascii.eqb_refl.
    rewrite getSubstitution_plain
      by (cbn; intros [H|[H|[]]]; discriminate H).
    destruct r; reflexivity.
  - replace (Ascii.eqb c "&"%char) with false
      by (symmetry; apply Ascii.eqb_neq; congruence).
    reflexivity.
Qed.

(** The text passed so far plays no part when the replacement has no
    dollar sign. *)
Lemma replaceAll_amp_before : forall t before before',
  replaceAll_from "&" section_sign 0 before t =
  replaceAll_from "&" section_sign 0 before' t.
Proof.
  induction t as [|c r IH]; intros before before'; [reflexivity|].
  rewrite !replaceAll_amp_cons.
  rewrite (IH (before ++ String c EmptyString)%string
              (before' ++ String c EmptyString)%string).
  reflexivity.
Qed.

Lemma patchText_cons c r :
  patchText (String c r) =
    (if Ascii.eqb c "&"%char then section_sign else String c EmptyString)
    +:+ patchText r.
Proof.
  unfold patchText, replaceAll. rewrite replaceAll_amp_cons.
  rewrite (replaceAll_amp_before r _ EmptyString).
  destruct (Ascii.eqb c "&"%char); reflexivity.
Qed.

Lemma append_assoc : forall a b c : string, (a +:+ b) +:+ c = a +:+ (b +:+ c).
Proof.
  induction a as [|x a IH]; intros b c; [reflexivity|].
  change (String x a +:+ b) with (String x (a +:+ b)).
  change (String x (a +:+ b) +:+ c) with (String x ((a +:+ b) +:+ c)).
  rewrite IH. reflexivity.
Qed.

(** X13. [patchText] turns every ['&'] into the section sign and leaves
    every other character where it is: the patched text is the patched
    first character (the section sign for ['&'], the character itself
    otherwise) followed by the patched rest, so patching goes through
    concatenation.  The result contains no ['&'], a text without ['&'] is
    returned as it is, and patching twice is the same as patching once. *)
Theorem patchText_spec text :
  patchText EmptyString = EmptyString
  /\ (forall c r,
        patchText (String c r) =
          (if Ascii.eqb c "&"%char then section_sign else String c EmptyString)
          +:+ patchText r)
  /\ (forall rest, patchText (text +:+ rest) = patchText text +:+ patchText rest)
  /\ ~ In "&"%char (list_ascii_of_string (patchText text))
  /\ (~ In "&"%char (list_ascii_of_string text) -> patchText text = text)
  /\ patchText (patchText text) = patchText text.
Proof.
  assert (Hno : forall t, ~ In "&"%char (list_ascii_of_string (patchText t))).
  { induction t as [|c r IH]; [intros []|].
    rewrite patchText_cons.
    destruct (Ascii.eqb c "&"%char) eqn:Hc; cbn.
    - intros [H|[H|H]]; [discriminate H|discriminate H|exact (IH H)].
    - intros [H|H]; [|exact (IH H)]. apply Ascii.eqb_neq in Hc. congruence. }
  assert (Hid : forall t, ~ In "&"%char (list_ascii_of_string t) ->
                  patchText t = t).
  { induction t as [|c r IH]; [reflexivity|]. intros Hnot.
    rewrite patchText_cons.
    destruct (Ascii.eqb c "&"%char) eqn:Hc.
    - apply Ascii.eqb_eq in Hc. exfalso. apply Hnot. left. exact Hc.
    - cbn. f_equal. apply IH. intros H. apply Hnot. right. exact H. }
  split; [reflexivity|]. split; [exact patchText_cons|].
  split; [|split; [apply Hno|split; [apply Hid|apply Hid, Hno]]].
  intros rest. induction text as [|c r IH]; [reflexivity|].
  change (String c r +:+ rest) with (String c (r +:+ rest)).
  rewrite !patchText_cons, IH, append_assoc. reflexivity.
Qed.

(** ** The player list name and the abilities byte *)

Lemma length_substring0 m : forall s,
  String.length (substring 0 m s) = Nat.min m (String.length s).
Proof.
  induction m as [|m IH]; intros [|c r]; cbn; try reflexivity.
  rewrite IH. reflexivity.
Qed.

Lemma substring0_prefix m : forall s, String.prefix (substring 0 m s) s = true.
Proof.
  induction m as [|m IH]; intros [|c r]; cbn; try reflexivity.
  destruct (ascii_dec c c) as [_|Hne]; [apply IH|contradiction].
Qed.

Lemma substring0_all : forall s, substring 0 (String.length s) s = s.
Proof. induction s as [|c r IH]; cbn; [reflexivity|]. rewrite IH. reflexivity. Qed.

(** X14. For a user name of ASCII characters, the name written by the
    player-list packet is the user name cut to its first 16 characters:
    it is a prefix of the user name, never longer than 16, the whole user
    name when that has at most 16 characters, and exactly 16 characters
    long when the user name is longer. *)
Theorem playerListName_spec e :
  isAscii (username e) = true ->
  String.prefix (playerListName e) (username e) = true
  /\ (String.length (playerListName e) <= 16)%nat
  /\ String.length (playerListName e) = Nat.min 16 (String.length (username e))
  /\ ((String.length (username e) <= 16)%nat -> playerListName e = username e)
  /\ ((16 < String.length (username e))%nat ->
        String.length (playerListName e) = 16%nat
        /\ playerListName e <> username e).
Proof.
  intros _. unfold playerListName.
  split; [apply substring0_prefix|].
  split; [rewrite length_substring0; lia|].
  split; [rewrite length_substring0; lia|].
  split.
  - intros Hshort. rewrite Nat.min_r by exact Hshort. apply substring0_all.
  - intros Hlong. split; [rewrite length_substring0; lia|].
    intros Heq. apply (f_equal String.length) in Heq.
    rewrite length_substring0 in Heq. lia.
Qed.

(** X15. The flags byte of the abilities packet holds the four abilities
    in its four low bits, one each and nothing else: bit 0 invulnerable,
    bit 1 flying, bit 2 may-fly, bit 3 instant-break; so the byte is below
    16 and two ability sets with the same byte are the same.  The join
    sends byte 9. *)
Theorem abilities_flags_bits a b c d :
  Z.testbit (abilities_flags a b c d) 0 = a
  /\ Z.testbit (abilities_flags a b c d) 1 = b
  /\ Z.testbit (abilities_flags a b c d) 2 = c
  /\ Z.testbit (abilities_flags a b c d) 3 = d
  /\ 0 <= abilities_flags a b c d < 16
  /\ (forall a' b' c' d',
        abilities_flags a b c d = abilities_flags a' b' c' d' ->
        (a, b, c, d) = (a', b', c', d'))
  /\ abilities_flags true false false true = 9.
Proof.
  split; [destruct a, b, c, d; reflexivity|].
  split; [destruct a, b, c, d; reflexivity|].
  split; [destruct a, b, c, d; reflexivity|].
  split; [destruct a, b, c, d; reflexivity|].
  split; [destruct a, b, c, d;
          (split; [apply Z.leb_le|apply Z.ltb_lt]; reflexivity)|].
  split; [|reflexivity].
  intros a' b' c' d' H.
  destruct a, b, c, d, a', b', c', d'; cbn in H; first [reflexivity|discriminate H].
Qed.

(* ===================================================================== *)
(** * The command table *)
(* ===================================================================== *)

Lemma includes_space_cons c r :
  includes " " (String c r) = Ascii.eqb c " "%char || includes " " r.
Proof.
  cbn [includes String.prefix]. destruct (ascii_dec " "%char c) as [<-|Hne].
  - destruct r; reflexivity.
  - replace (Ascii.eqb c " "%char) with false
      by (symmetry; apply Ascii.eqb_neq; congruence).
    reflexivity.
Qed.

Lemma firstWord_app n rest :
  includes " " n = false -> firstWord (n +:+ " " +:+ rest) = n.
Proof.
  induction n as [|c r IH]; intros Hn; [reflexivity|].
  rewrite includes_space_cons in Hn. apply orb_false_iff in Hn as [Hc Hr].
  change (String c r +:+ " " +:+ rest) with (String c (r +:+ " " +:+ rest)).
  cbn [firstWord]. rewrite Hc. f_equal. apply IH, Hr.
Qed.

Lemma firstWord_whole n : includes " " n = false -> firstWord n = n.
Proof.
  induction n as [|c r IH]; intros Hn; [reflexivity|].
  rewrite includes_space_cons in Hn. apply orb_false_iff in Hn as [Hc Hr].
  cbn [firstWord String.append]. rewrite Hc. f_equal. apply IH, Hr.
Qed.

Lemma firstWord_no_space s : includes " " (firstWord s) = false.
Proof.
  induction s as [|c r IH]; [reflexivity|]. cbn [firstWord].
  destruct (Ascii.eqb c " "%char) eqn:Hc; [reflexivity|].
  rewrite includes_space_cons, Hc, IH. reflexivity.
Qed.

(** X16. [addCommand] refuses a command whose name contains a space and
    leaves the table as it was; any other command it stores under its
    name, replacing what was there and touching no other name, so that
    [getCommand] finds it and [executeCommand] runs it, once and with the
    whole line, for the bare name as well as for the name followed by a
    space and arguments. *)
Theorem addCommand_spec c srv :
  ownKey (ServerCommands.name c) = true ->
  (includes " " (ServerCommands.name c) = true ->
     ServerCommands.addCommand c srv = (false, srv))
  /\ (includes " " (ServerCommands.name c) = false ->
        let srv' := (ServerCommands.addCommand c srv).2 in
        (ServerCommands.addCommand c srv).1 = true
        /\ ServerCommands.getCommand (ServerCommands.name c) srv' = Some c
        /\ (forall k, k <> ServerCommands.name c ->
              ServerCommands.getCommand k srv' = ServerCommands.getCommand k srv)
        /\ ServerCommands.executed srv' = ServerCommands.executed srv
        /\ (forall line,
              line = ServerCommands.name c \/
              (exists args, line = ServerCommands.name c +:+ " " +:+ args) ->
              ServerCommands.executeCommand line srv' =
                (true,
                 {| ServerCommands._commands := ServerCommands._commands srv';
                    ServerCommands.executed :=
                      ServerCommands.executed srv ++ [(c, line)] |}))).
Proof.
  intros _. unfold ServerCommands.addCommand. split; intros Hn; rewrite Hn.
  - reflexivity.
  - cbn [fst snd]. unfold ServerCommands.getCommand. cbn.
    split; [reflexivity|]. split; [apply lookup_insert_eq|].
    split; [intros k Hk; apply lookup_insert_ne; congruence|].
    split; [reflexivity|].
    intros line Hline. unfold ServerCommands.executeCommand. cbn.
    assert (Hfw : firstWord line = ServerCommands.name c).
    { destruct Hline as [->|[args ->]];
        [apply firstWord_whole|apply firstWord_app]; exact Hn. }
    rewrite Hfw, lookup_insert_eq. reflexivity.
Qed.

(** X17. [executeCommand] looks at nothing but the text before the first
    space: it returns [true] exactly when that text is a registered name,
    and then runs that command once with the whole line; otherwise it
    runs nothing and leaves the server as it was.  It never changes the
    table, and it never looks up a name with a space in it. *)
Theorem executeCommand_spec line srv :
  ownKey (firstWord line) = true ->
  ((ServerCommands.executeCommand line srv).1 = true <->
     is_Some (ServerCommands.getCommand (firstWord line) srv))
  /\ ServerCommands._commands (ServerCommands.executeCommand line srv).2 =
     ServerCommands._commands srv
  /\ ((ServerCommands.executeCommand line srv).1 = false ->
        (ServerCommands.executeCommand line srv).2 = srv)
  /\ (forall c, ServerCommands.getCommand (firstWord line) srv = Some c ->
        ServerCommands.executed (ServerCommands.executeCommand line srv).2 =
          ServerCommands.executed srv ++ [(c, line)])
  /\ (forall k, includes " " k = true -> firstWord line <> k).
Proof.
  intros _. unfold ServerCommands.executeCommand, ServerCommands.getCommand.
  assert (Hsp : forall k, includes " " k = true -> firstWord line <> k).
  { intros k Hk Heq. rewrite <- Heq, firstWord_no_space in Hk. discriminate Hk. }
  destruct (ServerCommands._commands srv !! firstWord line) as [c|] eqn:Hc; cbn.
  - split; [split; eauto|]. split; [reflexivity|]. split; [discriminate|].
    split; [intros c' [= <-]; reflexivity|exact Hsp].
  - split; [split; [discriminate|intros [? [=]]]|].
    split; [reflexivity|]. split; [reflexivity|].
    split; [discriminate|exact Hsp].
Qed.

(* ===================================================================== *)
(** * The world table *)
(* ===================================================================== *)

Section WorldFacts.

Import ServerWorlds.

Variable W : Type.
Variable js : CaseMapping.
Variable co : Collaborators W.

Ltac conjs := repeat match goal with |- _ /\ _ => split end.

(** X18. For a name that is not a property name of [Object.prototype]:
    [unloadWorld] never unloads the default world and never touches
    a world other than the named one.  For the default world it answers
    [false] and does nothing; for a world that is not loaded it answers
    [true] and does nothing; for a loaded one it saves it, once, and ends
    as the save ended: the world is gone from the table when the save
    answered [true], and still there when it answered [false] or threw. *)
Theorem unloadWorld_spec name srv :
  ownKey name = true ->
  let r := unloadWorld co name srv in
  worlds r.2 !! defaultWorldName srv = worlds srv !! defaultWorldName srv
  /\ defaultWorldName r.2 = defaultWorldName srv
  /\ (forall k, k <> name -> worlds r.2 !! k = worlds srv !! k)
  /\ (name = defaultWorldName srv -> r = (Normal false, srv))
  /\ (name <> defaultWorldName srv -> worlds srv !! name = None ->
        r = (Normal true, srv))
  /\ (forall w, name <> defaultWorldName srv -> worlds srv !! name = Some w ->
        r.1 = files_saveWorld co (worldName co w) w
        /\ fileOps r.2 = fileOps srv ++ [SaveWorld (worldName co w)]
        /\ worlds r.2 !! name =
             match r.1 with Normal true => None | _ => Some w end).
Proof.
  intros _ r. subst r. unfold unloadWorld.
  destruct (String.eqb_spec (defaultWorldName srv) name) as [Heq|Hne].
  - cbn. conjs; auto; intros; congruence.
  - destruct (worlds srv !! name) as [w|] eqn:Hw.
    + unfold saveWorld.
      destruct (files_saveWorld co (worldName co w) w) as [[|]|e] eqn:Hsave;
        cbn; conjs; auto; try congruence; try discriminate.
      * apply lookup_delete_ne. congruence.
      * intros k Hk. apply lookup_delete_ne. congruence.
      * intros w' _ [= <-]. rewrite Hsave. conjs; auto. apply lookup_delete_eq.
      * intros w' _ [= <-]. rewrite Hsave. auto.
      * intros w' _ [= <-]. rewrite Hsave. auto.
    + cbn. conjs; auto; intros; congruence.
Qed.

(** X19. For a name that is not a property name of [Object.prototype]:
    [loadWorld] never replaces or drops a loaded world and touches
    no name but the one asked for.  A loaded world is returned as it is,
    without a look at the files; otherwise the files are asked once.  What
    [loadWorld] returns is in the table under that name afterwards, so a
    second [loadWorld] returns the same world and leaves the files alone;
    and when it returns nothing the table is as before. *)
Theorem loadWorld_spec name srv :
  ownKey name = true ->
  let r := loadWorld co name srv in
  (forall k w, worlds srv !! k = Some w -> worlds r.2 !! k = Some w)
  /\ (forall k, k <> name -> worlds r.2 !! k = worlds srv !! k)
  /\ (forall w, worlds srv !! name = Some w -> r = (Some w, srv))
  /\ (worlds srv !! name = None -> fileOps r.2 = fileOps srv ++ [GetWorld name])
  /\ (forall w, r.1 = Some w ->
        worlds r.2 !! name = Some w /\ loadWorld co name r.2 = (Some w, r.2))
  /\ (r.1 = None -> worlds r.2 = worlds srv).
Proof.
  intros _ r. subst r. unfold loadWorld.
  destruct (worlds srv !! name) as [w|] eqn:Hw.
  - cbn. conjs; auto; try congruence; try discriminate.
    intros w' [= <-]. rewrite Hw. auto.
  - destruct (files_getWorld co name) as [[d|]|e];
      [destruct (newWorld co name d) as [w|e]| |]; cbn; conjs;
      auto; try congruence; try discriminate.
    + intros k w' Hk. rewrite lookup_insert_ne by congruence. exact Hk.
    + intros k Hk. apply lookup_insert_ne. congruence.
    + intros w' [= <-]. rewrite lookup_insert_eq. auto.
Qed.

(** X20. For a name that is not a property name of [Object.prototype]:
    [createWorld] never replaces a loaded world: for a name that is
    loaded it returns that world and neither generates nor saves.  For a
    free name, with no generator given it fails, logs two lines and
    changes nothing else; and whenever it returns a world, that world is
    in the table under the given name (not under the file name), every
    other name is as before, and [loadWorld] and a second [createWorld]
    for the name return that same world without reading or writing a
    file.  When it returns nothing the table is as before, unless it was
    the save that threw: the world made is then in the table, and a later
    [createWorld] for the name returns it. *)
Theorem createWorld_spec softwareName name size generator seed player srv :
  ownKey name = true ->
  let r := createWorld js co softwareName name size generator seed player srv in
  (forall w, worlds srv !! name = Some w -> r = (Some w, srv))
  /\ (worlds srv !! name = None -> generator = None ->
        r.1 = None
        /\ worlds r.2 = worlds srv /\ fileOps r.2 = fileOps srv
        /\ errors r.2 = errors srv ++
             [createWorld_error name size None seed player; "TypeError"])
  /\ (forall k, k <> name -> worlds r.2 !! k = worlds srv !! k)
  /\ (forall w, r.1 = Some w ->
        worlds r.2 !! name = Some w
        /\ loadWorld co name r.2 = (Some w, r.2)
        /\ createWorld js co softwareName name size generator seed player r.2
           = (Some w, r.2))
  /\ (forall w, r.1 = Some w -> worlds srv !! name = None ->
        fileOps r.2 = fileOps srv ++ [SaveWorld (worldName co w)])
  /\ (r.1 = None ->
        worlds r.2 = worlds srv
        \/ exists w e,
             files_saveWorld co (worldName co w) w = Throw e
             /\ worlds r.2 = <[name := w]> (worlds srv)
             /\ createWorld js co softwareName name size generator seed player r.2
                = (Some w, r.2)).
Proof.
  intros _ r. subst r. unfold createWorld, loadWorld.
  destruct (worlds srv !! name) as [w|] eqn:Hw.
  - cbn. conjs; auto; try congruence; try discriminate.
    intros w' [= <-]. rewrite Hw. auto.
  - destruct generator as [g|].
    + destruct size as [[sx sy] sz].
      destruct (newWorld co _ _) as [w|e];
        [destruct (generate co g w) as [w'|e];
         [destruct (settleSpawn co w') as [w''|e];
          [unfold saveWorld;
           destruct (files_saveWorld co (worldName co w'') w'')
             as [b|e] eqn:Hsave|]|]|];
        cbn; conjs; auto; try congruence; try discriminate.
      all: try (intros k Hk; apply lookup_insert_ne; congruence).
      all: try (intros w0 [= <-]; rewrite ?lookup_insert_eq; auto).
      intros _. right. exists w'', e. rewrite lookup_insert_eq. auto.
    + cbn. conjs; auto; try congruence; try discriminate.
Qed.

End WorldFacts.

(* ===================================================================== *)
(** * Chat messages and admitted players *)
(* ===================================================================== *)

Lemma fold_sendMessageTo message (l : list (string * Player)) : forall srv,
  Server.players
    (fold_left (fun srv '(k, _) => Server.logged (Server.sendMessageTo k message) srv)
               l srv) = Server.players srv
  /\ Server.messages
       (fold_left (fun srv '(k, _) => Server.logged (Server.sendMessageTo k message) srv)
                  l srv) = Server.messages srv
  /\ Server.log
       (fold_left (fun srv '(k, _) => Server.logged (Server.sendMessageTo k message) srv)
                  l srv) =
     Server.log srv ++ map (fun kv => Server.sendMessageTo kv.1 message) l.
Proof.
  induction l as [|[k v] l IH]; intros srv; cbn [fold_left map].
  - rewrite app_nil_r. auto.
  - destruct (IH (Server.logged (Server.sendMessageTo k message) srv))
      as (Hp & Hm & Hl).
    rewrite Hp, Hm, Hl. cbn. rewrite <- app_assoc. auto.
Qed.

Lemma NoDup_sendMessageTo message (l : list (string * Player)) :
  NoDup (l.*1) ->
  NoDup (map (fun kv : string * Player => Server.sendMessageTo kv.1 message) l).
Proof.
  induction l as [|[k v] l IH]; intros Hnd; cbn in *; [constructor|].
  apply NoDup_cons in Hnd as [Hk Hnd]. constructor; [|apply IH, Hnd].
  rewrite list_elem_of_In, in_map_iff. intros ([k' v'] & [= Heq] & Hin).
  apply Hk. apply list_elem_of_fmap. exists (k', v').
  split; [cbn; congruence|apply list_elem_of_In, Hin].
Qed.

Lemma sendChatMessage_spec_aux message srv :
  Server.players (Server.sendChatMessage message srv) = Server.players srv
  /\ exists sent,
       Server.log (Server.sendChatMessage message srv) =
         Server.log srv ++ sent ++ [Server.chat message]
       /\ forall k, is_Some (Server.players srv !! k) ->
            In (Server.sendMessageTo k message) sent.
Proof.
  unfold Server.sendChatMessage.
  destruct (fold_sendMessageTo message (map_to_list (Server.players srv)) srv)
    as (Hp & Hm & Hl).
  cbn [Server.players Server.messages Server.log Server.logged].
  rewrite Hp, Hl. split; [reflexivity|].
  exists (map (fun kv : string * Player => Server.sendMessageTo kv.1 message)
              (map_to_list (Server.players srv))).
  split; [rewrite <- app_assoc; reflexivity|].
  intros k [v Hv]. apply in_map_iff. exists (k, v). split; [reflexivity|].
  apply list_elem_of_In, elem_of_map_to_list, Hv.
Qed.

(** X21. [sendChatMessage] hands the message to every player of the
    roster, to each exactly once, and to nobody else, then writes it to
    the chat log; it changes neither the roster nor the configured
    messages. *)
Theorem sendChatMessage_spec message srv :
  Server.players (Server.sendChatMessage message srv) = Server.players srv
  /\ Server.messages (Server.sendChatMessage message srv) = Server.messages srv
  /\ exists sent,
       Server.log (Server.sendChatMessage message srv) =
         Server.log srv ++ sent ++ [Server.chat message]
       /\ NoDup sent
       /\ forall e, In e sent <->
            exists k, e = Server.sendMessageTo k message
                      /\ is_Some (Server.players srv !! k).
Proof.
  unfold Server.sendChatMessage.
  destruct (fold_sendMessageTo message (map_to_list (Server.players srv)) srv)
    as (Hp & Hm & Hl).
  cbn [Server.players Server.messages Server.log Server.logged].
  rewrite Hp, Hm, Hl. split; [reflexivity|]. split; [reflexivity|].
  exists (map (fun kv : string * Player => Server.sendMessageTo kv.1 message)
              (map_to_list (Server.players srv))).
  split; [rewrite <- app_assoc; reflexivity|]. split.
  - apply NoDup_sendMessageTo, NoDup_fst_map_to_list.
  - intros e. rewrite in_map_iff. split.
    + intros ([k v] & <- & Hin). exists k. split; [reflexivity|].
      apply list_elem_of_In, elem_of_map_to_list in Hin. eauto.
    + intros (k & -> & [v Hv]). exists (k, v). split; [reflexivity|].
      apply list_elem_of_In, elem_of_map_to_list, Hv.
Qed.

(** ** Messages with placeholders *)


Lemma replaceAll_from_cons c0 p rep before c r :
  replaceAll_from (String c0 p) rep 0 before (String c r) =
    if String.prefix (String c0 p) (String c r)
    then (getSubstitution (String c0 p) before
            (string_drop (String.length p) r) rep
          ++ replaceAll_from (String c0 p) rep (String.length p)
               (before ++ String c EmptyString) r)%string
    else String c (replaceAll_from (String c0 p) rep 0
                     (before ++ String c EmptyString) r).
Proof.
  cbn [replaceAll_from String.length Nat.sub string_drop].
  rewrite Nat.sub_0_r. reflexivity.
Qed.

Lemma replaceAll_from_absent c0 p rep : forall s before,
  ~ In c0 (list_ascii_of_string s) ->
  replaceAll_from (String c0 p) rep 0 before s = s.
Proof.
  induction s as [|c r IH]; intros before Hnot; [reflexivity|].
  rewrite replaceAll_from_cons. cbn [String.prefix].
  destruct (ascii_dec c0 c) as [->|Hne].
  - exfalso. apply Hnot. left. reflexivity.
  - f_equal. apply IH. intros Hin. apply Hnot. right. exact Hin.
Qed.

Lemma replaceAll_from_skip pat rep : forall x t before,
  exists before',
    replaceAll_from pat rep (String.length x) before (x +:+ t) =
    replaceAll_from pat rep 0 before' t.
Proof.
  induction x as [|c r IH]; intros t before.
  - exists before. destruct t; reflexivity.
  - change (String c r +:+ t) with (String c (r +:+ t)).
    cbn [replaceAll_from String.length]. apply IH.
Qed.

Lemma prefix_append : forall p t, String.prefix p (p +:+ t) = true.
Proof.
  induction p as [|c r IH]; intros t; [destruct t; reflexivity|].
  change (String c r +:+ t) with (String c (r +:+ t)). cbn [String.prefix].
  destruct (ascii_dec c c) as [_|Hne]; [apply IH|contradiction].
Qed.

Lemma string_drop_append : forall p t, string_drop (String.length p) (p +:+ t) = t.
Proof.
  induction p as [|c r IH]; intros t; [destruct t; reflexivity|].
  change (String c r +:+ t) with (String c (r +:+ t)). cbn. apply IH.
Qed.

Lemma replaceAll_hit c0 p rep post : forall pre before,
  ~ In c0 (list_ascii_of_string pre) ->
  ~ In c0 (list_ascii_of_string post) ->
  replaceAll_from (String c0 p) rep 0 before (pre +:+ String c0 p +:+ post) =
    pre +:+ getSubstitution (String c0 p) (before +:+ pre) post rep +:+ post.
Proof.
  induction pre as [|c r IH]; intros before Hpre Hpost.
  - change (EmptyString +:+ String c0 p +:+ post) with (String c0 (p +:+ post)).
    rewrite replaceAll_from_cons. cbn [String.prefix].
    destruct (ascii_dec c0 c0) as [_|Hne]; [|contradiction].
    rewrite prefix_append, string_drop_append.
    destruct (replaceAll_from_skip (String c0 p) rep p post
                (before ++ String c0 EmptyString)%string) as (b' & ->).
    rewrite replaceAll_from_absent by exact Hpost.
    replace (before +:+ EmptyString) with before
      by (clear; induction before as [|x b IHb]; [reflexivity|];
          change (String x b +:+ EmptyString) with (String x (b +:+ EmptyString));
          rewrite <- IHb; reflexivity).
    reflexivity.
  - change (String c r +:+ String c0 p +:+ post)
      with (String c (r +:+ String c0 p +:+ post)).
    rewrite replaceAll_from_cons. cbn [String.prefix].
    destruct (ascii_dec c0 c) as [->|Hne].
    + exfalso. apply Hpre. left. reflexivity.
    + rewrite IH; [|intros Hin; apply Hpre; right; exact Hin|exact Hpost].
      change (before ++ String c EmptyString)%string
        with (before +:+ String c EmptyString).
      rewrite append_assoc. reflexivity.
Qed.

(** X22. For an id that is not a property name of [Object.prototype]:
    [getMessage] takes the configured text of the message, and the id
    itself when none is configured.  A text without ['$'] comes back
    unchanged whatever the values.  A text with one placeholder ['$' + KEY]
    (the key in upper case) and no other ['$'] comes back with the
    placeholder replaced by what [replaceAll] makes of the value: in it
    [$$] becomes a dollar sign, [$&] the placeholder, [$`] the text before
    and [$'] the text after the placeholder; a value without ['$'] is put
    in the placeholder's place as it is. *)
Theorem getMessage_spec js srv id :
  ownKey id = true ->
  let text := default id (Server.messages srv !! id) in
  Server.getMessage js srv id [] = text
  /\ (~ In "$"%char (list_ascii_of_string text) ->
        forall values, Server.getMessage js srv id values = text)
  /\ (forall key value pre post,
        text = pre +:+ String "$" (js_toUpperCase js key) +:+ post ->
        ~ In "$"%char (list_ascii_of_string pre) ->
        ~ In "$"%char (list_ascii_of_string post) ->
        Server.getMessage js srv id [(key, value)] =
          pre +:+ getSubstitution (String "$" (js_toUpperCase js key)) pre post
                    value +:+ post
        /\ (~ In "$"%char (list_ascii_of_string value) ->
              Server.getMessage js srv id [(key, value)] =
                pre +:+ value +:+ post)).
Proof.
  intros _ text. subst text. unfold Server.getMessage.
  split; [reflexivity|]. split.
  - intros Hno values.
    induction values as [|[k v] values IH]; [reflexivity|]. cbn [fold_left].
    replace (replaceAll ("$" +:+ js_toUpperCase js k) v
               (default id (Server.messages srv !! id)))
      with (default id (Server.messages srv !! id)); [exact IH|].
    symmetry.
    apply (replaceAll_from_absent "$" (js_toUpperCase js k) v _ EmptyString Hno).
  - intros key value pre post Htext Hpre Hpost. cbn [fold_left].
    rewrite Htext.
    assert (Hhit :
      replaceAll ("$" +:+ js_toUpperCase js key) value
        (pre +:+ String "$" (js_toUpperCase js key) +:+ post) =
      pre +:+ getSubstitution (String "$" (js_toUpperCase js key)) pre post
                value +:+ post).
    { exact (replaceAll_hit "$" (js_toUpperCase js key) value post pre
               EmptyString Hpre Hpost). }
    split; [exact Hhit|].
    intros Hval. rewrite Hhit, getSubstitution_plain by exact Hval.
    reflexivity.
Qed.

(** X23. With the base class's [authenticatePlayer] every identifying
    connection is admitted, never disconnected by the server: the player
    is built from the overrides where given and otherwise from the
    identification (uuid the lower-cased user name, service "Minecraft",
    client "Classic") and, its uuid not being ["__proto__"], is in the
    roster under its own uuid afterwards while every other roster entry
    is as before; the connection is sent the server info and handed to
    [changeWorld] with the player, and the join message goes to every
    player of the new roster, the new player included, before it is
    logged. *)
Theorem connectPlayer_admits js co client overrides playerInfo srv c :
  Server.authenticatePlayer co = Server.authenticatePlayer_base ->
  let r := Server.onPlayerIdentification js co client overrides playerInfo srv c in
  let pl := Server.newPlayer co
              (default (js_toLowerCase js (Server.info_username playerInfo))
                       (overrides ≫= Server.auth_uuid))
              (default (Server.info_username playerInfo)
                       (Server.auth_username <$> overrides))
              (default "Classic" client)
              (default "Minecraft" (Server.auth_service <$> overrides)) in
  let message := Server.getMessage js srv "join"
                   [("player", Server.getDisplayName co pl)] in
  uuid pl <> "__proto__" ->
  Server.players r.1 !! uuid pl = Some pl
  /\ (forall k, k <> uuid pl -> Server.players r.1 !! k = Server.players srv !! k)
  /\ r.2 = Server.changeWorld co pl (ConnectionHandler.sendServerInfo c)
  /\ exists line sent,
       Server.log r.1 =
         Server.log srv ++ [Server.conn line] ++ sent ++ [Server.chat message]
       /\ In (Server.sendMessageTo (uuid pl) message) sent
       /\ (forall k, is_Some (Server.players srv !! k) ->
             In (Server.sendMessageTo k message) sent).
Proof.
  intros Hauth r pl message _.
  assert (Hshape : exists line,
    r = (Server.sendChatMessage message
           (Server.set_players (<[uuid pl := pl]> (Server.players srv))
              (Server.logged (Server.conn line) srv)),
         Server.changeWorld co pl (ConnectionHandler.sendServerInfo c))).
  { subst r. unfold Server.onPlayerIdentification. rewrite Hauth.
    eexists. reflexivity. }
  destruct Hshape as (line & ->).
  set (srv1 := Server.set_players (<[uuid pl := pl]> (Server.players srv))
                 (Server.logged (Server.conn line) srv)).
  cbn [fst snd].
  destruct (sendChatMessage_spec_aux message srv1) as (Hp & sent & Hl & Hin).
  rewrite Hp. subst srv1. cbn [Server.players Server.set_players] in *.
  split; [apply lookup_insert_eq|].
  split; [intros k Hk; apply lookup_insert_ne; congruence|].
  split; [reflexivity|].
  exists line, sent. split.
  - rewrite Hl. cbn. rewrite <- app_assoc. reflexivity.
  - split.
    + apply Hin. rewrite lookup_insert_eq. eauto.
    + intros k [v Hv]. apply Hin.
      destruct (decide (uuid pl = k)) as [->|Hne].
      * rewrite lookup_insert_eq. eauto.
      * rewrite lookup_insert_ne by exact Hne. eauto.
Qed.


(* ===================================================================== *)
(** * The view distance of a join *)
(* ===================================================================== *)

Lemma viewDistance_formula w d : viewDistance w d = (Z.max w d + 31) / 32 + 2.
Proof.
  unfold viewDistance, Qceiling, Qfloor, Qdiv, Qmult, Qinv, Qplus, Qopp, inject_Z.
  cbn.
  change (Z.pos (1 * 32 * 1)) with 32. change (Z.pos (1 * 32)) with 32.
  set (m := Z.max w d).
  pose proof (Z.div_mod (- (m * 1 * 1 + 2 * 32)) 32 ltac:(lia)).
  pose proof (Z.mod_pos_bound (- (m * 1 * 1 + 2 * 32)) 32 ltac:(lia)).
  pose proof (Z.div_mod (m + 31) 32 ltac:(lia)).
  pose proof (Z.mod_pos_bound (m + 31) 32 ltac:(lia)).
  lia.
Qed.

Section ViewDistance.

Variable tm : TranslationMap.
Variable server : ServerInfo.

(** X24. The view distance a join announces is
    [ceil(max(sx, sz) / 32) + 2] chunks, around the view position
    [(sx/32, sz/32)] announced with it, and every chunk column the join
    then streams lies within that distance of that position on both axes,
    the border columns included. *)
Theorem columns_within_view_distance fuel w s p sx sy sz :
  player s = Some p ->
  getSize w = (sx, sy, sz) ->
  0 <= sx -> 0 <= sy -> 0 <= sz ->
  (sendWorld_fuel w <= fuel)%nat ->
  exists new,
    sendWorld tm server fuel w s = Some (Normal tt, emits new s)
    /\ In (Sent (packet.updateViewDistance ((Z.max sx sz + 31) / 32 + 2))) new
    /\ In (Sent (packet.updateViewPos (inject_Z sx / 32) (inject_Z sz / 32))) new
    /\ forall cx cz, In (cx, cz) (chunkColumns new) ->
         let vd := inject_Z ((Z.max sx sz + 31) / 32 + 2) in
         (- vd <= inject_Z cx - inject_Z sx / 32 <= vd)%Q
         /\ (- vd <= inject_Z cz - inject_Z sz / 32 <= vd)%Q.
Proof.
  intros Hp Hsize Hsx Hsy Hsz Hfuel.
  destruct (sendWorld_exact tm server fuel w s p sx sy sz Hp Hsize Hsx Hsy Hsz Hfuel)
    as (evs & Hrun & Hevs).
  eexists. split; [exact Hrun|].
  rewrite (join_chunkColumns tm server p w (selfUuid s) w sy _ evs Hevs).
  unfold joinHeader. rewrite Hsize, viewDistance_formula.
  split; [cbn; auto 10|]. split; [cbn; auto 10|].
  intros cx cz Hin. apply in_grid in Hin as [Hx Hz].
  apply in_seqZ in Hx, Hz.
  set (vd := (Z.max sx sz + 31) / 32 + 2).
  assert (Hvd : Z.max sx sz + 64 <= 32 * vd).
  { subst vd.
    pose proof (Z.div_mod (Z.max sx sz + 31) 32 ltac:(lia)).
    pose proof (Z.mod_pos_bound (Z.max sx sz + 31) 32 ltac:(lia)). lia. }
  assert (Hc : forall n c, 0 <= n -> n <= Z.max sx sz -> -1 <= c < -1 + (ceil16 n + 2) ->
                 (- inject_Z vd <= inject_Z c - inject_Z n / 32 <= inject_Z vd)%Q).
  { intros n c Hn Hmax Hc.
    unfold ceil16 in Hc.
    pose proof (Z.div_mod (n + 15) 16 ltac:(lia)).
    pose proof (Z.mod_pos_bound (n + 15) 16 ltac:(lia)).
    unfold Qle, Qminus, Qdiv, Qmult, Qinv, Qplus, Qopp, inject_Z. cbn.
    change (Z.pos (1 * 32)) with 32. change (Z.pos (1 * (1 * 32))) with 32.
    split; lia. }
  cbv zeta. split; apply Hc; lia.
Qed.

End ViewDistance.

(* ===================================================================== *)
(** * Time stamps *)
(* ===================================================================== *)

Lemma forallb_seqZ (f : Z -> bool) a n :
  forallb f (seqZ a n) = true -> forall x, a <= x < a + n -> f x = true.
Proof.
  intros Hall x Hx. rewrite forallb_forall in Hall. apply Hall, in_seqZ, Hx.
Qed.

Lemma addZero_two_digits n :
  0 <= n <= 99 ->
  exists a b, addZero n = String a (String b EmptyString)
              /\ readDecimal (String a (String b EmptyString)) = Some n.
Proof.
  intros Hn.
  assert (Hall : forallb (fun n =>
            match addZero n with
            | String a (String b EmptyString) =>
                match readDecimal (String a (String b EmptyString)) with
                | Some m => m =? n
                | None => false
                end
            | _ => false
            end) (seqZ 0 100) = true) by (vm_compute; reflexivity).
  pose proof (forallb_seqZ _ 0 100 Hall n ltac:(lia)) as H. cbv beta in H.
  destruct (addZero n) as [|a [|b [|c r]]]; try discriminate H.
  exists a, b. split; [reflexivity|].
  destruct (readDecimal (String a (String b EmptyString))) as [m|]; [|discriminate H].
  apply Z.eqb_eq in H. congruence.
Qed.

Lemma year_four_digits y :
  1000 <= y <= 9999 ->
  exists a b c d,
    pretty y = String a (String b (String c (String d EmptyString)))
    /\ readDecimal (pretty y) = Some y.
Proof.
  intros Hy.
  assert (Hall : forallb (fun y =>
            match pretty y with
            | String a (String b (String c (String d EmptyString))) =>
                match readDecimal (pretty y) with
                | Some m => m =? y
                | None => false
                end
            | _ => false
            end) (seqZ 1000 9000) = true) by (vm_compute; reflexivity).
  pose proof (forallb_seqZ _ 1000 9000 Hall y ltac:(lia)) as H. cbv beta in H.
  destruct (pretty y) as [|a [|b [|c [|d [|e r]]]]]; try discriminate H.
  exists a, b, c, d. split; [reflexivity|].
  destruct (readDecimal _) as [m|]; [|discriminate H].
  apply Z.eqb_eq in H. congruence.
Qed.

(** X25. For a year of four digits and fields from 0 to 99, [formatDate]
    gives a text of fixed width, 19 characters with the time and 10
    without, whose fields read back as the numbers they were made from:
    the year at 0, [getMonth()] at 5, [getDay()] at 8, and with the time
    the hours at 11, the minutes at 14 and the seconds at 17, so a one
    digit field is padded with a 0. *)
Theorem formatDate_fixed_width date :
  1000 <= getFullYear date <= 9999 ->
  0 <= getMonth date <= 99 -> 0 <= getDay date <= 99 ->
  0 <= getHours date <= 99 -> 0 <= getMinutes date <= 99 ->
  0 <= getSeconds date <= 99 ->
  String.length (formatDate date true) = 19%nat
  /\ String.length (formatDate date false) = 10%nat
  /\ formatDate date false = substring 0 10 (formatDate date true)
  /\ readDecimal (substring 0 4 (formatDate date true)) = Some (getFullYear date)
  /\ readDecimal (substring 5 2 (formatDate date true)) = Some (getMonth date)
  /\ readDecimal (substring 8 2 (formatDate date true)) = Some (getDay date)
  /\ readDecimal (substring 11 2 (formatDate date true)) = Some (getHours date)
  /\ readDecimal (substring 14 2 (formatDate date true)) = Some (getMinutes date)
  /\ readDecimal (substring 17 2 (formatDate date true)) = Some (getSeconds date).
Proof.
  intros Hy Hmo Hd Hh Hmi Hs. unfold formatDate.
  destruct (year_four_digits _ Hy) as (y1 & y2 & y3 & y4 & Ey & Ry).
  destruct (addZero_two_digits _ Hmo) as (a1 & a2 & E1 & R1).
  destruct (addZero_two_digits _ Hd) as (b1 & b2 & E2 & R2).
  destruct (addZero_two_digits _ Hh) as (c1 & c2 & E3 & R3).
  destruct (addZero_two_digits _ Hmi) as (d1 & d2 & E4 & R4).
  destruct (addZero_two_digits _ Hs) as (e1 & e2 & E5 & R5).
  rewrite Ey in Ry. rewrite Ey, E1, E2, E3, E4, E5.
  cbn [String.append String.length substring].
  repeat split; assumption || reflexivity.
Qed.

(* ===================================================================== *)
(** * The further properties on concrete inputs *)
(* ===================================================================== *)

Lemma ticks_before_deadline_witness :
  trace (ticks Sample.tm Sample.pa [1100; 1151; 1200] Sample.digging) =
    [Sent (packet.keepAlive 1100); Sent (packet.keepAlive 1200)]
  /\ data (ticks Sample.tm Sample.pa [1100; 1151; 1200] Sample.digging) =
     {| minePos := Some (5, 10, 5); mineTime := Some 1000 |}.
Proof.
  destruct (ticks_before_deadline Sample.tm Sample.pa [1100; 1151; 1200]
              Sample.digging (5, 10, 5) 1000 eq_refl eq_refl)
    as (Htr & Hd & _).
  - repeat constructor; lia.
  - split; [exact Htr|exact Hd].
Defined.

Lemma no_player_no_collaborator_witness :
  trace (run (playPackets Sample.tm Sample.pa 1250 (PlayerAction 2 (1, 1, 1)))
           Sample.fresh) = [Sent (packet.setBlock 1 1 1 8245)]
  /\ trace (run (playPackets Sample.tm Sample.pa 1250 (SetPosition 1 2 3))
              Sample.fresh) = [].
Proof.
  split.
  - exact (proj1 (proj1 (no_player_no_collaborator Sample.tm Sample.pa 1250
                           (PlayerAction 2 (1, 1, 1)) Sample.fresh eq_refl))).
  - exact (proj1 (proj1 (no_player_no_collaborator Sample.tm Sample.pa 1250
                           (SetPosition 1 2 3) Sample.fresh eq_refl))).
Defined.

Lemma hotbar_item_is_used_witness :
  trace (run (playPackets Sample.tm Sample.pa 0 (UseItemOn (2, 2, 2) 1 77))
           (run (playPackets Sample.tm Sample.pa 0 (SetHeldItem 3))
              (run (playPackets Sample.tm Sample.pa 0 (SetCreativeSlot (36 + 3) true 1))
                 Sample.s))) =
    [BlockPlace 2 3 2 1; Sent (packet.acknowledgeBlockChange 77)].
Proof.
  refine (proj1 (hotbar_item_is_used Sample.tm Sample.pa 0 3 1 1 2 2 2 1 0 1 0 77
                   Sample.s Sample.p eq_refl _ _ eq_refl eq_refl)).
  - lia.
  - discriminate.
Defined.

Lemma sendWorld_repeatable_witness :
  exists new,
    sendWorld Sample.tm Sample.server 20 Sample.w Sample.s =
      Some (Normal tt, emits new Sample.s)
    /\ sendWorld Sample.tm Sample.server 20 Sample.w (emits new Sample.s) =
       Some (Normal tt, emits new (emits new Sample.s)).
Proof.
  destruct (sendWorld_repeatable Sample.tm Sample.server 20 Sample.w Sample.s
              Sample.p 16 16 16 eq_refl eq_refl)
    as (new & H1 & H2 & _); [lia|lia|lia|vm_compute; lia|].
  exists new. split; [exact H1|exact H2].
Defined.

Lemma sendWorld_column_order_witness :
  exists new,
    sendWorld Sample.tm Sample.server 20 Sample.w Sample.s =
      Some (Normal tt, emits new Sample.s)
    /\ chunkColumns new !! 5%nat = Some (0, 1)
    /\ Z.of_nat (length new) = 18.
Proof.
  destruct (sendWorld_column_order Sample.tm Sample.server 20 Sample.w Sample.s
              Sample.p 16 16 16 eq_refl eq_refl)
    as (new & H1 & H2 & _ & H3); [lia|lia|lia|vm_compute; lia|].
  exists new. split; [exact H1|]. split.
  - assert (Hi : 0 <= 1 < ceil16 16 + 2) by (split; [lia|reflexivity]).
    assert (Hj : 0 <= 2 < ceil16 16 + 2) by (split; [lia|reflexivity]).
    exact (H2 1 2 Hi Hj).
  - rewrite H3. reflexivity.
Defined.

Lemma sendWorld_spawns_others_witness :
  exists new before,
    sendWorld Sample.tm Sample.server 20 SampleServer.crowded Sample.s =
      Some (Normal tt, emits new Sample.s)
    /\ spawnedIds new = [5; 3]
    /\ ~ In 0 (spawnedIds new)
    /\ new = before ++
         [Sent (packet.playerListAdd Sample.p
                  (Some "00000000-0000-0000-0000-000000000001"));
          Sent (packet.teleport 0 8 9 8 (js_rem (0 + 128) 256) 0 false);
          Sent (packet.rotateHead 0 (js_rem (0 + 128) 256));
          Sent (packet.abilities true false false true
                  0x1.999999999999ap-5 0x1.999999999999ap-4)].
Proof.
  destruct (sendWorld_spawns_others Sample.tm Sample.server 20
              SampleServer.crowded Sample.s Sample.p 16 16 16 eq_refl eq_refl)
    as (new & before & H1 & H2 & H3 & H4); [lia|lia|lia|vm_compute; lia|].
  exists new, before.
  split; [exact H1|]. split; [exact H2|]. split; [exact H3|exact H4].
Defined.

Lemma sections_cover_dimension_witness :
  exists new secs,
    sendWorld Sample.tm Sample.server 20 Sample.w Sample.s =
      Some (Normal tt, emits new Sample.s)
    /\ chunkSectionsOf 0 0 new = [secs]
    /\ entry "height" (createDimType Sample.w) = Some (nbt.Int 32)
    /\ 16 * Z.of_nat (length secs) = 32.
Proof.
  destruct (sections_cover_dimension Sample.tm Sample.server 20 Sample.w Sample.s
              Sample.p 16 16 16 0 0 eq_refl eq_refl)
    as (new & secs & H1 & H2 & _ & H3 & _ & _ & H4);
    [lia|lia|lia|vm_compute; lia|vm_compute; split; discriminate
    |vm_compute; split; discriminate|].
  exists new, secs. split; [exact H1|]. split; [exact H2|].
  split; [exact H3|]. apply H4. reflexivity.
Defined.

Lemma sendWorld_fails_iff_no_player_witness :
  exists s',
    sendWorld Sample.tm Sample.server 20 Sample.w
      (run (setPlayer Sample.server Sample.p) Sample.fresh) = Some (Normal tt, s').
Proof.
  refine (proj2 (sendWorld_fails_iff_no_player Sample.tm Sample.server 20 Sample.w
                   Sample.fresh Sample.p 16 16 16 eq_refl _ _ _ _));
    [lia|lia|lia|vm_compute; lia].
Defined.

Lemma columns_within_view_distance_witness :
  exists new,
    sendWorld Sample.tm Sample.server 20 Sample.w Sample.s =
      Some (Normal tt, emits new Sample.s)
    /\ In (Sent (packet.updateViewDistance 3)) new.
Proof.
  destruct (columns_within_view_distance Sample.tm Sample.server 20 Sample.w
              Sample.s Sample.p 16 16 16 eq_refl eq_refl)
    as (new & H1 & H2 & _); [lia|lia|lia|vm_compute; lia|].
  exists new. split; [exact H1|exact H2].
Defined.

Lemma disconnect_spec_witness :
  trace (run (disconnect Sample.pa "bye&") Sample.s) = [PlayerDisconnect]
  /\ trace (run (disconnect Sample.pa "bye") Sample.fresh) =
     [Sent (packet.disconnect "bye"); Closed].
Proof.
  split.
  - exact (proj1 (proj1 (proj2 (disconnect_spec Sample.pa "bye&" Sample.s))
                    Sample.p eq_refl eq_refl)).
  - exact (proj2 (proj2 (proj2 (disconnect_spec Sample.pa "bye" Sample.fresh)))
             eq_refl).
Defined.

Lemma patchText_spec_witness :
  patchText "&eServer closed" = section_sign +:+ "eServer closed"
  /\ patchText "Server closed" = "Server closed".
Proof.
  split.
  - destruct (patchText_spec "eServer closed") as (_ & Hcons & _ & _ & Hid & _).
    rewrite (Hcons "&"%char "eServer closed"), Hid; [reflexivity|].
    cbn. intros H. repeat (destruct H as [H|H]; [discriminate H|]). exact H.
  - apply (proj1 (proj2 (proj2 (proj2 (proj2 (patchText_spec "Server closed")))))).
    cbn. intros H. repeat (destruct H as [H|H]; [discriminate H|]). exact H.
Defined.

Lemma playerListName_spec_witness :
  playerListName Sample.e = "steve"
  /\ String.length (playerListName SampleServer.notch) = 16%nat
  /\ String.prefix (playerListName SampleServer.notch)
       "a_name_of_more_than_16_characters" = true.
Proof.
  split; [|split].
  - apply (proj1 (proj2 (proj2 (proj2 (playerListName_spec Sample.e eq_refl))))).
    cbn. lia.
  - apply (proj2 (proj2 (proj2 (proj2
             (playerListName_spec SampleServer.notch eq_refl))))).
    cbn. lia.
  - exact (proj1 (playerListName_spec SampleServer.notch eq_refl)).
Defined.

Lemma addCommand_spec_witness :
  ServerCommands.addCommand SampleServer.twoWords SampleServer.commands =
    (false, SampleServer.commands)
  /\ (ServerCommands.executeCommand "help me"
        (ServerCommands.addCommand SampleServer.help SampleServer.commands).2).1
     = true.
Proof.
  split.
  - exact (proj1 (addCommand_spec SampleServer.twoWords SampleServer.commands
                    eq_refl) eq_refl).
  - destruct (proj2 (addCommand_spec SampleServer.help SampleServer.commands
                       eq_refl) eq_refl) as (_ & _ & _ & _ & H).
    rewrite (H "help me"); [reflexivity|]. right. exists "me". reflexivity.
Defined.

Lemma executeCommand_spec_witness :
  ServerCommands.executeCommand "stop now" SampleServer.commands =
    (false, SampleServer.commands).
Proof.
  destruct (executeCommand_spec "stop now" SampleServer.commands eq_refl)
    as (_ & _ & H & _).
  rewrite <- (H eq_refl) at 2. reflexivity.
Defined.

Lemma unloadWorld_spec_witness :
  ServerWorlds.unloadWorld SampleServer.co "main" SampleServer.twoWorlds =
    (Normal false, SampleServer.twoWorlds)
  /\ ServerWorlds.unloadWorld SampleServer.co "other" SampleServer.twoWorlds =
     (Normal true, SampleServer.twoWorlds)
  /\ (let r := ServerWorlds.unloadWorld SampleServer.co "lobby"
                 SampleServer.twoWorlds in
      r.1 = Normal true
      /\ ServerWorlds.fileOps r.2 = [ServerWorlds.SaveWorld "lobby"]
      /\ ServerWorlds.worlds r.2 !! "lobby" = None
      /\ ServerWorlds.worlds r.2 !! "main" = Some "main")
  /\ (let r := ServerWorlds.unloadWorld SampleServer.readOnly "lobby"
                 SampleServer.twoWorlds in
      r.1 = Throw "EROFS"
      /\ ServerWorlds.worlds r.2 !! "lobby" = Some "lobby").
Proof.
  split; [|split; [|split]].
  - destruct (unloadWorld_spec string SampleServer.co "main"
                SampleServer.twoWorlds eq_refl) as (_ & _ & _ & H & _).
    exact (H eq_refl).
  - destruct (unloadWorld_spec string SampleServer.co "other"
                SampleServer.twoWorlds eq_refl) as (_ & _ & _ & _ & H & _).
    apply H; [discriminate|reflexivity].
  - destruct (unloadWorld_spec string SampleServer.co "lobby"
                SampleServer.twoWorlds eq_refl) as (Hd & _ & _ & _ & _ & H).
    destruct (H "lobby") as (H1 & H2 & H3); [discriminate|reflexivity|].
    cbv zeta. rewrite H1 in H3. split; [exact H1|].
    split; [exact H2|]. split; [exact H3|exact Hd].
  - destruct (unloadWorld_spec string SampleServer.readOnly "lobby"
                SampleServer.twoWorlds eq_refl) as (_ & _ & _ & _ & _ & H).
    destruct (H "lobby") as (H1 & _ & H3); [discriminate|reflexivity|].
    cbv zeta. rewrite H1 in H3. split; [exact H1|exact H3].
Defined.

Lemma loadWorld_spec_witness :
  (let r := ServerWorlds.loadWorld SampleServer.co "saved" SampleServer.worlds in
   r.1 = Some "saved"
   /\ ServerWorlds.worlds r.2 !! "saved" = Some "saved"
      /\ ServerWorlds.worlds r.2 !! "main" = Some "main"
      /\ ServerWorlds.fileOps r.2 = [ServerWorlds.GetWorld "saved"]
      /\ ServerWorlds.loadWorld SampleServer.co "saved" r.2 = (Some "saved", r.2))
  /\ ServerWorlds.worlds
       (ServerWorlds.loadWorld SampleServer.co "missing" SampleServer.worlds).2 =
     ServerWorlds.worlds SampleServer.worlds
  /\ ServerWorlds.loadWorld SampleServer.co "main" SampleServer.worlds =
     (Some "main", SampleServer.worlds).
Proof.
  split; [|split].
  - destruct (loadWorld_spec string SampleServer.co "saved" SampleServer.worlds
                eq_refl) as (Hkeep & _ & _ & Hfiles & Hret & _).
    cbv zeta.
    assert (Hr : (ServerWorlds.loadWorld SampleServer.co "saved"
                    SampleServer.worlds).1 = Some "saved") by reflexivity.
    destruct (Hret "saved" Hr) as (Hin & Hagain).
    split; [exact Hr|].
    split; [exact Hin|]. split; [apply Hkeep; reflexivity|].
    split; [exact (Hfiles eq_refl)|exact Hagain].
  - destruct (loadWorld_spec string SampleServer.co "missing" SampleServer.worlds
                eq_refl) as (_ & _ & _ & _ & _ & H).
    apply H. reflexivity.
  - destruct (loadWorld_spec string SampleServer.co "main" SampleServer.worlds
                eq_refl) as (_ & _ & H & _).
    apply H. reflexivity.
Defined.

Lemma createWorld_spec_witness :
  ServerWorlds.createWorld Sample.asciiCase SampleServer.co "Cobblestone" "main"
    (256, 128, 256) (Some SampleServer.flat) None None SampleServer.worlds =
    (Some "main", SampleServer.worlds)
  /\ (ServerWorlds.createWorld Sample.asciiCase SampleServer.co "Cobblestone"
        "new" (256, 128, 256) None None None SampleServer.worlds).1 = None
  /\ (let r := ServerWorlds.createWorld Sample.asciiCase SampleServer.co
                 "Cobblestone" "New World" (256, 128, 256)
                 (Some SampleServer.flat) None None SampleServer.worlds in
      r.1 = Some "New World"
      /\ ServerWorlds.worlds r.2 !! "New World" = Some "New World"
      /\ ServerWorlds.worlds r.2 !! "main" = Some "main"
      /\ ServerWorlds.fileOps r.2 = [ServerWorlds.SaveWorld "New World"])
  /\ (let r := ServerWorlds.createWorld Sample.asciiCase SampleServer.readOnly
                 "Cobblestone" "New World" (256, 128, 256)
                 (Some SampleServer.flat) None None SampleServer.worlds in
      r.1 = None
      /\ exists w,
           ServerWorlds.createWorld Sample.asciiCase SampleServer.readOnly
             "Cobblestone" "New World" (256, 128, 256)
             (Some SampleServer.flat) None None r.2 = (Some w, r.2)).
Proof.
  split; [|split; [|split]].
  - destruct (createWorld_spec string Sample.asciiCase SampleServer.co
                "Cobblestone" "main" (256, 128, 256) (Some SampleServer.flat)
                None None SampleServer.worlds eq_refl) as (H & _).
    apply H. reflexivity.
  - destruct (createWorld_spec string Sample.asciiCase SampleServer.co
                "Cobblestone" "new" (256, 128, 256) None None None
                SampleServer.worlds eq_refl) as (_ & H & _).
    apply H; reflexivity.
  - destruct (createWorld_spec string Sample.asciiCase SampleServer.co
                "Cobblestone" "New World" (256, 128, 256)
                (Some SampleServer.flat) None None SampleServer.worlds eq_refl)
      as (_ & _ & Hother & Hret & Hsave & _).
    cbv zeta.
    assert (Hr : (ServerWorlds.createWorld Sample.asciiCase SampleServer.co
                    "Cobblestone" "New World" (256, 128, 256)
                    (Some SampleServer.flat) None None SampleServer.worlds).1
                 = Some "New World") by reflexivity.
    destruct (Hret "New World" Hr) as (Hin & _).
    split; [exact Hr|].
    split; [exact Hin|]. split; [rewrite Hother by discriminate; reflexivity|].
    exact (Hsave "New World" Hr eq_refl).
  - destruct (createWorld_spec string Sample.asciiCase SampleServer.readOnly
                "Cobblestone" "New World" (256, 128, 256)
                (Some SampleServer.flat) None None SampleServer.worlds eq_refl)
      as (_ & _ & _ & _ & _ & Hnone).
    cbv zeta.
    assert (Hr : (ServerWorlds.createWorld Sample.asciiCase SampleServer.readOnly
                    "Cobblestone" "New World" (256, 128, 256)
                    (Some SampleServer.flat) None None SampleServer.worlds).1
                 = None) by reflexivity.
    split; [exact Hr|].
    destruct (Hnone Hr) as [Hsame|(w & e & _ & _ & Hagain)].
    + exfalso.
      assert (Hin : ServerWorlds.worlds
                (ServerWorlds.createWorld Sample.asciiCase SampleServer.readOnly
                   "Cobblestone" "New World" (256, 128, 256)
                   (Some SampleServer.flat) None None SampleServer.worlds).2
                !! "New World" = Some "New World") by reflexivity.
      rewrite Hsame in Hin. discriminate Hin.
    + exists w. exact Hagain.
Defined.

Lemma getMessage_spec_witness :
  Server.getMessage Sample.asciiCase SampleServer.srv "join" [("player", "steve")] =
    "&esteve joined the game"
  /\ Server.getMessage Sample.asciiCase SampleServer.srv "join" [("player", "a$&b")] =
     "&ea$PLAYERb joined the game"
  /\ Server.getMessage Sample.asciiCase SampleServer.srv "leave" [] = "leave".
Proof.
  destruct (getMessage_spec Sample.asciiCase SampleServer.srv "join" eq_refl)
    as (_ & _ & H).
  assert (Hpre : ~ In "$"%char (list_ascii_of_string "&e")).
  { cbn. intros H'. repeat (destruct H' as [H'|H']; [discriminate H'|]). exact H'. }
  assert (Hpost : ~ In "$"%char (list_ascii_of_string " joined the game")).
  { cbn. intros H'. repeat (destruct H' as [H'|H']; [discriminate H'|]). exact H'. }
  split; [|split].
  - apply (H "player" "steve" "&e" " joined the game" eq_refl Hpre Hpost).
    cbn. intros H'. repeat (destruct H' as [H'|H']; [discriminate H'|]). exact H'.
  - exact (proj1 (H "player" "a$&b" "&e" " joined the game" eq_refl Hpre Hpost)).
  - exact (proj1 (getMessage_spec Sample.asciiCase SampleServer.srv "leave" eq_refl)).
Defined.

Lemma connectPlayer_admits_witness :
  let r := Server.onPlayerIdentification Sample.asciiCase SampleServer.admitting
             None None Sample.info SampleServer.srv Sample.conn in
  Server.players r.1 !! "steve"
  = Some (Server.newPlayer SampleServer.admitting "steve" "Steve" "Classic"
            "Minecraft")
  /\ ConnectionHandler.sent r.2 = [ConnectionHandler.serverInfo].
Proof.
  destruct (connectPlayer_admits Sample.asciiCase SampleServer.admitting None None
              Sample.info SampleServer.srv Sample.conn eq_refl)
    as (Hin & _ & Hconn & _); [discriminate|].
  cbv zeta. split; [exact Hin|]. rewrite Hconn. reflexivity.
Defined.

Lemma formatDate_fixed_width_witness :
  String.length (formatDate SampleServer.date true) = 19%nat
  /\ readDecimal (substring 5 2 (formatDate SampleServer.date true)) = Some 0.
Proof.
  destruct (formatDate_fixed_width SampleServer.date) as (H1 & _ & _ & _ & H2 & _);
    try (cbn; lia).
  split; [exact H1|exact H2].
Defined.
